(** * HouseForge token renderer: a shallow embedding of [render_token.py]

    The script configures a Blender scene from a render recipe: it seeds the
    interpreter's random generator, then walks the trait tables and writes
    the resolved numbers into objects, materials, lights, the compositor and
    the render settings.

    Modelling choices, all of them visible in the definitions below:
    - Python [float] is IEEE binary64, embedded as Rocq's primitive [float];
      arithmetic and comparisons are the machine ones.
    - [bpy.data] is a store of named data blocks.  Objects refer to their
      light or mesh data block by name and mesh slots refer to materials by
      name, so two objects that share a data block see each other's writes.
    - A Python statement sequence is a computation in a state-and-exception
      monad: an exception aborts the rest and leaves the store as it was at
      the point of the raise.
    - The host stores what the script assigns; property clamping, the
      renderer itself, console output and file output are outside the model.
    - Strings are byte strings; recipe text is taken to be ASCII. *)

Set Warnings "-inexact-float,-register-all".
From Stdlib Require Import ZArith Floats Ascii String.
From stdpp Require Import gmap strings list fin_maps.

Local Open Scope string_scope.
Local Open Scope Z_scope.

(** ** Exceptions and the state-and-exception monad *)

Inductive exn :=
| KeyError (key : string)
| ValueError (msg : string)
| AttributeError (what : string)
| TypeError (what : string)
| FileNotFoundError (path : string)
| JSONDecodeError
| RuntimeError (msg : string)
| SystemExit (code : Z).

Inductive result (A : Type) :=
| Ok (a : A)
| Raise (e : exn).
Arguments Ok {A} a.
Arguments Raise {A} e.

Definition M (S A : Type) : Type := S → result A * S.

Definition ret {S A} (a : A) : M S A := λ s, (Ok a, s).
Definition raise {S A} (e : exn) : M S A := λ s, (Raise e, s).
Definition bind {S A B} (m : M S A) (k : A → M S B) : M S B :=
  λ s, match m s with
       | (Ok a, s') => k a s'
       | (Raise e, s') => (Raise e, s')
       end.
Definition gets {S A} (f : S → A) : M S A := λ s, (Ok (f s), s).
Definition modify {S} (f : S → S) : M S unit := λ s, (Ok tt, f s).
Definition lift {S A} (r : result A) : M S A := λ s, (r, s).

Notation "'let*' x ':=' m 'in' k" := (bind m (λ x, k))
  (at level 10, x name, m at level 100, k at level 200).
Notation "m ';;' k" := (bind m (λ _, k))
  (at level 100, k at level 200, right associativity).

(** [for x in xs: body] where the body mutates the element it visits: the
    elements before a raising one keep their updates, the raising one keeps
    what it had at the raise, the ones after are not visited. *)
Fixpoint for_each {A} (body : M A unit) (xs : list A) : result unit * list A :=
  match xs with
  | [] => (Ok tt, [])
  | x :: rest =>
      match body x with
      | (Ok _, x') => let '(r, rest') := for_each body rest in (r, x' :: rest')
      | (Raise e, x') => (Raise e, x' :: rest)
      end
  end.

(** [for x in xs: body] where the body acts on an enclosing state. *)
Fixpoint for_in {S A} (xs : list A) (body : A → M S unit) : M S unit :=
  match xs with
  | [] => ret tt
  | x :: rest => body x ;; for_in rest body
  end.

(** [try: body / except Exception: pass] -- the handler of the script only
    prints a warning. *)
Definition try_except {S} (body : M S unit) : M S unit :=
  λ s, match body s with
       | (Raise (SystemExit c), s') => (Raise (SystemExit c), s')
       | (_, s') => (Ok tt, s')
       end.

(** ** Python dictionaries and numbers *)

(** [d[k]] *)
Definition getitem {V} (d : gmap string V) (k : string) : result V :=
  match d !! k with
  | Some v => Ok v
  | None => Raise (KeyError k)
  end.

(** [d.get(k, dflt)] *)
Definition get {V} (d : gmap string V) (k : string) (dflt : V) : V :=
  default dflt (d !! k).

(** [d.get(k, d[fallback])]: Python evaluates the argument [d[fallback]]
    before the call, so a missing fallback entry raises even when [k] is
    present. *)
Definition get_or_entry {V} (d : gmap string V) (k fallback : string) : result V :=
  match getitem d fallback with
  | Ok dflt => Ok (get d k dflt)
  | Raise e => Raise e
  end.

(** [min(a, b)] on floats: the second argument wins only when it compares
    strictly below the first (so a NaN second argument yields the first). *)
Definition py_min (a b : float) : float :=
  if (b <? a)%float then b else a.

(** [min(a, b)] on integers. *)
Definition py_min_int (a b : Z) : Z :=
  if b <? a then b else a.

(** An [int] assigned to a float property; exact for the small integers
    of the tables. *)
Definition float_of_Z (z : Z) : float :=
  if z <? 0 then (- PrimFloat.of_uint63 (Uint63.of_Z (- z)))%float
  else PrimFloat.of_uint63 (Uint63.of_Z z).

(** ** [int(s, 16)] on an ASCII string *)

Definition is_space (c : ascii) : bool :=
  let n := Z.of_nat (nat_of_ascii c) in
  ((9 <=? n) && (n <=? 13)) || (n =? 32).

Definition hex_digit (c : ascii) : option Z :=
  let n := Z.of_nat (nat_of_ascii c) in
  if (48 <=? n) && (n <=? 57) then Some (n - 48)
  else if (97 <=? n) && (n <=? 102) then Some (n - 87)
  else if (65 <=? n) && (n <=? 70) then Some (n - 55)
  else None.

Fixpoint skip_space (s : string) : string :=
  match s with
  | String c rest => if is_space c then skip_space rest else s
  | EmptyString => s
  end.

(** The digit loop: single underscores may separate digits; a doubled or
    trailing underscore is an error.  Returns the value, whether a digit
    was read, and the unread rest. *)
Fixpoint scan_digits (s : string) (acc : Z) (seen : bool) (prev_us : bool)
  : option (Z * bool * string) :=
  match s with
  | String c rest =>
      if Ascii.eqb c "_" then
        if prev_us then None else scan_digits rest acc seen true
      else
        match hex_digit c with
        | Some d => scan_digits rest (16 * acc + d) true false
        | None => if prev_us then None else Some (acc, seen, s)
        end
  | EmptyString => if prev_us then None else Some (acc, seen, s)
  end.

Definition strip_sign (s : string) : bool * string :=
  match s with
  | String c rest =>
      if Ascii.eqb c "+" then (false, rest)
      else if Ascii.eqb c "-" then (true, rest)
      else (false, s)
  | EmptyString => (false, s)
  end.

Definition strip_0x (s : string) : string :=
  match s with
  | String c0 (String c1 rest) =>
      if Ascii.eqb c0 "0" && (Ascii.eqb c1 "x" || Ascii.eqb c1 "X") then
        match rest with
        | String c2 rest' => if Ascii.eqb c2 "_" then rest' else rest
        | EmptyString => rest
        end
      else s
  | _ => s
  end.

Definition parse_hex (s : string) : option Z :=
  let '(neg, s1) := strip_sign (skip_space s) in
  let s2 := strip_0x s1 in
  match s2 with
  | String c _ =>
      if Ascii.eqb c "_" then None
      else
        match scan_digits s2 0 false false with
        | Some (v, true, rest) =>
            match skip_space rest with
            | EmptyString => Some (if neg then - v else v)
            | _ => None
            end
        | _ => None
        end
  | EmptyString => None
  end.

Definition py_int16 (s : string) : result Z :=
  match parse_hex s with
  | Some n => Ok n
  | None => Raise (ValueError ("invalid literal for int() with base 16: " +:+ s))
  end.

(** ** JSON values of a recipe *)

Inductive json :=
| JNull
| JBool (b : bool)
| JInt (z : Z)
| JFloat (f : float)
| JStr (s : string)
| JArr (items : list json)
| JObj (fields : gmap string json).

(** Truthiness, as [if v:] tests it. *)
Definition truthy (v : json) : bool :=
  match v with
  | JNull => false
  | JBool b => b
  | JInt z => negb (z =? 0)
  | JFloat f => negb (f =? 0)%float
  | JStr s => negb (String.eqb s "")
  | JArr items => match items with [] => false | _ => true end
  | JObj fields => negb (bool_decide (fields = ∅))
  end.

(** ** The scene store *)

Definition rgb : Type := float * float * float.

(** The [default_value] of a node input: a number or an RGBA colour. *)
Inductive sockval :=
| SFloat (x : float)
| SColor (r g b a : float).

(** [( *color, 1.0 )] *)
Definition rgba (c : rgb) : sockval :=
  let '(r, g, b) := c in SColor r g b 1.

Definition same_kind (u v : sockval) : bool :=
  match u, v with
  | SFloat _, SFloat _ | SColor _ _ _ _, SColor _ _ _ _ => true
  | _, _ => false
  end.

(** A shader node: [node.type] and [node.inputs]. *)
Record node := mk_node {
  n_type : string;
  inputs : gmap string sockval;
}.

Record material := mk_material {
  use_nodes : bool;
  node_tree : option (list node);
}.

(** [obj.data]; [obj.type] is read off the kind of data block:
    ['LIGHT'] for [ObLight], ['MESH'] for [ObMesh]. *)
Inductive obdata :=
| ObLight (id : string)
| ObMesh (id : string)
| ObEmpty
| ObOther.

Record object := mk_object {
  data : obdata;
  hide_viewport : bool;
  hide_render : bool;
}.

Record light := mk_light {
  energy : float;
  color : rgb;
}.

(** A compositor node; only glare nodes use the three knobs. *)
Record comp_node := mk_comp_node {
  c_type : string;
  c_threshold : float;
  c_size : Z;
  c_mix : float;
}.

(** The Cycles add-on preferences: the compute backend and, per device,
    its type and whether it is enabled. *)
Record cycles_prefs := mk_prefs {
  compute_device_type : string;
  devices : list (string * bool);
}.

(** What the interpreter and the host supply and the script does not
    define: the generator state that [random.seed(n)] installs, the node
    tree a fresh material gets when [use_nodes] is switched on, and the
    device collection that [prefs.get_devices()] leaves after it has
    queried the machine for the backend the preferences name -- or
    nothing, when the query raises. *)
Class Host := {
  RngState : Type;
  random_seed : Z → RngState;
  default_node_tree : list node;
  get_devices : cycles_prefs → option (list (string * bool));
}.

Record World `{Host} := mk_world {
  objects : gmap string object;                   (* bpy.data.objects *)
  lights : gmap string light;                     (* bpy.data.lights *)
  meshes : gmap string (list (option string));    (* bpy.data.meshes: material slots *)
  materials : gmap string material;               (* bpy.data.materials *)
  has_world : bool;                               (* scene.world is not None *)
  scene_use_nodes : bool;                         (* scene.use_nodes *)
  scene_node_tree : option (list comp_node);      (* scene.node_tree *)
  exposure : float;                               (* scene.view_settings.exposure *)
  render : gmap string json;                      (* scene.render, by property name *)
  cycles : gmap string json;                      (* scene.cycles, by property name *)
  preferences : option cycles_prefs;              (* preferences.addons['cycles'] *)
  rng : RngState;                                 (* the module-level generator *)
}.

Section Store.
Context `{Host}.

Definition set_objects (f : gmap string object → gmap string object) (w : World) : World :=
  mk_world _ (f (objects w)) (lights w) (meshes w) (materials w) (has_world w)
    (scene_use_nodes w) (scene_node_tree w) (exposure w) (render w) (cycles w)
    (preferences w) (rng w).
Definition set_lights (f : gmap string light → gmap string light) (w : World) : World :=
  mk_world _ (objects w) (f (lights w)) (meshes w) (materials w) (has_world w)
    (scene_use_nodes w) (scene_node_tree w) (exposure w) (render w) (cycles w)
    (preferences w) (rng w).
Definition set_meshes
    (f : gmap string (list (option string)) → gmap string (list (option string)))
    (w : World) : World :=
  mk_world _ (objects w) (lights w) (f (meshes w)) (materials w) (has_world w)
    (scene_use_nodes w) (scene_node_tree w) (exposure w) (render w) (cycles w)
    (preferences w) (rng w).
Definition set_materials (f : gmap string material → gmap string material) (w : World) : World :=
  mk_world _ (objects w) (lights w) (meshes w) (f (materials w)) (has_world w)
    (scene_use_nodes w) (scene_node_tree w) (exposure w) (render w) (cycles w)
    (preferences w) (rng w).
Definition set_scene_node_tree (t : option (list comp_node)) (w : World) : World :=
  mk_world _ (objects w) (lights w) (meshes w) (materials w) (has_world w)
    (scene_use_nodes w) t (exposure w) (render w) (cycles w)
    (preferences w) (rng w).
Definition set_exposure (x : float) (w : World) : World :=
  mk_world _ (objects w) (lights w) (meshes w) (materials w) (has_world w)
    (scene_use_nodes w) (scene_node_tree w) x (render w) (cycles w)
    (preferences w) (rng w).
Definition set_render (f : gmap string json → gmap string json) (w : World) : World :=
  mk_world _ (objects w) (lights w) (meshes w) (materials w) (has_world w)
    (scene_use_nodes w) (scene_node_tree w) (exposure w) (f (render w)) (cycles w)
    (preferences w) (rng w).
Definition set_cycles (f : gmap string json → gmap string json) (w : World) : World :=
  mk_world _ (objects w) (lights w) (meshes w) (materials w) (has_world w)
    (scene_use_nodes w) (scene_node_tree w) (exposure w) (render w) (f (cycles w))
    (preferences w) (rng w).
Definition set_preferences (p : option cycles_prefs) (w : World) : World :=
  mk_world _ (objects w) (lights w) (meshes w) (materials w) (has_world w)
    (scene_use_nodes w) (scene_node_tree w) (exposure w) (render w) (cycles w)
    p (rng w).
Definition set_rng (r : RngState) (w : World) : World :=
  mk_world _ (objects w) (lights w) (meshes w) (materials w) (has_world w)
    (scene_use_nodes w) (scene_node_tree w) (exposure w) (render w) (cycles w)
    (preferences w) r.

(** *** Reaching into the store *)

(** Run [m] on the material named [k]; [absent] is what happens when the
    name resolves to nothing. *)
Definition in_material {A} (k : string) (m : M material A) (absent : M World A)
  : M World A :=
  λ w, match materials w !! k with
       | Some mat => let '(r, mat') := m mat in (r, set_materials (<[k := mat']>) w)
       | None => absent w
       end.

(** Run [m] on the light data block named [d]. *)
Definition in_light {A} (d : string) (m : M light A) (absent : M World A)
  : M World A :=
  λ w, match lights w !! d with
       | Some l => let '(r, l') := m l in (r, set_lights (<[d := l']>) w)
       | None => absent w
       end.

(** Run [m] on the compositor nodes, [scene.node_tree.nodes]. *)
Definition in_scene_nodes {A} (m : M (list comp_node) A) : M World A :=
  λ w, match scene_node_tree w with
       | Some ns => let '(r, ns') := m ns in (r, set_scene_node_tree (Some ns') w)
       | None => (Raise (AttributeError "node_tree"), w)
       end.
End Store.

(** [mat.node_tree.nodes]: a material without a tree has [node_tree] equal
    to [None]. *)
Definition in_node_tree {A} (m : M (list node) A) : M material A :=
  λ mat, match node_tree mat with
         | Some ns => let '(r, ns') := m ns in (r, mk_material (use_nodes mat) (Some ns'))
         | None => (Raise (AttributeError "node_tree"), mat)
         end.

(** [node.inputs[k].default_value] *)
Definition get_input (k : string) : M node sockval :=
  λ n, (getitem (inputs n) k, n).

(** [node.inputs[k].default_value = v]: the socket must exist and accept
    the kind of value. *)
Definition set_input (k : string) (v : sockval) : M node unit :=
  λ n, match inputs n !! k with
       | Some old =>
           if same_kind old v then (Ok tt, mk_node (n_type n) (<[k := v]> (inputs n)))
           else (Raise (TypeError k), n)
       | None => (Raise (KeyError k), n)
       end.

Definition as_float {S} (v : sockval) : M S float :=
  match v with
  | SFloat x => ret x
  | SColor _ _ _ _ => raise (TypeError "float expected")
  end.

(** [if node.type == ty: body] *)
Definition when_type (ty : string) (body : M node unit) : M node unit :=
  λ n, if bool_decide (n_type n = ty) then body n else (Ok tt, n).

(** ** Recipes *)

(** A file on disk: not JSON at all, or a JSON object. *)
Inductive file :=
| Malformed
| Document (recipe : gmap string json).

Definition required_fields : list string :=
  ["tokenId"; "houseKey"; "seed"; "traits"; "output"; "renderSettings"].

Definition missing_field (field : string) : exn :=
  ValueError ("Missing required field: " +:+ field).

(** The loop of [load_recipe]: the first absent field raises. *)
Fixpoint check_fields (fields : list string) (recipe : gmap string json) : result unit :=
  match fields with
  | [] => Ok tt
  | field :: rest =>
      match recipe !! field with
      | None => Raise (missing_field field)
      | Some _ => check_fields rest recipe
      end
  end.

Definition load_recipe (fs : gmap string file) (recipe_path : string)
  : result (gmap string json) :=
  match fs !! recipe_path with
  | None => Raise (FileNotFoundError recipe_path)
  | Some Malformed => Raise JSONDecodeError
  | Some (Document recipe) =>
      match check_fields required_fields recipe with
      | Ok _ => Ok recipe
      | Raise e => Raise e
      end
  end.

(** Typed views of recipe values.  The script is dynamically typed; the
    views raise where the first use of an ill-typed value would. *)
Definition as_str (v : json) : result string :=
  match v with
  | JStr s => Ok s
  | _ => Raise (TypeError "str expected")
  end.

Definition as_int (v : json) : result Z :=
  match v with
  | JInt z => Ok z
  | JBool b => Ok (Z.b2z b)
  | _ => Raise (TypeError "int expected")
  end.

Definition as_bool (v : json) : result bool :=
  match v with
  | JBool b => Ok b
  | JInt 0 => Ok false
  | JInt 1 => Ok true
  | _ => Raise (TypeError "bool expected")
  end.

Definition as_obj (v : json) : result (gmap string json) :=
  match v with
  | JObj fields => Ok fields
  | _ => Raise (AttributeError "get")
  end.

Definition str_of (v : json) : option string :=
  match v with
  | JStr s => Some s
  | _ => None
  end.

(** The traits mapping as the scene steps are typed here: names to
    strings.  A recipe's trait values are strings drawn from closed
    enumerations; the script does not check that, and what it does with a
    value of another type is not modelled -- the view stops there, and
    every property of the scene steps is stated for recipes that pass
    [string_traits] below. *)
Definition as_traits (v : json) : result (gmap string string) :=
  match v with
  | JObj fields =>
      if bool_decide (map_Forall (λ _ x, is_Some (str_of x)) fields)
      then Ok (omap str_of fields)
      else Raise (TypeError "trait values are strings")
  | _ => Raise (AttributeError "get")
  end.

(** The recipes the typed view is faithful on: when [recipe['traits']]
    is an object, its values are strings.  (A recipe without traits, or
    with traits that are no object, is covered: the script fails on it
    as the view does.) *)
Definition string_traits (recipe : gmap string json) : bool :=
  match recipe !! "traits" with
  | Some (JObj fields) => bool_decide (map_Forall (λ _ x, is_Some (str_of x)) fields)
  | _ => true
  end.

(** ** Archetype tables *)

Record frame_params := mk_frame {
  frame_color : rgb;
  frame_metallic : float;
  frame_roughness : float;
}.

Definition frame_materials : gmap string frame_params :=
  list_to_map [
    ("BrushedSteel", mk_frame (0.6, 0.6, 0.62) 1.0 0.35);
    ("PolishedBrass", mk_frame (0.85, 0.65, 0.3) 1.0 0.15);
    ("AntiqueBronze", mk_frame (0.45, 0.35, 0.25) 1.0 0.5);
    ("WhiteGold", mk_frame (0.9, 0.88, 0.8) 1.0 0.1);
    ("BlackTitanium", mk_frame (0.08, 0.08, 0.1) 1.0 0.25);
    ("CopperVerde", mk_frame (0.7, 0.45, 0.35) 1.0 0.4);
    ("RoseGold", mk_frame (0.9, 0.6, 0.55) 1.0 0.2);
    ("PlatinumMatte", mk_frame (0.75, 0.75, 0.78) 1.0 0.6);
    ("MirrorChrome", mk_frame (0.95, 0.95, 0.97) 1.0 0.02);
    ("GunmetalBlue", mk_frame (0.25, 0.28, 0.35) 1.0 0.3)
  ]%float.

Definition get_material_params (frame_type : string) : result frame_params :=
  get_or_entry frame_materials frame_type "BrushedSteel".

(** Core entries: ["metallic"] and ["emission"] are present in some
    entries only, and the script reads ["transmission"] with [.get] too. *)
Record core_params := mk_core {
  core_color : rgb;
  core_transmission : option float;
  core_roughness : float;
  core_metallic : option float;
  core_emission : option float;
}.

Definition core_materials : gmap string core_params :=
  list_to_map [
    ("ClearCrystal", mk_core (0.98, 0.99, 1.0) (Some 0.95) 0.02 None None);
    ("CloudGlass", mk_core (0.95, 0.96, 0.98) (Some 0.7) 0.15 None None);
    ("LiquidMercury", mk_core (0.85, 0.85, 0.88) (Some 0.0) 0.05 (Some 0.95) None);
    ("MoltenAmber", mk_core (1.0, 0.7, 0.3) (Some 0.85) 0.1 None (Some 0.1));
    ("VoidObsidian", mk_core (0.02, 0.02, 0.03) (Some 0.4) 0.08 None None);
    ("FrozenPlasma", mk_core (0.6, 0.8, 1.0) (Some 0.3) 0.1 None (Some 2.0));
    ("StormEssence", mk_core (0.5, 0.6, 0.8) (Some 0.5) 0.2 None (Some 0.5));
    ("DesertQuartz", mk_core (1.0, 0.95, 0.85) (Some 0.8) 0.2 None None);
    ("AuroraSilk", mk_core (0.8, 0.85, 0.9) (Some 0.6) 0.3 None None);
    ("EclipseCore", mk_core (0.1, 0.08, 0.12) (Some 0.2) 0.05 None (Some 0.3))
  ]%float.

Definition get_core_material_params (core_material : string) : result core_params :=
  get_or_entry core_materials core_material "ClearCrystal".

Record aging := mk_aging { roughness_add : float }.

Definition aging_params : gmap string aging :=
  list_to_map [
    ("Pristine", mk_aging 0.0);
    ("SlightWear", mk_aging 0.05);
    ("LightPatina", mk_aging 0.1);
    ("WeatheredGrace", mk_aging 0.15);
    ("AncientRelic", mk_aging 0.25)
  ]%float.

Record signature := mk_signature {
  energy_mult : float;
  accent_color : rgb;
}.

Definition signatures : gmap string signature :=
  list_to_map [
    ("Sunbeam", mk_signature 1.2 (1.0, 0.95, 0.85));
    ("PrismaticRay", mk_signature 1.0 (1.0, 0.9, 0.95));
    ("NeonRain", mk_signature 0.8 (0.4, 0.9, 1.0));
    ("WetGlow", mk_signature 0.7 (0.85, 0.92, 1.0));
    ("LightningFork", mk_signature 1.5 (0.7, 0.85, 1.0));
    ("IonBloom", mk_signature 0.9 (0.6, 0.5, 1.0));
    ("PolarGlow", mk_signature 0.85 (0.6, 0.9, 0.8));
    ("FrostScatter", mk_signature 1.1 (0.8, 0.95, 1.0));
    ("AuroraRibbon", mk_signature 0.75 (0.3, 1.0, 0.6));
    ("SpectrumVeil", mk_signature 0.7 (0.8, 0.7, 1.0));
    ("GoldenHaze", mk_signature 1.3 (1.0, 0.85, 0.6));
    ("DustHalo", mk_signature 0.9 (1.0, 0.9, 0.75));
    ("EclipseHalo", mk_signature 0.4 (1.0, 0.7, 0.4));
    ("RingRim", mk_signature 0.3 (1.0, 0.8, 0.5))
  ]%float.

Definition get_light_signature_params (sig : string) : result signature :=
  get_or_entry signatures sig "Sunbeam".

Definition house_defaults : gmap string string :=
  list_to_map [
    ("CLEAR", "Sunbeam");
    ("MONSOON", "NeonRain");
    ("THUNDER", "LightningFork");
    ("FROST", "PolarGlow");
    ("AURORA", "AuroraRibbon");
    ("SAND", "GoldenHaze");
    ("ECLIPSE", "EclipseHalo")
  ].

Record atmosphere := mk_atmosphere { volume_density : float }.

Definition atmosphere_settings : gmap string atmosphere :=
  list_to_map [
    ("Clear", mk_atmosphere 0.0);
    ("MistVeil", mk_atmosphere 0.1);
    ("RainCurtain", mk_atmosphere 0.08);
    ("DustStorm", mk_atmosphere 0.15);
    ("SnowDrift", mk_atmosphere 0.05);
    ("ThunderCloud", mk_atmosphere 0.12);
    ("AuroraWisp", mk_atmosphere 0.03);
    ("EclipseShadow", mk_atmosphere 0.08)
  ]%float.

(** Bloom entries: ["None"] carries only ["enabled"], the others only the
    three knobs; every key is read with [.get]. *)
Record bloom := mk_bloom {
  bloom_enabled : option bool;
  bloom_threshold : option float;
  bloom_size : option Z;
  bloom_mix : option Z;
}.

Definition bloom_settings : gmap string bloom :=
  list_to_map [
    ("None", mk_bloom (Some false) None None None);
    ("Subtle", mk_bloom None (Some 0.9%float) (Some 3) (Some 0));
    ("Moderate", mk_bloom None (Some 0.8%float) (Some 5) (Some 0));
    ("Intense", mk_bloom None (Some 0.7%float) (Some 8) (Some 0));
    ("Cinematic", mk_bloom None (Some 0.75%float) (Some 6) (Some 0))
  ].

Record palette := mk_palette {
  palette_exposure : float;
  palette_gamma : rgb;
}.

Definition temp_settings : gmap string palette :=
  list_to_map [
    ("Warm", mk_palette 0.1 (1.02, 1.0, 0.98));
    ("Cool", mk_palette 0.0 (0.98, 1.0, 1.02));
    ("Neutral", mk_palette 0.0 (1.0, 1.0, 1.0));
    ("HighContrast", mk_palette 0.05 (1.0, 1.0, 1.0));
    ("Desaturated", mk_palette 0.0 (1.0, 1.0, 1.0))
  ]%float.

(** ** The renderer script *)

Section Renderer.
Context `{Host}.

(** [seed_random]: both arms of the conditional parse the same way. *)
Definition seed_random (seed_hex : string) : M World Z :=
  let* seed_int :=
    lift (if String.prefix "0x" seed_hex then py_int16 seed_hex else py_int16 seed_hex) in
  modify (set_rng (random_seed (seed_int mod 2 ^ 32))) ;;
  ret seed_int.

Definition is_principled : M node unit → M node unit := when_type "BSDF_PRINCIPLED".
Definition is_emission : M node unit → M node unit := when_type "EMISSION".

(** [apply_surface_aging(material, aging_type)], run on the material. *)
Definition apply_surface_aging (aging_type : string) : M material unit :=
  let* params := lift (get_or_entry aging_params aging_type "Pristine") in
  let* nodes_on := gets use_nodes in
  if nodes_on : bool then
    in_node_tree (for_each (is_principled (
      let* current := get_input "Roughness" in
      let* current_roughness := as_float current in
      set_input "Roughness"
        (SFloat (py_min 1 (current_roughness + roughness_add params))))))
  else ret tt.

(** [bpy.data.materials.get(name)], and when that is nothing,
    [bpy.data.materials.new(name)] followed by [mat.use_nodes = True]. *)
Definition get_or_new_material (mat_name : string) : M World unit :=
  let* mat := gets (λ w, materials w !! mat_name) in
  match mat with
  | Some _ => ret tt
  | None =>
      modify (set_materials (<[mat_name := mk_material true (Some default_node_tree)]>))
  end.

Definition no_attribute {A} (what : string) : M World A :=
  raise (AttributeError what).

(** The closing lines of both material functions: slot 0 of the
    object's mesh takes the material, or the material is appended. *)
Definition assign_material (obj : object) (mat_name : string) : M World unit :=
  match data obj with
  | ObMesh d =>
      let* mesh := gets (λ w, meshes w !! d) in
      match mesh with
      | Some slots =>
          if 0 <? Z.of_nat (List.length slots) then
            modify (set_meshes (<[d := <[0%nat := Some mat_name]> slots]>))
          else
            modify (set_meshes (<[d := (slots ++ [Some mat_name])%list]>))
      | None => no_attribute "materials"
      end
  | _ => no_attribute "materials"
  end.

Definition configure_frame_material (traits : gmap string string) : M World unit :=
  let* frame := gets (λ w, objects w !! "Frame") in
  match frame with
  | None => ret tt
  | Some frame =>
      let frame_type := get traits "FrameType" "BrushedSteel" in
      let* params := lift (get_material_params frame_type) in
      let mat_name := "MAT_Frame_" +:+ frame_type in
      get_or_new_material mat_name ;;
      in_material mat_name
        (in_node_tree (for_each (is_principled (
           set_input "Base Color" (rgba (frame_color params)) ;;
           set_input "Metallic" (SFloat (frame_metallic params)) ;;
           set_input "Roughness" (SFloat (frame_roughness params))))))
        (no_attribute "node_tree") ;;
      let aging := get traits "SurfaceAging" "Pristine" in
      in_material mat_name (apply_surface_aging aging) (no_attribute "use_nodes") ;;
      assign_material frame mat_name
  end.

(** [params.get("emission", 0) > 0] *)
Definition emits (params : core_params) : option float :=
  match core_emission params with
  | Some e => if (0 <? e)%float then Some e else None
  | None => None
  end.

Definition configure_core_material (traits : gmap string string) : M World unit :=
  let* core := gets (λ w, objects w !! "Core") in
  match core with
  | None => ret tt
  | Some core =>
      let core_type := get traits "CoreMaterial" "ClearCrystal" in
      let* params := lift (get_core_material_params core_type) in
      let mat_name := "MAT_Core_" +:+ core_type in
      get_or_new_material mat_name ;;
      in_material mat_name
        (in_node_tree (for_each (is_principled (
           set_input "Base Color" (rgba (core_color params)) ;;
           set_input "Roughness" (SFloat (core_roughness params)) ;;
           set_input "Transmission Weight"
             (SFloat (default 0%float (core_transmission params))) ;;
           set_input "Metallic" (SFloat (default 0%float (core_metallic params))) ;;
           match emits params with
           | Some e =>
               set_input "Emission Strength" (SFloat e) ;;
               set_input "Emission Color" (rgba (core_color params))
           | None => ret tt
           end))))
        (no_attribute "node_tree") ;;
      assign_material core mat_name
  end.

(** [obj = bpy.data.objects.get(name); if obj: ...] with an update [f]
    of the object's own fields. *)
Definition update_object (name : string) (f : object → object) : M World unit :=
  let* obj := gets (λ w, objects w !! name) in
  match obj with
  | Some o => modify (set_objects (<[name := f o]>))
  | None => ret tt
  end.

Definition hide (o : object) : object := mk_object (data o) true true.
Definition show (o : object) : object := mk_object (data o) false false.

Definition geometry_objects : list string :=
  ["Geo_Capsule"; "Geo_Obelisk"; "Geo_Cube"; "Geo_Sphere"; "Geo_Prism";
   "Geo_BarometerAssembly"].

Definition configure_geometry (traits : gmap string string) : M World unit :=
  let geometry_type := get traits "DioramaGeometry" "Sphere" in
  for_in geometry_objects (λ obj_name, update_object obj_name hide) ;;
  let target_name := "Geo_" +:+ geometry_type in
  update_object target_name show.

(** The body shared by the two emission-plane helpers: every material
    slot that holds a node material has [body] run on its emission
    nodes.  [not obj.data] and [not obj.data.materials] return early. *)
Definition on_emission_nodes (obj : object) (body : M node unit) : M World unit :=
  match data obj with
  | ObMesh d =>
      let* mesh := gets (λ w, meshes w !! d) in
      match mesh with
      | None | Some [] => ret tt
      | Some slots =>
          for_in slots (λ slot,
            match slot with
            | None => ret tt
            | Some k =>
                in_material k
                  (let* nodes_on := gets use_nodes in
                   if nodes_on : bool
                   then in_node_tree (for_each (is_emission body))
                   else ret tt)
                  (ret tt)
            end)
      end
  | ObEmpty => ret tt
  | _ => no_attribute "materials"
  end.

Definition adjust_emission_plane_strength (obj : object) (multiplier : float)
  : M World unit :=
  on_emission_nodes obj (
    let* v := get_input "Strength" in
    let* current := as_float v in
    set_input "Strength" (SFloat (current * multiplier))).

Definition adjust_emission_plane_color (obj : object) (c : rgb) : M World unit :=
  on_emission_nodes obj (set_input "Color" (rgba c)).

(** [house_defaults.get(house_key, "Sunbeam")] for a JSON key: a
    non-string scalar matches no entry, a list or object cannot be
    hashed. *)
Definition house_default (house_key : json) : result string :=
  match house_key with
  | JStr k => Ok (get house_defaults k "Sunbeam")
  | JArr _ | JObj _ => Raise (TypeError "unhashable type")
  | _ => Ok "Sunbeam"
  end.

(** The first lines of [configure_lights]: the trait, or when it is
    absent or empty, the house default. *)
Definition resolve_light_signature (traits : gmap string string) (house_key : json)
  : result string :=
  match traits !! "LightSignature" with
  | Some sig => if String.eqb sig "" then house_default house_key else Ok sig
  | None => house_default house_key
  end.

Definition set_energy (f : float → float) (l : light) : light :=
  mk_light (f (energy l)) (color l).
Definition set_color (c : rgb) (l : light) : light :=
  mk_light (energy l) c.

(** The key-light block of [configure_lights]: a true light has its
    energy multiplied in place, an emission plane its emission strength. *)
Definition adjust_key_light (params : signature) : M World unit :=
  let* key_light := gets (λ w, objects w !! "Light_Key") in
  match key_light with
  | Some key_light =>
      match data key_light with
      | ObLight d =>
          in_light d (modify (set_energy (λ e, e * energy_mult params)%float))
            (no_attribute "energy")
      | ObMesh _ => adjust_emission_plane_strength key_light (energy_mult params)
      | _ => ret tt
      end
  | None => ret tt
  end.

(** The body of the accent/fill loop of [configure_lights]: a true light
    takes the accent colour, an emission plane is passed over. *)
Definition tint_light (params : signature) (light_name : string) : M World unit :=
  let* light := gets (λ w, objects w !! light_name) in
  match light with
  | Some light =>
      match data light with
      | ObLight d =>
          in_light d (modify (set_color (accent_color params)))
            (no_attribute "color")
      | _ => ret tt
      end
  | None => ret tt
  end.

Definition tint_accent_lights (params : signature) : M World unit :=
  for_in ["Light_Accent"; "Light_Fill"] (tint_light params).

Definition configure_lights (traits : gmap string string) (house_key : json)
  : M World unit :=
  let* light_signature := lift (resolve_light_signature traits house_key) in
  let* params := lift (get_light_signature_params light_signature) in
  adjust_key_light params ;;
  tint_accent_lights params.

Definition configure_atmosphere (traits : gmap string string) : M World unit :=
  let atmosphere := get traits "Atmosphere" "Clear" in
  let* world := gets has_world in
  if negb world then ret tt
  else
    let* settings := lift (get_or_entry atmosphere_settings atmosphere "Clear") in
    ret tt.
Definition set_prop (k : string) (v : json) (props : gmap string json)
  : gmap string json := <[k := v]> props.

(** [device.use = device.type in ('OPTIX', 'CUDA', 'OPENCL')] *)
Definition enable_gpu (dev : string * bool) : string * bool :=
  (dev.1, bool_decide (dev.1 ∈ ["OPTIX"; "CUDA"; "OPENCL"])).

(** [prefs.get_devices()], after the backend has been set: the host
    replaces the device collection, or the query raises. *)
Definition refresh_devices (prefs : cycles_prefs) : M World (list (string * bool)) :=
  match get_devices prefs with
  | Some found => modify (set_preferences (Some (mk_prefs (compute_device_type prefs) found))) ;;
                  ret found
  | None => raise (RuntimeError "get_devices")
  end.

(** The guarded block of [configure_render_settings]: without the
    Cycles add-on the lookup raises, and the handler swallows that as it
    swallows a failing device query. *)
Definition configure_gpu : M World unit :=
  try_except (
    let* prefs := gets preferences in
    match prefs with
    | None => raise (KeyError "cycles")
    | Some prefs =>
        let prefs := mk_prefs "OPTIX" (devices prefs) in
        modify (set_preferences (Some prefs)) ;;
        let* found := refresh_devices prefs in
        modify (set_preferences (Some (mk_prefs "OPTIX" (enable_gpu <$> found))))
    end).

Definition configure_render_settings (render_settings : gmap string json)
  : M World unit :=
  let engine := get render_settings "engine" (JStr "CYCLES") in
  let* engine_name := lift (as_str engine) in
  modify (set_render (set_prop "engine" (JStr engine_name))) ;;
  if String.eqb engine_name "CYCLES" then
    modify (set_cycles (set_prop "device" (JStr "GPU"))) ;;
    configure_gpu ;;
    let* samples := lift (as_int (get render_settings "samples" (JInt 96))) in
    modify (set_cycles (set_prop "samples" (JInt samples))) ;;
    (if truthy (get render_settings "denoise" (JBool true)) then
       modify (set_cycles (set_prop "use_denoising" (JBool true))) ;;
       modify (set_cycles (set_prop "denoiser" (JStr "OPENIMAGEDENOISE")))
     else ret tt) ;;
    (if truthy (get render_settings "adaptiveSampling" (JBool true)) then
       modify (set_cycles (set_prop "use_adaptive_sampling" (JBool true))) ;;
       modify (set_cycles (set_prop "adaptive_threshold" (JFloat 0.015)))
     else ret tt) ;;
    let* max_bounces := lift (as_int (get render_settings "maxBounces" (JInt 6))) in
    modify (set_cycles (set_prop "max_bounces" (JInt max_bounces))) ;;
    modify (set_cycles (set_prop "diffuse_bounces" (JInt (py_min_int 2 max_bounces)))) ;;
    modify (set_cycles (set_prop "glossy_bounces" (JInt (py_min_int 3 max_bounces)))) ;;
    modify (set_cycles (set_prop "transmission_bounces" (JInt (py_min_int 6 max_bounces)))) ;;
    modify (set_cycles (set_prop "volume_bounces" (JInt (py_min_int 2 max_bounces))))
  else ret tt.

Definition configure_output (output_settings : gmap string json) (output_path : string)
  : M World unit :=
  let* width := lift (as_int (get output_settings "width" (JInt 1024))) in
  modify (set_render (set_prop "resolution_x" (JInt width))) ;;
  let* height := lift (as_int (get output_settings "height" (JInt 1024))) in
  modify (set_render (set_prop "resolution_y" (JInt height))) ;;
  modify (set_render (set_prop "resolution_percentage" (JInt 100))) ;;
  let* format_type := lift (as_str (get output_settings "format" (JStr "WEBP"))) in
  modify (set_render (set_prop "file_format" (JStr format_type))) ;;
  (if String.eqb format_type "WEBP" then
     let* quality := lift (as_int (get output_settings "quality" (JInt 90))) in
     modify (set_render (set_prop "quality" (JInt quality)))
   else if String.eqb format_type "PNG" then
     modify (set_render (set_prop "compression" (JInt 15)))
   else ret tt) ;;
  let* transparent :=
    lift (as_bool (get output_settings "transparentBackground" (JBool false))) in
  modify (set_render (set_prop "film_transparent" (JBool transparent))) ;;
  modify (set_render (set_prop "filepath" (JStr output_path))).

(** The three assignments made to a glare node. *)
Definition set_glare (settings : bloom) (n : comp_node) : comp_node :=
  mk_comp_node (c_type n)
    (default 0.8%float (bloom_threshold settings))
    (default 7 (bloom_size settings))
    (float_of_Z (default 0 (bloom_mix settings))).

Definition configure_lens_bloom (traits : gmap string string) : M World unit :=
  let bloom_type := get traits "LensBloom" "Subtle" in
  let* settings := lift (get_or_entry bloom_settings bloom_type "Subtle") in
  if negb (default true (bloom_enabled settings)) then ret tt
  else
    let* nodes_on := gets scene_use_nodes in
    if negb nodes_on then ret tt
    else
      in_scene_nodes (for_each (λ n,
        if bool_decide (c_type n = "GLARE") then (Ok tt, set_glare settings n)
        else (Ok tt, n))).

Definition apply_palette_temperature (traits : gmap string string) : M World unit :=
  let temp := get traits "PaletteTemperature" "Neutral" in
  let* settings := lift (get_or_entry temp_settings temp "Neutral") in
  modify (set_exposure (palette_exposure settings)).

(** The seven scene steps of [render_token], from the reading of
    [recipe['traits']] on. *)
Definition configure_traits (recipe : gmap string json) : M World unit :=
  let* traits_value := lift (getitem recipe "traits") in
  let* house_key := lift (getitem recipe "houseKey") in
  let* traits := lift (as_traits traits_value) in
  configure_geometry traits ;;
  configure_frame_material traits ;;
  configure_core_material traits ;;
  configure_lights traits house_key ;;
  configure_atmosphere traits ;;
  configure_lens_bloom traits ;;
  apply_palette_temperature traits.

(** [seed_hex.startswith] on a recipe value. *)
Definition as_seed (v : json) : result string :=
  match v with
  | JStr s => Ok s
  | _ => Raise (AttributeError "startswith")
  end.

(** The trait-driven half of [render_token]: the banner line reads the
    token id, then comes the seeding, then the scene steps. *)
Definition configure_scene (recipe : gmap string json) : M World unit :=
  let* _token_id := lift (getitem recipe "tokenId") in
  let* seed := lift (getitem recipe "seed") in
  let* seed_hex := lift (as_seed seed) in
  seed_random seed_hex ;;
  configure_traits recipe.

(** The settings half of [render_token]. *)
Definition configure_render (recipe : gmap string json) (output_path : string)
  : M World unit :=
  let* render_settings_value := lift (getitem recipe "renderSettings") in
  let* render_settings := lift (as_obj render_settings_value) in
  configure_render_settings render_settings ;;
  let* output_value := lift (getitem recipe "output") in
  let* output_settings := lift (as_obj output_value) in
  configure_output output_settings output_path.

(** [render_token]: everything up to the call of the renderer, which
    belongs to the host; the function then returns [True]. *)
Definition render_token (recipe : gmap string json) (output_path : string)
  : M World bool :=
  configure_scene recipe ;;
  configure_render recipe output_path ;;
  ret true.

(** [argv[argv.index("--") + 1:]], when ["--"] occurs. *)
Fixpoint after_dashes (argv : list string) : option (list string) :=
  match argv with
  | [] => None
  | arg :: rest => if String.eqb arg "--" then Some rest else after_dashes rest
  end.

Definition main (argv : list string) (fs : gmap string file) : M World unit :=
  match after_dashes argv with
  | None => raise (SystemExit 1)
  | Some argv =>
      match argv with
      | recipe_path :: output_path :: _ =>
          let* recipe := lift (load_recipe fs recipe_path) in
          let* success := render_token recipe output_path in
          if negb success then raise (SystemExit 1) else ret tt
      | _ => raise (SystemExit 1)
      end
  end.
End Renderer.

(** ** A reference host and a sample scene

    Used to run the definitions on concrete inputs.  The generator state
    is identified with the key it was seeded with; a fresh node material
    holds a Principled BSDF and an output node; the machine has a CPU and
    an OptiX device, which the device query enters into an empty
    collection and otherwise leaves as listed. *)

Definition principled_bsdf : node :=
  mk_node "BSDF_PRINCIPLED" (list_to_map [
    ("Base Color", SColor 0.8 0.8 0.8 1);
    ("Metallic", SFloat 0);
    ("Roughness", SFloat 0.5);
    ("Transmission Weight", SFloat 0);
    ("Emission Color", SColor 1 1 1 1);
    ("Emission Strength", SFloat 0)
  ]%float).

Definition material_output : node := mk_node "OUTPUT_MATERIAL" ∅.

Definition emission_node (c : rgb) (strength : float) : node :=
  mk_node "EMISSION" (list_to_map [("Color", rgba c); ("Strength", SFloat strength)]).

Definition sample_host : Host := {|
  RngState := Z;
  random_seed := λ n, n;
  default_node_tree := [principled_bsdf; material_output];
  get_devices := λ prefs,
    match devices prefs with
    | [] => Some [("CPU", false); ("OPTIX", false)]
    | found => Some found
    end;
|}.

Definition plane_material (c : rgb) (strength : float) : material :=
  mk_material true (Some [material_output; emission_node c strength]).

(** A template in the style of [generate_templates.py]: frame and core
    meshes, an emission-plane key and fill light, a true accent light,
    the six geometry variants and a compositor with one glare node. *)
Definition sample_world : @World sample_host :=
  @mk_world sample_host
    (list_to_map [
      ("Frame", mk_object (ObMesh "Frame") false false);
      ("Core", mk_object (ObMesh "Core") false false);
      ("Light_Key", mk_object (ObMesh "Light_Key") false false);
      ("Light_Fill", mk_object (ObMesh "Light_Fill") false false);
      ("Light_Accent", mk_object (ObLight "Light_Accent") false false);
      ("Geo_Capsule", mk_object (ObMesh "Geo_Capsule") true true);
      ("Geo_Obelisk", mk_object (ObMesh "Geo_Obelisk") true true);
      ("Geo_Cube", mk_object (ObMesh "Geo_Cube") false false);
      ("Geo_Sphere", mk_object (ObMesh "Geo_Sphere") true true);
      ("Geo_Prism", mk_object (ObMesh "Geo_Prism") true true);
      ("Geo_BarometerAssembly", mk_object (ObMesh "Geo_BarometerAssembly") true true)
    ])
    (list_to_map [("Light_Accent", mk_light 50 (1, 1, 1)%float)])
    (list_to_map [
      ("Frame", []); ("Core", []);
      ("Light_Key", [Some "MAT_Light_Key"]);
      ("Light_Fill", [Some "MAT_Light_Fill"]);
      ("Geo_Capsule", []); ("Geo_Obelisk", []); ("Geo_Cube", []);
      ("Geo_Sphere", []); ("Geo_Prism", []); ("Geo_BarometerAssembly", [])
    ])
    (list_to_map [
      ("MAT_Light_Key", plane_material (1, 0.98, 0.95)%float 12);
      ("MAT_Light_Fill", plane_material (0.9, 0.95, 1)%float 4)
    ])
    true true
    (Some [mk_comp_node "R_LAYERS" 0 0 0;
           mk_comp_node "GLARE" 0.85 7 0.12;
           mk_comp_node "COMPOSITE" 0 0 0]%float)
    0%float ∅ ∅ None 0.

(** The same template with a true light as key light. *)
Definition sample_world_lamp : @World sample_host :=
  set_lights (<["Light_Key" := mk_light 1000 (1, 1, 1)%float]>)
    (set_objects (<["Light_Key" := mk_object (ObLight "Light_Key") false false]>)
       sample_world).

Definition sample_recipe : gmap string json :=
  list_to_map [
    ("tokenId", JStr "17");
    ("houseKey", JStr "FROST");
    ("seed", JStr "0xA1");
    ("traits", JObj (list_to_map [
       ("CoreMaterial", JStr "FrozenPlasma");
       ("FrameType", JStr "WhiteGold");
       ("SurfaceAging", JStr "AncientRelic")]));
    ("output", JObj (list_to_map [("width", JInt 512); ("format", JStr "PNG")]));
    ("renderSettings", JObj (list_to_map [("samples", JInt 64)]))
  ].

(** A second host run: another token id, a generator left in some other
    state, and a machine with the Cycles add-on and two devices. *)
Definition sample_recipe_18 : gmap string json :=
  <["tokenId" := JStr "18"]> sample_recipe.

Definition sample_world_gpu : @World sample_host :=
  set_rng (H := sample_host) 424242
    (set_preferences (H := sample_host)
       (Some (mk_prefs "NONE" [("CPU", true); ("OPTIX", false)])) sample_world).

(** ** Vocabulary of the properties *)

(** [preserves R m]: whatever [m] does, and whether it returns or raises,
    the state it leaves is [R]-related to the one it found. *)
Definition preserves {S A} (R : S → S → Prop) (m : M S A) : Prop :=
  ∀ s, R s (m s).2.

(** [n'] is [n] except possibly for the value held by socket [k]. *)
Definition off_socket (k : string) (n n' : node) : Prop :=
  n_type n' = n_type n ∧ ∀ j, j ≠ k → inputs n' !! j = inputs n !! j.

(** [n'] is [n] unless [n] is of type [ty]. *)
Definition only_type (ty : string) (Rn : node → node → Prop) (n n' : node) : Prop :=
  Rn n n' ∧ (n_type n ≠ ty → n' = n).

(** [m'] has the [use_nodes] flag of [m] and, node by node, a tree
    [Rn]-related to that of [m]. *)
Definition material_related (Rn : node → node → Prop) (m m' : material) : Prop :=
  use_nodes m' = use_nodes m
  ∧ match node_tree m, node_tree m' with
    | Some ns, Some ns' => Forall2 Rn ns ns'
    | None, None => True
    | _, _ => False
    end.

(** An emission node with its strength multiplied; any other node as it
    is. *)
Definition scale_strength (multiplier : float) (n : node) : node :=
  if bool_decide (n_type n = "EMISSION") then
    match inputs n !! "Strength" with
    | Some (SFloat x) =>
        mk_node (n_type n) (<["Strength" := SFloat (x * multiplier)]> (inputs n))
    | _ => n
    end
  else n.

(** A Principled node that offers the three sockets the frame step
    writes, each of the right kind; other nodes qualify as they are. *)
Definition frame_ready (n : node) : bool :=
  if bool_decide (n_type n = "BSDF_PRINCIPLED") then
    match inputs n !! "Base Color", inputs n !! "Metallic", inputs n !! "Roughness" with
    | Some (SColor _ _ _ _), Some (SFloat _), Some (SFloat _) => true
    | _, _, _ => false
    end
  else true.

(** A Principled node after the three assignments of the frame step. *)
Definition paint_frame (params : frame_params) (n : node) : node :=
  if bool_decide (n_type n = "BSDF_PRINCIPLED") then
    mk_node (n_type n)
      (<["Roughness" := SFloat (frame_roughness params)]>
         (<["Metallic" := SFloat (frame_metallic params)]>
            (<["Base Color" := rgba (frame_color params)]> (inputs n))))
  else n.

(** A Principled node after surface aging. *)
Definition age_node (add : float) (n : node) : node :=
  if bool_decide (n_type n = "BSDF_PRINCIPLED") then
    match inputs n !! "Roughness" with
    | Some (SFloat x) =>
        mk_node (n_type n) (<["Roughness" := SFloat (py_min 1 (x + add))]> (inputs n))
    | _ => n
    end
  else n.

(** A Principled node that offers the six sockets the core step may
    write. *)
Definition core_ready (n : node) : bool :=
  if bool_decide (n_type n = "BSDF_PRINCIPLED") then
    match inputs n !! "Base Color", inputs n !! "Roughness",
          inputs n !! "Transmission Weight", inputs n !! "Metallic",
          inputs n !! "Emission Strength", inputs n !! "Emission Color" with
    | Some (SColor _ _ _ _), Some (SFloat _), Some (SFloat _), Some (SFloat _),
      Some (SFloat _), Some (SColor _ _ _ _) => true
    | _, _, _, _, _, _ => false
    end
  else true.

(** A Principled node after the assignments of the core step. *)
Definition paint_core (params : core_params) (n : node) : node :=
  if bool_decide (n_type n = "BSDF_PRINCIPLED") then
    let base :=
      <["Metallic" := SFloat (default 0%float (core_metallic params))]>
        (<["Transmission Weight" := SFloat (default 0%float (core_transmission params))]>
           (<["Roughness" := SFloat (core_roughness params)]>
              (<["Base Color" := rgba (core_color params)]> (inputs n)))) in
    mk_node (n_type n)
      match emits params with
      | Some e =>
          <["Emission Color" := rgba (core_color params)]>
            (<["Emission Strength" := SFloat e]> base)
      | None => base
      end
  else n.

(** What the bloom step resolves the trait to. *)
Definition resolved_bloom (traits : gmap string string) : bloom :=
  get bloom_settings (get traits "LensBloom" "Subtle")
    (mk_bloom None (Some 0.9%float) (Some 3) (Some 0)).

(** The two table lookups that open [configure_lights]. *)
Definition light_params (traits : gmap string string) (house_key : json)
  : result signature :=
  match resolve_light_signature traits house_key with
  | Ok sig => get_light_signature_params sig
  | Raise e => Raise e
  end.

Section Vocabulary.
Context `{Host}.

(** The light data block behind the object called [name], when that
    object is a true light. *)
Definition light_data (w : World) (name : string) : option string :=
  match objects w !! name with
  | Some o => match data o with ObLight d => Some d | _ => None end
  | None => None
  end.

(** [k] names a material in a slot of the mesh of the key light, when the
    key light is an emission plane. *)
Definition key_plane_slot (w : World) (k : string) : Prop :=
  ∃ o d slots, objects w !! "Light_Key" = Some o ∧ data o = ObMesh d
               ∧ meshes w !! d = Some slots ∧ Some k ∈ slots.

(** [w'] differs from [w] in materials only; each material keeps its name
    and is [Rn]-related node by node, and outside [touched] it is the
    same. *)
Definition materials_related (Rn : node → node → Prop) (touched : string → Prop)
    (w w' : World) : Prop :=
  set_materials (λ _, materials w) w' = w
  ∧ ∀ k, match materials w !! k, materials w' !! k with
         | Some m, Some m' => material_related Rn m m' ∧ (¬ touched k → m' = m)
         | None, None => True
         | _, _ => False
         end.

(** [w'] differs from [w] in light colours only, and a changed colour is
    [c] on a data block of the accent or fill light. *)
Definition recolored (c : rgb) (w w' : World) : Prop :=
  set_lights (λ _, lights w) w' = w
  ∧ ∀ d, match lights w !! d, lights w' !! d with
         | Some l, Some l' =>
             energy l' = energy l
             ∧ (color l' = color l
                ∨ ((light_data w "Light_Accent" = Some d
                    ∨ light_data w "Light_Fill" = Some d) ∧ color l' = c))
         | None, None => True
         | _, _ => False
         end.

(** The variants left visible in a world. *)
Definition visible_geometry (w : World) : list string :=
  List.filter
    (λ name, match objects w !! name with
             | Some o => negb (hide_render o) && negb (hide_viewport o)
             | None => false
             end)
    geometry_objects.

(** The world [w] with another generator state and other preferences. *)
Definition reset (r : RngState) (p : option cycles_prefs) (w : World) : World :=
  set_rng r (set_preferences p w).

(** Two worlds that hold the same scene: they agree on everything but the
    generator state and the add-on preferences. *)
Definition same_scene (w1 w2 : World) : Prop :=
  reset (rng w2) (preferences w2) w1 = w2.

(** [m] neither reads nor writes the generator state and the
    preferences: it commutes with replacing them. *)
Definition scene_only {A} (m : M World A) : Prop :=
  ∀ r p w, m (reset r p w) = let '(res, w') := m w in (res, reset r p w').

(** [m] cannot tell two worlds with the same scene apart: same result,
    and again the same scene. *)
Definition oblivious {A} (m : M World A) : Prop :=
  ∀ w1 w2, same_scene w1 w2 →
    (m w1).1 = (m w2).1 ∧ same_scene (m w1).2 (m w2).2.
End Vocabulary.

(** ** Further vocabulary and sample scenes *)

(** A string made of hexadecimal digits only, and the number it spells
    after the digits already read as [acc]. *)
Fixpoint hex_digits (s : string) : bool :=
  match s with
  | EmptyString => true
  | String c rest =>
      match hex_digit c with
      | Some _ => hex_digits rest
      | None => false
      end
  end.

Fixpoint hex_value (s : string) (acc : Z) : Z :=
  match s with
  | EmptyString => acc
  | String c rest => hex_value rest (16 * acc + default 0 (hex_digit c))
  end.

(** A template that also holds a variant outside the six names the
    geometry step hides. *)
Definition sample_world_torus : @World sample_host :=
  set_objects (H := sample_host)
    (<["Geo_Torus" := mk_object (ObMesh "Geo_Torus") true true]>) sample_world.

(** The slots of a mesh after a material step: slot 0 takes the
    material, an empty list gets one slot. *)
Definition first_slot (mat_name : string) (slots : list (option string))
  : list (option string) :=
  match slots with
  | [] => [Some mat_name]
  | _ :: rest => Some mat_name :: rest
  end.

(** A template whose frame and core objects share one mesh. *)
Definition sample_world_shared : @World sample_host :=
  set_objects (H := sample_host)
    (<["Core" := mk_object (ObMesh "Frame") false false]>) sample_world.

(** A template whose frame object is an empty. *)
Definition sample_world_empty_frame : @World sample_host :=
  set_objects (H := sample_host)
    (<["Frame" := mk_object ObEmpty false false]>) sample_world.

(** A template whose ClearCrystal core material already glows. *)
Definition glowing_bsdf : node :=
  mk_node "BSDF_PRINCIPLED" (<["Emission Strength" := SFloat 5]> (inputs principled_bsdf)).

Definition sample_world_glow : @World sample_host :=
  set_materials (H := sample_host)
    (<["MAT_Core_ClearCrystal" := mk_material true (Some [glowing_bsdf; material_output])]>)
    sample_world.

Section VocabularyOfWrites.
Context `{Host}.

(** [w'] differs from [w] in materials and mesh slots only. *)
Definition materials_and_meshes (w w' : World) : Prop :=
  set_materials (λ _, materials w) (set_meshes (λ _, meshes w) w') = w.
End VocabularyOfWrites.

Section VocabularyOfPhases.
Context `{Host}.

(** [w'] holds the render settings, the preferences and the generator of
    [w]: whatever differs lies in the scene proper -- objects, data
    blocks, compositor tree, exposure. *)
Definition scene_part (w w' : World) : Prop :=
  has_world w' = has_world w ∧ scene_use_nodes w' = scene_use_nodes w
  ∧ render w' = render w ∧ cycles w' = cycles w
  ∧ preferences w' = preferences w ∧ rng w' = rng w.

(** [w'] differs from [w] in the render settings, the Cycles settings and
    the add-on preferences only. *)
Definition settings_part (w w' : World) : Prop :=
  set_render (λ _, render w)
    (set_cycles (λ _, cycles w) (set_preferences (preferences w) w')) = w.
End VocabularyOfPhases.

(** The trait keys the scene steps read. *)
Definition trait_keys : list string :=
  ["DioramaGeometry"; "FrameType"; "SurfaceAging"; "CoreMaterial"; "LightSignature";
   "LensBloom"; "PaletteTemperature"].

(** An emission node with its colour replaced; any other node as it
    is. *)
Definition recolor_emission (c : rgb) (n : node) : node :=
  if bool_decide (n_type n = "EMISSION") then
    match inputs n !! "Color" with
    | Some (SColor _ _ _ _) =>
        mk_node (n_type n) (<["Color" := rgba c]> (inputs n))
    | _ => n
    end
  else n.

(** A machine with the Cycles add-on whose device collection has not
    been filled yet. *)
Definition sample_world_no_devices : @World sample_host :=
  set_preferences (H := sample_host) (Some (mk_prefs "NONE" [])) sample_world.

(** A template whose key plane carries its material in two slots. *)
Definition sample_world_two_slots : @World sample_host :=
  set_meshes (H := sample_host)
    (<["Light_Key" := [Some "MAT_Light_Key"; None; Some "MAT_Light_Key"]]>)
    sample_world.

(** * Properties *)

(** ** Dictionary lookups with a fallback entry *)

Lemma get_or_entry_ok {V} (d : gmap string V) (k fallback : string) (v : V) :
  d !! fallback = Some v → get_or_entry d k fallback = Ok (get d k v).
Proof. intros Hv. unfold get_or_entry, getitem. by rewrite Hv. Qed.

Lemma get_or_entry_unknown {V} (d : gmap string V) (k fallback : string) (v : V) :
  d !! fallback = Some v → d !! k = None → get_or_entry d k fallback = Ok v.
Proof.
  intros Hv Hk. rewrite (get_or_entry_ok _ _ _ v Hv). unfold get. by rewrite Hk.
Qed.

Lemma get_or_entry_known {V} (d : gmap string V) (k fallback : string) (v x : V) :
  d !! fallback = Some v → d !! k = Some x → get_or_entry d k fallback = Ok x.
Proof.
  intros Hv Hk. rewrite (get_or_entry_ok _ _ _ v Hv). unfold get. by rewrite Hk.
Qed.

Lemma get_or_entry_total {V} (d : gmap string V) (k fallback : string) :
  is_Some (d !! fallback) → ∃ x, get_or_entry d k fallback = Ok x.
Proof. intros [v Hv]. eexists. by apply get_or_entry_ok. Qed.

Lemma brushed_steel_entry :
  frame_materials !! "BrushedSteel" = Some (mk_frame (0.6, 0.6, 0.62) 1 0.35)%float.
Proof. reflexivity. Qed.

(** C5. An unrecognised frame type resolves to the BrushedSteel bundle:
    for every [frame_type] that is not a key of the frame table,
    [get_material_params] returns what it returns for ["BrushedSteel"];
    the lookup returns a bundle for every argument whatsoever; hence a
    traits mapping with an unknown FrameType resolves like one that says
    BrushedSteel. *)
Theorem get_material_params_unknown (frame_type : string) :
  frame_materials !! frame_type = None →
  get_material_params frame_type = get_material_params "BrushedSteel"
  ∧ get_material_params frame_type = Ok (mk_frame (0.6, 0.6, 0.62) 1 0.35)%float
  ∧ (∀ any : string, ∃ params, get_material_params any = Ok params)
  ∧ (∀ traits traits' : gmap string string,
       traits !! "FrameType" = Some frame_type →
       traits' !! "FrameType" = Some "BrushedSteel" →
       get_material_params (get traits "FrameType" "BrushedSteel")
       = get_material_params (get traits' "FrameType" "BrushedSteel")).
Proof.
  intros Hnone.
  assert (Hunk : get_material_params frame_type
                 = Ok (mk_frame (0.6, 0.6, 0.62) 1 0.35)%float).
  { apply get_or_entry_unknown; [apply brushed_steel_entry | done]. }
  assert (Hbs : get_material_params "BrushedSteel"
                = Ok (mk_frame (0.6, 0.6, 0.62) 1 0.35)%float).
  { eapply get_or_entry_known; apply brushed_steel_entry. }
  split_and!.
  - by rewrite Hunk, Hbs.
  - done.
  - intros any. apply get_or_entry_total. rewrite brushed_steel_entry. by eexists.
  - intros traits traits' Ht Ht'. unfold get. rewrite Ht, Ht'. simpl.
    by rewrite Hunk, Hbs.
Qed.

Lemma get_material_params_unknown_witness :
  frame_materials !! "Nonexistent" = None
  ∧ get_material_params "Nonexistent" = get_material_params "BrushedSteel".
Proof.
  split; [reflexivity |].
  apply (get_material_params_unknown "Nonexistent"). reflexivity.
Defined.

(** ** Recipe validation *)

Lemma missing_field_inj (f g : string) : missing_field f = missing_field g → f = g.
Proof. unfold missing_field. simpl. by intros [=]. Qed.

Lemma check_fields_ok (fields : list string) (recipe : gmap string json) :
  check_fields fields recipe = Ok tt ↔ ∀ f, f ∈ fields → is_Some (recipe !! f).
Proof.
  induction fields as [|f fields IH]; simpl.
  - split; [intros _ f Hf; by apply elem_of_nil in Hf | done].
  - destruct (recipe !! f) eqn:Hf.
    + rewrite IH. split.
      * intros Hall g [->|Hg]%elem_of_cons; [by rewrite Hf | by apply Hall].
      * intros Hall g Hg. apply Hall. by right.
    + split; [done |]. intros Hall. destruct (Hall f) as [? ?]; [by left | congruence].
Qed.

Lemma check_fields_raise (fields : list string) (recipe : gmap string json) (e : exn) :
  check_fields fields recipe = Raise e →
  ∃ f, e = missing_field f ∧ f ∈ fields ∧ recipe !! f = None.
Proof.
  induction fields as [|f fields IH]; simpl; [done |].
  destruct (recipe !! f) eqn:Hf.
  - intros (g & ? & ? & ?)%IH. exists g. split_and!; [done | by right | done].
  - intros [= <-]. exists f. split_and!; [done | by left | done].
Qed.

Lemma check_fields_cases (fields : list string) (recipe : gmap string json) :
  check_fields fields recipe = Ok tt
  ∨ ∃ f, check_fields fields recipe = Raise (missing_field f)
         ∧ f ∈ fields ∧ recipe !! f = None.
Proof.
  destruct (check_fields fields recipe) as [[]|e] eqn:Hc; [by left | right].
  destruct (check_fields_raise _ _ _ Hc) as (f & -> & ? & ?). by exists f.
Qed.

Section Validation.
Context `{Host}.

(** C7. For a recipe file holding a JSON object: [load_recipe] raises
    the missing-field error exactly when one of the six required fields
    is absent, the field it names is required and absent, and otherwise
    it returns the recipe; and when loading raises, [main] stops with
    that exception and the world it was started in, so nothing of the
    scene has been written. *)
Theorem load_recipe_validates
    (fs : gmap string file) (recipe_path : string) (recipe : gmap string json) :
  fs !! recipe_path = Some (Document recipe) →
  ((∃ f, load_recipe fs recipe_path = Raise (missing_field f))
     ↔ (∃ f, f ∈ required_fields ∧ recipe !! f = None))
  ∧ (∀ f, load_recipe fs recipe_path = Raise (missing_field f) →
          f ∈ required_fields ∧ recipe !! f = None)
  ∧ ((∀ f, f ∈ required_fields → is_Some (recipe !! f)) →
     load_recipe fs recipe_path = Ok recipe)
  ∧ (∀ (argv rest : list string) (output_path : string) (e : exn) (w : World),
       after_dashes argv = Some (recipe_path :: output_path :: rest) →
       load_recipe fs recipe_path = Raise e →
       main argv fs w = (Raise e, w)).
Proof.
  intros Hfile. unfold load_recipe. rewrite Hfile.
  destruct (check_fields_cases required_fields recipe)
    as [Hok | (f & Hf & Hin & Habs)].
  - rewrite Hok. pose proof (proj1 (check_fields_ok _ _) Hok) as Hall.
    split_and!.
    + split; [by intros [? ?] |]. intros (f & Hin & Habs).
      destruct (Hall f Hin). congruence.
    + done.
    + done.
    + intros argv rest output_path e w Hargv Hload. unfold main.
      rewrite Hargv. unfold load_recipe. rewrite Hfile, Hok. done.
  - rewrite Hf. split_and!.
    + split; [intros _; by exists f | intros _; by exists f].
    + intros g Hg. assert (missing_field f = missing_field g) as Hfg by congruence.
      apply missing_field_inj in Hfg. by subst.
    + intros Hall. destruct (Hall f Hin). congruence.
    + intros argv rest output_path e w Hargv [= <-]. unfold main.
      rewrite Hargv. unfold load_recipe. rewrite Hfile, Hf. done.
Qed.
End Validation.

Lemma load_recipe_validates_witness :
  let fs : gmap string file :=
    {[ "recipe.json" := Document (delete "seed" sample_recipe) ]} in
  fs !! "recipe.json" = Some (Document (delete "seed" sample_recipe))
  ∧ load_recipe fs "recipe.json" = Raise (missing_field "seed")
  ∧ main (H := sample_host) ["blender"; "--"; "recipe.json"; "out.png"] fs sample_world
    = (Raise (missing_field "seed"), sample_world).
Proof.
  intros fs.
  pose proof (load_recipe_validates (H := sample_host) fs "recipe.json"
                (delete "seed" sample_recipe) eq_refl) as (_ & _ & _ & Hmain).
  split_and!; [reflexivity | reflexivity |].
  apply (Hmain _ [] "out.png"); reflexivity.
Defined.

(** ** Seeding *)

(** [int(s, 16)] on sample literals: prefix, sign, blanks and
    underscores as Python reads them. *)
Example parse_hex_samples :
  parse_hex <$> ["0x1"; "0x100000001"; " 0x1f "; "0x_1"; "0x__1"; "_1"; "1_";
                 "-0x1"; "0X1F"; "0x"; ""; "0x 1"; "1_2_3"; "0b1"; "ff"; "g"]
  = [Some 1; Some 4294967297; Some 31; Some 1; None; None; None;
     Some (-1); Some 31; None; None; None; Some 291; Some 177; Some 255; None].
Proof. reflexivity. Qed.


Section Seeding.
Context `{Host}.

Lemma seed_random_run (seed_hex : string) (n : Z) (w : World) :
  py_int16 seed_hex = Ok n →
  seed_random seed_hex w = (Ok n, set_rng (random_seed (n mod 2 ^ 32)) w).
Proof.
  intros Hn. unfold seed_random, bind, lift, modify, ret.
  destruct (String.prefix "0x" seed_hex); by rewrite Hn.
Qed.

(** C4. Two seed strings whose parsed values are congruent modulo 2^32
    leave the same generator state behind, namely the one seeded with
    the common residue, whatever the states before; whatever is later
    drawn from the stream is a function of that state and so agrees
    too. *)
Theorem seed_random_reduces_mod_2_32
    (s1 s2 : string) (n1 n2 : Z) (w1 w2 : World) :
  py_int16 s1 = Ok n1 →
  py_int16 s2 = Ok n2 →
  n1 mod 2 ^ 32 = n2 mod 2 ^ 32 →
  rng (seed_random s1 w1).2 = rng (seed_random s2 w2).2
  ∧ rng (seed_random s1 w1).2 = random_seed (n1 mod 2 ^ 32)
  ∧ ∀ (A : Type) (placement : RngState → A),
      placement (rng (seed_random s1 w1).2) = placement (rng (seed_random s2 w2).2).
Proof.
  intros H1 H2 Hmod.
  rewrite (seed_random_run _ _ _ H1), (seed_random_run _ _ _ H2). simpl.
  rewrite Hmod. done.
Qed.
End Seeding.

Lemma seed_random_reduces_mod_2_32_witness :
  py_int16 "0x1" = Ok 1
  ∧ py_int16 "0x100000001" = Ok (2 ^ 32 + 1)
  ∧ rng (seed_random (H := sample_host) "0x1" sample_world).2
    = rng (seed_random (H := sample_host) "0x100000001" sample_world_lamp).2.
Proof.
  split_and!; [reflexivity | reflexivity |].
  exact (proj1 (seed_random_reduces_mod_2_32 (H := sample_host)
                  "0x1" "0x100000001" 1 (2 ^ 32 + 1) sample_world sample_world_lamp
                  eq_refl eq_refl eq_refl)).
Defined.

(** ** Atmosphere and bloom *)

Lemma clear_entry : atmosphere_settings !! "Clear" = Some (mk_atmosphere 0).
Proof. reflexivity. Qed.

Lemma subtle_entry :
  bloom_settings !! "Subtle" = Some (mk_bloom None (Some 0.9%float) (Some 3) (Some 0)).
Proof. reflexivity. Qed.

(** The entries of the bloom table, read back from a successful lookup. *)
Lemma bloom_settings_inv (k : string) (b : bloom) :
  bloom_settings !! k = Some b →
  (k = "None" ∧ b = mk_bloom (Some false) None None None)
  ∨ (k ≠ "None" ∧ bloom_enabled b = None ∧ bloom_mix b = Some 0
     ∧ is_Some (bloom_threshold b) ∧ is_Some (bloom_size b)).
Proof.
  intros Hk. apply elem_of_list_to_map_2 in Hk.
  repeat (apply elem_of_cons in Hk as [[= -> ->] | Hk];
          [first [by left | right; split_and!; by eauto] |]).
  by apply elem_of_nil in Hk.
Qed.

Lemma for_each_ok {A} (g : A → A) (body : M A unit) (xs : list A) :
  (∀ x, x ∈ xs → body x = (Ok tt, g x)) → for_each body xs = (Ok tt, g <$> xs).
Proof.
  induction xs as [|x xs IH]; intros Hbody; simpl; [done |].
  rewrite Hbody by (by left). rewrite IH; [done |].
  intros y Hy. apply Hbody. by right.
Qed.

Lemma for_each_pure {A} (g : A → A) (body : M A unit) (xs : list A) :
  (∀ x, body x = (Ok tt, g x)) → for_each body xs = (Ok tt, g <$> xs).
Proof. intros Hbody. apply for_each_ok. intros x _. apply Hbody. Qed.

Section Postprocessing.
Context `{Host}.

(** C9. [configure_atmosphere] returns normally and hands back the very
    world it was given, for every traits mapping: the density it looks
    up is dropped. *)
Theorem configure_atmosphere_changes_nothing
    (traits : gmap string string) (w : World) :
  configure_atmosphere traits w = (Ok tt, w).
Proof.
  unfold configure_atmosphere, bind, gets, lift, ret.
  destruct (has_world w); simpl; [| done].
  by rewrite (get_or_entry_ok _ _ _ _ clear_entry).
Qed.

(** C10. If the LensBloom trait resolves to anything but ["None"]
    (an absent trait reads as ["Subtle"], an unknown value takes the
    Subtle entry) and the compositor is in use, the step returns and
    rewrites exactly the glare nodes: each gets the threshold and size of
    the resolved entry and mix 0, every other node is kept -- so the
    levels differ in threshold and size only.  If the trait is ["None"],
    or the compositor is not in use, the world is handed back
    untouched. *)
Theorem configure_lens_bloom_zeroes_mix (traits : gmap string string) (w : World) :
  (get traits "LensBloom" "Subtle" ≠ "None" →
   ∀ nodes : list comp_node,
     scene_use_nodes w = true →
     scene_node_tree w = Some nodes →
     ∃ threshold size,
       bloom_threshold (resolved_bloom traits) = Some threshold
       ∧ bloom_size (resolved_bloom traits) = Some size
       ∧ configure_lens_bloom traits w
         = (Ok tt,
            set_scene_node_tree
              (Some ((λ n, if bool_decide (c_type n = "GLARE")
                           then mk_comp_node "GLARE" threshold size 0
                           else n) <$> nodes)) w))
  ∧ (bloom_settings !! get traits "LensBloom" "Subtle" = None →
     resolved_bloom traits = mk_bloom None (Some 0.9%float) (Some 3) (Some 0))
  ∧ (get traits "LensBloom" "Subtle" = "None" →
     configure_lens_bloom traits w = (Ok tt, w))
  ∧ (scene_use_nodes w = false → configure_lens_bloom traits w = (Ok tt, w)).
Proof.
  unfold configure_lens_bloom, resolved_bloom.
  rewrite (get_or_entry_ok _ _ _ _ subtle_entry).
  set (bloom_type := get traits "LensBloom" "Subtle").
  unfold bind, lift, gets, ret. simpl. split_and!.
  - intros Hne nodes Huse Htree.
    set (b := get bloom_settings bloom_type _) in *.
    assert (bloom_enabled b = None ∧ bloom_mix b = Some 0
            ∧ is_Some (bloom_threshold b) ∧ is_Some (bloom_size b))
      as (Hen & Hmix & [th Hth] & [sz Hsz]).
    { unfold b, get. destruct (bloom_settings !! bloom_type) as [b0|] eqn:Hb; simpl.
      - by destruct (bloom_settings_inv _ _ Hb) as [[? _] | (_ & ? & ? & ? & ?)].
      - by eauto. }
    exists th, sz. rewrite Hen. simpl. rewrite Huse. simpl.
    split_and!; [done | done |].
    unfold in_scene_nodes. rewrite Htree.
    rewrite (for_each_pure
      (λ n, if bool_decide (c_type n = "GLARE") then set_glare b n else n)).
    + f_equal. f_equal. f_equal. apply list_fmap_ext. intros _ n _.
      case_bool_decide as Hty; [| done].
      unfold set_glare. rewrite Hth, Hsz, Hmix, Hty. done.
    + intros n. simpl. by destruct (bool_decide _).
  - intros Hnone. unfold get at 1. by rewrite Hnone.
  - intros Hnone. rewrite Hnone. done.
  - intros Huse. destruct (negb _); [done |]. by rewrite Huse.
Qed.
End Postprocessing.

Lemma configure_lens_bloom_zeroes_mix_witness :
  let traits : gmap string string := {[ "LensBloom" := "Cinematic" ]} in
  get traits "LensBloom" "Subtle" ≠ "None"
  ∧ scene_use_nodes sample_world = true
  ∧ ∃ threshold size,
      configure_lens_bloom (H := sample_host) traits sample_world
      = (Ok tt,
         set_scene_node_tree
           (Some [mk_comp_node "R_LAYERS" 0 0 0;
                  mk_comp_node "GLARE" threshold size 0;
                  mk_comp_node "COMPOSITE" 0 0 0]) sample_world).
Proof.
  intros traits.
  assert (Hne : get traits "LensBloom" "Subtle" ≠ "None") by (by vm_compute).
  split_and!; [exact Hne | reflexivity |].
  destruct (proj1 (configure_lens_bloom_zeroes_mix (H := sample_host) traits sample_world)
              Hne _ eq_refl eq_refl) as (threshold & size & _ & _ & Hrun).
  exists threshold, size. exact Hrun.
Defined.

(** ** Geometry selection *)

Lemma insert_as_alter {V} (f : V → V) (k : string) (v : V) (m : gmap string V) :
  m !! k = Some v → <[k := f v]> m = alter f k m.
Proof.
  intros Hk. apply map_eq. intros j.
  rewrite lookup_insert, lookup_alter. case_decide; [subst; by rewrite Hk | done].
Qed.

Lemma alter_absent {V} (f : V → V) (k : string) (m : gmap string V) :
  m !! k = None → alter f k m = m.
Proof.
  intros Hk. apply map_eq. intros j.
  rewrite lookup_alter. case_decide; [subst; by rewrite Hk | done].
Qed.

Lemma lookup_foldl_alter {V} (f : V → V) (names : list string) (m : gmap string V)
    (k : string) :
  (∀ v, f (f v) = f v) →
  foldl (λ m n, alter f n m) m names !! k
  = if decide (k ∈ names) then f <$> m !! k else m !! k.
Proof.
  intros Hidem. revert m. induction names as [|n names IH]; intros m; cbn [foldl].
  - case_decide as Hin; [by apply elem_of_nil in Hin | done].
  - rewrite IH, lookup_alter.
    destruct (decide (n = k)) as [->|Hne].
    + rewrite (decide_True (P := k ∈ k :: names)); [| constructor].
      case_decide; [| done]. destruct (m !! k); simpl; [by rewrite Hidem | done].
    + destruct (decide (k ∈ names)) as [Hin|Hnin].
      * rewrite (decide_True (P := k ∈ n :: names)); [done | by constructor].
      * rewrite (decide_False (P := k ∈ n :: names)); [done |].
        intros [->|?]%elem_of_cons; done.
Qed.

Section Geometry.
Context `{Host}.

Lemma set_objects_id (w : World) : set_objects (λ m, m) w = w.
Proof. by destruct w. Qed.

Lemma update_object_run (name : string) (f : object → object) (w : World) :
  update_object name f w = (Ok tt, set_objects (alter f name) w).
Proof.
  unfold update_object, bind, gets, modify, ret.
  destruct (objects w !! name) as [o|] eqn:Ho.
  - unfold set_objects. by rewrite (insert_as_alter f _ _ _ Ho).
  - unfold set_objects. rewrite (alter_absent f _ _ Ho). by destruct w.
Qed.

Lemma for_in_update_object (names : list string) (f : object → object) (w : World) :
  for_in names (λ n, update_object n f) w
  = (Ok tt, set_objects (λ m, foldl (λ m n, alter f n m) m names) w).
Proof.
  revert w. induction names as [|n names IH]; intros w; simpl.
  - unfold ret. by rewrite set_objects_id.
  - unfold bind. rewrite update_object_run, IH. done.
Qed.

(** The objects after [configure_geometry], name by name. *)
Lemma configure_geometry_objects (traits : gmap string string) (w : World)
    (name : string) :
  let target := "Geo_" +:+ get traits "DioramaGeometry" "Sphere" in
  (configure_geometry traits w).1 = Ok tt
  ∧ objects (configure_geometry traits w).2 !! name
    = if decide (name = target) then show <$> objects w !! name
      else if decide (name ∈ geometry_objects) then hide <$> objects w !! name
      else objects w !! name.
Proof.
  intros target. unfold configure_geometry, bind.
  rewrite for_in_update_object, update_object_run. cbn [fst snd]. split; [done |].
  unfold set_objects. cbn [objects]. fold target.
  rewrite lookup_alter, !lookup_foldl_alter by done.
  destruct (decide (target = name)) as [->|Hne].
  - rewrite (decide_True (P := name = name)) by done.
    case_decide; [| done]. by destruct (objects w !! name).
  - by rewrite (decide_False (P := name = target)) by done.
Qed.

(** C2, where the code departs from it.  When the DioramaGeometry trait
    holds a value for which the scene has no object [Geo_<value>], the
    step succeeds and every one of the six variants that exists ends up
    hidden, [Geo_Sphere] included: no variant is visible. *)
Theorem configure_geometry_unknown_hides_all
    (traits : gmap string string) (value : string) (w : World) :
  traits !! "DioramaGeometry" = Some value →
  objects w !! ("Geo_" +:+ value) = None →
  (configure_geometry traits w).1 = Ok tt
  ∧ ∀ name o, name ∈ geometry_objects →
      objects (configure_geometry traits w).2 !! name = Some o →
      hide_viewport o = true ∧ hide_render o = true.
Proof.
  intros Hvalue Habsent. split; [apply (configure_geometry_objects traits w "") |].
  intros name o Hin.
  destruct (configure_geometry_objects traits w name) as [_ ->].
  unfold get. rewrite Hvalue. simpl.
  case_decide as Htarget.
  - rewrite Htarget, Habsent. done.
  - rewrite decide_True by done.
    destruct (objects w !! name); simpl; [| done]. by intros [= <-].
Qed.

(** The part of C2 the code does satisfy: when the object of the
    selected variant exists -- the trait names it, or is absent and
    [Geo_Sphere] exists -- that object is shown and each other variant
    is hidden. *)
Lemma configure_geometry_selected
    (traits : gmap string string) (w : World) (target : object) :
  objects w !! ("Geo_" +:+ get traits "DioramaGeometry" "Sphere") = Some target →
  objects (configure_geometry traits w).2
    !! ("Geo_" +:+ get traits "DioramaGeometry" "Sphere") = Some (show target)
  ∧ ∀ name o, name ∈ geometry_objects →
      name ≠ "Geo_" +:+ get traits "DioramaGeometry" "Sphere" →
      objects (configure_geometry traits w).2 !! name = Some o →
      hide_viewport o = true ∧ hide_render o = true.
Proof.
  intros Htarget. split.
  - destruct (configure_geometry_objects traits w
                ("Geo_" +:+ get traits "DioramaGeometry" "Sphere")) as [_ ->].
    rewrite decide_True by done. by rewrite Htarget.
  - intros name o Hin Hne.
    destruct (configure_geometry_objects traits w name) as [_ ->].
    rewrite decide_False by done. rewrite decide_True by done.
    destruct (objects w !! name); simpl; [| done]. by intros [= <-].
Qed.
End Geometry.

Lemma configure_geometry_unknown_hides_all_witness :
  let traits : gmap string string := {[ "DioramaGeometry" := "Pyramid" ]} in
  traits !! "DioramaGeometry" = Some "Pyramid"
  ∧ objects sample_world !! "Geo_Pyramid" = None
  ∧ (∀ o, objects (configure_geometry (H := sample_host) traits sample_world).2
            !! "Geo_Sphere" = Some o → hide_render o = true)
  ∧ visible_geometry (configure_geometry (H := sample_host) traits sample_world).2 = []
  ∧ visible_geometry (configure_geometry (H := sample_host) ∅ sample_world).2
    = ["Geo_Sphere"].
Proof.
  intros traits.
  split_and!; [reflexivity | reflexivity | | reflexivity | reflexivity].
  intros o Ho.
  refine (proj2 (proj2 (configure_geometry_unknown_hides_all (H := sample_host)
                          traits "Pyramid" sample_world eq_refl eq_refl)
                   "Geo_Sphere" o _ Ho)).
  unfold geometry_objects. set_solver.
Defined.

(** ** Frame reasoning for the monad *)

Section Frames.
Context {S : Type} (R : S → S → Prop).
Hypothesis R_refl : ∀ s, R s s.
Hypothesis R_trans : ∀ s1 s2 s3, R s1 s2 → R s2 s3 → R s1 s3.

Lemma preserves_pure {A} (m : M S A) : (∀ s, (m s).2 = s) → preserves R m.
Proof. intros Hm s. by rewrite Hm. Qed.

Lemma preserves_ret {A} (a : A) : preserves R (ret a).
Proof. by apply preserves_pure. Qed.

Lemma preserves_raise {A} (e : exn) : preserves R (raise (A := A) e).
Proof. by apply preserves_pure. Qed.

Lemma preserves_lift {A} (r : result A) : preserves R (lift r).
Proof. by apply preserves_pure. Qed.

Lemma preserves_gets {A} (f : S → A) : preserves R (gets f).
Proof. by apply preserves_pure. Qed.

Lemma preserves_bind {A B} (m : M S A) (k : A → M S B) :
  preserves R m → (∀ a, preserves R (k a)) → preserves R (bind m k).
Proof.
  intros Hm Hk s. unfold bind. specialize (Hm s).
  destruct (m s) as [[a|e] s']; simpl in *; [| done].
  eapply R_trans; [exact Hm | apply Hk].
Qed.

Lemma preserves_for_in {A} (xs : list A) (body : A → M S unit) :
  (∀ x, x ∈ xs → preserves R (body x)) → preserves R (for_in xs body).
Proof.
  induction xs as [|x xs IH]; intros Hbody; simpl.
  - apply preserves_ret.
  - apply preserves_bind; [apply Hbody; by left |].
    intros _. apply IH. intros y Hy. apply Hbody. by right.
Qed.

Lemma for_each_related (body : M S unit) (xs : list S) :
  preserves R body → Forall2 R xs (for_each body xs).2.
Proof.
  intros Hbody. induction xs as [|x xs IH]; simpl; [constructor |].
  specialize (Hbody x). destruct (body x) as [[[]|e] x']; simpl in *.
  - destruct (for_each body xs) as [r xs']. simpl in *. by constructor.
  - constructor; [done |]. by apply Forall2_same_length_lookup_2;
      [| intros i a b Ha Hb; assert (a = b) as -> by congruence].
Qed.
End Frames.

(** ** Frames on nodes, materials and the material store *)

Lemma off_socket_refl (k : string) (n : node) : off_socket k n n.
Proof. by split. Qed.

Lemma off_socket_trans (k : string) (n1 n2 n3 : node) :
  off_socket k n1 n2 → off_socket k n2 n3 → off_socket k n1 n3.
Proof.
  intros [Ht1 Hi1] [Ht2 Hi2]. split; [congruence |].
  intros j Hj. rewrite Hi2, Hi1; done.
Qed.

Lemma only_type_refl (ty : string) (Rn : node → node → Prop) (n : node) :
  (∀ n, Rn n n) → only_type ty Rn n n.
Proof. by split. Qed.

Lemma only_type_trans (ty : string) (Rn : node → node → Prop) (n1 n2 n3 : node) :
  (∀ a b, Rn a b → n_type b = n_type a) →
  (∀ a b c, Rn a b → Rn b c → Rn a c) →
  only_type ty Rn n1 n2 → only_type ty Rn n2 n3 → only_type ty Rn n1 n3.
Proof.
  intros Hty Htrans [H12 Hk12] [H23 Hk23]. split; [by eapply Htrans |].
  intros Hne. rewrite Hk23; [by apply Hk12 |]. by rewrite (Hty _ _ H12).
Qed.

Lemma preserves_set_input (k : string) (v : sockval) :
  preserves (off_socket k) (set_input k v).
Proof.
  intros n. unfold set_input.
  destruct (inputs n !! k) as [old|]; [| apply off_socket_refl].
  destruct (same_kind old v); [| apply off_socket_refl].
  split; [done |]. intros j Hj. simpl. by rewrite lookup_insert_ne.
Qed.

Lemma preserves_when_type (ty : string) (Rn : node → node → Prop) (body : M node unit) :
  (∀ n, Rn n n) → preserves Rn body → preserves (only_type ty Rn) (when_type ty body).
Proof.
  intros Hrefl Hbody n. unfold when_type. case_bool_decide as Hty.
  - split; [apply Hbody | done].
  - by apply only_type_refl.
Qed.

Lemma material_related_refl (Rn : node → node → Prop) (m : material) :
  (∀ n, Rn n n) → material_related Rn m m.
Proof.
  intros Hrefl. split; [done |]. destruct (node_tree m); [| done].
  by apply Forall_Forall2_diag, Forall_forall.
Qed.

Lemma material_related_trans (Rn : node → node → Prop) (m1 m2 m3 : material) :
  (∀ a b c, Rn a b → Rn b c → Rn a c) →
  material_related Rn m1 m2 → material_related Rn m2 m3 → material_related Rn m1 m3.
Proof.
  intros Htrans [Hu12 Ht12] [Hu23 Ht23]. split; [congruence |].
  destruct (node_tree m1), (node_tree m2), (node_tree m3); try done.
  eapply Forall2_trans; [| exact Ht12 | exact Ht23]. eauto.
Qed.

Lemma preserves_in_node_tree {A} (Rn : node → node → Prop) (m : M (list node) A) :
  (∀ n, Rn n n) → preserves (Forall2 Rn) m →
  preserves (material_related Rn) (in_node_tree m).
Proof.
  intros Hrefl Hm mat. unfold in_node_tree.
  destruct (node_tree mat) as [ns|] eqn:Hns.
  - specialize (Hm ns). destruct (m ns) as [r ns']. simpl in *.
    split; [done |]. simpl. by rewrite Hns.
  - by apply material_related_refl.
Qed.

(** The per-material body of the emission-plane helpers. *)
Lemma preserves_emission_body (Rn : node → node → Prop) (body : M node unit) :
  (∀ n, Rn n n) → preserves Rn body →
  preserves (material_related (only_type "EMISSION" Rn))
    (let* nodes_on := gets use_nodes in
     if nodes_on : bool then in_node_tree (for_each (is_emission body)) else ret tt).
Proof.
  intros Hrefl Hbody mat. unfold bind, gets. simpl.
  destruct (use_nodes mat).
  - apply preserves_in_node_tree; [intros n; by apply only_type_refl |].
    intros ns. apply for_each_related;
      [intros n; by apply only_type_refl | by apply preserves_when_type].
  - apply material_related_refl. intros n. by apply only_type_refl.
Qed.

(** ** Lights *)

Section Lights.
Context `{Host}.

Lemma set_materials_same (w : World) : set_materials (λ _, materials w) w = w.
Proof. by destruct w. Qed.

Lemma set_lights_same (w : World) : set_lights (λ _, lights w) w = w.
Proof. by destruct w. Qed.

Lemma materials_related_refl (Rn : node → node → Prop) (touched : string → Prop)
    (w : World) :
  (∀ n, Rn n n) → materials_related Rn touched w w.
Proof.
  intros Hrefl. split; [apply set_materials_same |].
  intros k. destruct (materials w !! k); [| done].
  split; [by apply material_related_refl | done].
Qed.

Lemma materials_related_trans (Rn : node → node → Prop) (touched : string → Prop)
    (w1 w2 w3 : World) :
  (∀ a b c, Rn a b → Rn b c → Rn a c) →
  materials_related Rn touched w1 w2 → materials_related Rn touched w2 w3 →
  materials_related Rn touched w1 w3.
Proof.
  intros Htrans [Hw12 Hm12] [Hw23 Hm23]. split.
  - clear Hm12 Hm23. destruct w1, w2, w3. unfold set_materials in *. simpl in *.
    congruence.
  - intros k. specialize (Hm12 k). specialize (Hm23 k).
    destruct (materials w1 !! k), (materials w2 !! k), (materials w3 !! k); try done.
    destruct Hm12 as [Hr12 Hs12], Hm23 as [Hr23 Hs23]. split.
    + by eapply material_related_trans.
    + intros Hk. by rewrite Hs23, Hs12.
Qed.

Lemma preserves_in_material {A} (Rn : node → node → Prop) (touched : string → Prop)
    (k : string) (body : M material A) (absent : M World A) :
  (∀ n, Rn n n) → touched k →
  preserves (material_related Rn) body →
  (∀ w, (absent w).2 = w) →
  preserves (materials_related Rn touched) (in_material k body absent).
Proof.
  intros Hrefl Hk Hbody Habsent w. unfold in_material.
  destruct (materials w !! k) as [mat|] eqn:Hmat.
  - specialize (Hbody mat). destruct (body mat) as [r mat']. simpl in *. split.
    + by destruct w.
    + intros j. simpl. rewrite lookup_insert. case_decide as Hj.
      * subst j. by rewrite Hmat.
      * destruct (materials w !! j); [| done].
        split; [by apply material_related_refl | done].
  - rewrite Habsent. by apply materials_related_refl.
Qed.
Lemma on_emission_nodes_frame (Rn : node → node → Prop) (obj : object)
    (body : M node unit) (w : World) :
  (∀ n, Rn n n) → (∀ a b c, Rn a b → Rn b c → Rn a c) →
  (∀ a b, Rn a b → n_type b = n_type a) →
  preserves Rn body →
  materials_related (only_type "EMISSION" Rn)
    (λ k, ∃ d slots, data obj = ObMesh d ∧ meshes w !! d = Some slots ∧ Some k ∈ slots)
    w (on_emission_nodes obj body w).2.
Proof.
  intros Hrefl Htrans Hty Hbody.
  assert (Hrefl' : ∀ n, only_type "EMISSION" Rn n n)
    by (intros n; by apply only_type_refl).
  unfold on_emission_nodes.
  destruct (data obj) as [d|d| |] eqn:Hdata;
    try (by apply materials_related_refl).
  unfold bind, gets. simpl.
  destruct (meshes w !! d) as [slots|] eqn:Hmesh;
    [| by apply materials_related_refl].
  destruct slots as [|slot slots]; [by apply materials_related_refl |].
  set (all := slot :: slots) in *.
  assert (Hloop : preserves
            (materials_related (only_type "EMISSION" Rn) (λ k, Some k ∈ all))
            (for_in all (λ slot,
               match slot with
               | None => ret tt
               | Some k =>
                   in_material k
                     (let* nodes_on := gets use_nodes in
                      if nodes_on : bool
                      then in_node_tree (for_each (is_emission body))
                      else ret tt)
                     (ret tt)
               end))).
  { apply preserves_for_in.
    - intros s. by apply materials_related_refl.
    - intros s1 s2 s3. apply materials_related_trans.
      intros a b c. by apply only_type_trans.
    - intros [k|] Hin.
      + apply preserves_in_material; [done | done | | done].
        by apply preserves_emission_body.
      + intros s. by apply materials_related_refl. }
  destruct (Hloop w) as [Hw Hm]. split; [exact Hw |].
  intros k. specialize (Hm k).
  destruct (materials w !! k), (materials _ !! k); try done.
  destruct Hm as [Hr Hs]. split; [done |].
  intros Hk. apply Hs. intros Hin. apply Hk. by exists d, all.
Qed.

Lemma preserves_scale_strength (multiplier : float) :
  preserves (off_socket "Strength")
    (let* v := get_input "Strength" in
     let* current := as_float v in
     set_input "Strength" (SFloat (current * multiplier))).
Proof.
  apply preserves_bind.
  - apply off_socket_trans.
  - apply preserves_pure; [apply off_socket_refl | done].
  - intros v. apply preserves_bind.
    + apply off_socket_trans.
    + apply preserves_pure; [apply off_socket_refl | by destruct v].
    + intros current. apply preserves_set_input.
Qed.

Lemma in_light_modify (d : string) (f : light → light) (absent : M World unit)
    (w : World) :
  (∀ w, (absent w).2 = w) →
  (in_light d (modify f) absent w).2 = set_lights (alter f d) w.
Proof.
  intros Habsent. unfold in_light, modify.
  destruct (lights w !! d) as [l|] eqn:Hl; simpl.
  - unfold set_lights. by rewrite (insert_as_alter f _ _ _ Hl).
  - rewrite Habsent. unfold set_lights. rewrite (alter_absent f _ _ Hl).
    by destruct w.
Qed.
Lemma recolored_refl (c : rgb) (w : World) : recolored c w w.
Proof.
  split; [apply set_lights_same |]. intros d. destruct (lights w !! d); auto.
Qed.

Lemma recolored_objects (c : rgb) (w w' : World) :
  recolored c w w' → objects w' = objects w.
Proof. intros [Hw _]. rewrite <- Hw. by destruct w'. Qed.

Lemma recolored_trans (c : rgb) (w1 w2 w3 : World) :
  recolored c w1 w2 → recolored c w2 w3 → recolored c w1 w3.
Proof.
  intros H12 H23. pose proof (recolored_objects _ _ _ H12) as Hobj.
  destruct H12 as [Hw12 Hl12], H23 as [Hw23 Hl23]. split.
  - clear Hl12 Hl23 Hobj. destruct w1, w2, w3. unfold set_lights in *. simpl in *.
    congruence.
  - intros d. specialize (Hl12 d). specialize (Hl23 d).
    unfold light_data in *. rewrite Hobj in Hl23.
    destruct (lights w1 !! d), (lights w2 !! d), (lights w3 !! d); try done.
    destruct Hl12 as [He12 Hc12], Hl23 as [He23 Hc23]. split; [congruence |].
    destruct Hc23 as [Hc23 | [? ?]]; [| by right].
    destruct Hc12 as [Hc12 | [? ?]]; [left | right]; [congruence |].
    split; [done | congruence].
Qed.

Lemma preserves_tint_accent_lights (params : signature) :
  preserves (recolored (accent_color params)) (tint_accent_lights params).
Proof.
  apply preserves_for_in; [apply recolored_refl | apply recolored_trans |].
  intros name Hname w. unfold tint_light, bind, gets. simpl.
  destruct (objects w !! name) as [o|] eqn:Ho; [| apply recolored_refl].
  destruct (data o) as [d| | |] eqn:Hd; try apply recolored_refl.
  rewrite in_light_modify by done. split; [by destruct w |].
  intros d'. simpl. rewrite lookup_alter. case_decide as Hdd.
  - subst d'. destruct (lights w !! d); simpl; [| done].
    split; [done | right]. split; [| done].
    unfold light_data.
    apply elem_of_cons in Hname as [-> | Hname];
      [left | apply list_elem_of_singleton in Hname as ->; right];
      by rewrite Ho, Hd.
  - destruct (lights w !! d'); auto.
Qed.

(** What the key-light block leaves behind. *)
Lemma adjust_key_light_frame (params : signature) (w : World) :
  let w1 := (adjust_key_light params w).2 in
  set_lights (λ _, lights w) (set_materials (λ _, materials w) w1) = w
  ∧ lights w1
    = match light_data w "Light_Key" with
      | Some d => alter (set_energy (λ e, e * energy_mult params)%float) d (lights w)
      | None => lights w
      end
  ∧ ∀ k, match materials w !! k, materials w1 !! k with
         | Some m, Some m' =>
             material_related (only_type "EMISSION" (off_socket "Strength")) m m'
             ∧ (¬ key_plane_slot w k → m' = m)
         | None, None => True
         | _, _ => False
         end.
Proof.
  assert (Hsame : ∀ k, match materials w !! k, materials w !! k with
                       | Some m, Some m' =>
                           material_related
                             (only_type "EMISSION" (off_socket "Strength")) m m'
                           ∧ (¬ key_plane_slot w k → m' = m)
                       | None, None => True
                       | _, _ => False
                       end).
  { intros k. destruct (materials w !! k); [| done].
    split; [| done]. apply material_related_refl.
    intros n. apply only_type_refl, off_socket_refl. }
  unfold adjust_key_light, light_data, bind, gets. simpl.
  destruct (objects w !! "Light_Key") as [o|] eqn:Ho;
    [| by split_and!; [by destruct w | done | done]].
  destruct (data o) as [d|d| |] eqn:Hd;
    try (by split_and!; [by destruct w | done | done]).
  - rewrite in_light_modify by done. split_and!; [by destruct w | done | done].
  - pose proof (on_emission_nodes_frame (off_socket "Strength") o
        (let* v := get_input "Strength" in
         let* current := as_float v in
         set_input "Strength" (SFloat (current * energy_mult params))) w
        (off_socket_refl _) (off_socket_trans _)
        (λ a b Hab, proj1 Hab) (preserves_scale_strength _)) as [Hw Hm].
    fold (adjust_emission_plane_strength o (energy_mult params)) in Hw, Hm.
    set (w1 := (adjust_emission_plane_strength o (energy_mult params) w).2) in *.
    split_and!.
    + rewrite Hw. apply set_lights_same.
    + transitivity (lights (set_materials (λ _, materials w) w1));
        [by destruct w1 | by rewrite Hw].
    + intros k. specialize (Hm k).
      destruct (materials w !! k), (materials w1 !! k); try done.
      destruct Hm as [Hr Hs]. split; [done |].
      intros Hk. apply Hs. intros (d' & slots & Hd' & Hmesh & Hin).
      apply Hk. exists o, d', slots. done.
Qed.

Lemma configure_lights_unresolved
    (traits : gmap string string) (house_key : json) (e : exn) (w : World) :
  light_params traits house_key = Raise e →
  configure_lights traits house_key w = (Raise e, w).
Proof.
  unfold light_params, configure_lights, bind, lift.
  destruct (resolve_light_signature traits house_key) as [sig|e0]; simpl;
    [| by intros [= <-]].
  destruct (get_light_signature_params sig) as [p|e0]; simpl; [done |].
  by intros [= <-].
Qed.

(** [configure_lights] is the key-light block followed, unless that
    raised, by the accent loop. *)
Lemma configure_lights_split
    (traits : gmap string string) (house_key : json) (params : signature) (w : World) :
  light_params traits house_key = Ok params →
  recolored (accent_color params)
    (adjust_key_light params w).2 (configure_lights traits house_key w).2.
Proof.
  unfold light_params, configure_lights, bind, lift.
  destruct (resolve_light_signature traits house_key) as [sig|e0]; simpl; [| done].
  destruct (get_light_signature_params sig) as [p|e0]; simpl; [| done].
  intros [= <-].
  destruct (adjust_key_light p w) as [[[]|e] s']; simpl.
  - apply preserves_tint_accent_lights.
  - apply recolored_refl.
Qed.

(** The key light as an emission plane with one node material whose
    emission nodes carry a numeric strength: the multiplier reaches every
    emission node, once. *)
Lemma adjust_key_light_plane (params : signature) (w : World) (o : object)
    (d k : string) (ns : list node) :
  objects w !! "Light_Key" = Some o → data o = ObMesh d →
  meshes w !! d = Some [Some k] →
  materials w !! k = Some (mk_material true (Some ns)) →
  (∀ n, n ∈ ns → n_type n = "EMISSION" →
        ∃ x, inputs n !! "Strength" = Some (SFloat x)) →
  adjust_key_light params w
  = (Ok tt,
     set_materials
       (<[k := mk_material true (Some (scale_strength (energy_mult params) <$> ns))]>) w).
Proof.
  intros Ho Hd Hmesh Hmat Hsock.
  unfold adjust_key_light, bind, gets. simpl. rewrite Ho, Hd.
  unfold adjust_emission_plane_strength, on_emission_nodes, bind, gets. simpl.
  rewrite Hd, Hmesh. simpl. unfold bind, in_material. rewrite Hmat. simpl.
  unfold in_node_tree. simpl.
  rewrite (for_each_ok (scale_strength (energy_mult params))); [done |].
  intros n Hn. unfold is_emission, when_type, scale_strength.
  case_bool_decide as Hty; [| done].
  destruct (Hsock n Hn Hty) as [x Hx].
  unfold bind, get_input, getitem, set_input. rewrite Hx. simpl. by rewrite Hx.
Qed.

Lemma tint_light_state (params : signature) (name : string) (w : World) :
  (tint_light params name w).2
  = match light_data w name with
    | Some d => set_lights (alter (set_color (accent_color params)) d) w
    | None => w
    end.
Proof.
  unfold tint_light, light_data, bind, gets. simpl.
  destruct (objects w !! name) as [o|]; [| done].
  destruct (data o); try done. by rewrite in_light_modify.
Qed.

(** When the accent loop returns, the data blocks of [Light_Accent] and
    [Light_Fill] as true lights carry the accent colour. *)
Lemma tint_accent_lights_ok (params : signature) (w w' : World) (d : string)
    (l' : light) :
  tint_accent_lights params w = (Ok tt, w') →
  light_data w "Light_Accent" = Some d ∨ light_data w "Light_Fill" = Some d →
  lights w' !! d = Some l' →
  color l' = accent_color params.
Proof.
  unfold tint_accent_lights. cbn [for_in]. unfold bind at 1.
  pose proof (tint_light_state params "Light_Accent" w) as Ha.
  destruct (tint_light params "Light_Accent" w) as [[[]|e] wa]; [| done].
  unfold bind at 1.
  pose proof (tint_light_state params "Light_Fill" wa) as Hf.
  destruct (tint_light params "Light_Fill" wa) as [[[]|e] wf]; [| done].
  simpl in Ha, Hf. intros [= <-].
  assert (Hobj : light_data wa "Light_Fill" = light_data w "Light_Fill").
  { rewrite Ha. unfold light_data at 1 3. by destruct (light_data w "Light_Accent"). }
  rewrite Hobj in Hf. rewrite Hf, Ha. clear Hf Ha Hobj.
  intros Hd.
  destruct (light_data w "Light_Accent") as [da|],
           (light_data w "Light_Fill") as [df|];
    simpl; rewrite ?lookup_alter; destruct Hd as [Hd | Hd]; simplify_eq;
    repeat case_decide; simplify_eq;
    destruct (lights w !! _) as [l|]; simpl; try done; by intros [= <-].
Qed.

Lemma configure_lights_ok_inv
    (traits : gmap string string) (house_key : json) (params : signature)
    (w w' : World) :
  light_params traits house_key = Ok params →
  configure_lights traits house_key w = (Ok tt, w') →
  ∃ w1, adjust_key_light params w = (Ok tt, w1)
        ∧ tint_accent_lights params w1 = (Ok tt, w').
Proof.
  unfold light_params, configure_lights, bind, lift.
  destruct (resolve_light_signature traits house_key) as [sig|e0]; simpl; [| done].
  destruct (get_light_signature_params sig) as [p|e0]; simpl; [| done].
  intros [= <-].
  destruct (adjust_key_light p w) as [[[]|e] w1]; [| done].
  intros Htint. by exists w1.
Qed.

(** C8. When the signature parameters resolve, [configure_lights] --
    whether it then returns or raises -- writes nothing but light data
    blocks and materials, and:
    - a light data block has its energy multiplied by [energy_mult] if it
      is the data of [Light_Key] as a true light, and keeps its energy
      otherwise;
    - a light data block changes colour only to [accent_color] and only
      if it is the data of [Light_Accent] or [Light_Fill] as a true light;
    - a material outside the slots of an emission-plane key light is the
      same; inside, only the ["Strength"] socket of emission nodes can
      differ.  In particular no ["Color"] socket of any emission plane
      changes.
    When the step returns, the data of [Light_Accent] and [Light_Fill] as
    true lights do carry the accent colour, and an emission-plane key
    light with one node material has the strength of each emission node
    multiplied.  When the parameters do not resolve, the world is
    untouched.  (A light is its data block here: two objects that share
    one are the same light.) *)
Theorem configure_lights_frame
    (traits : gmap string string) (house_key : json) (w : World) :
  (∀ e, light_params traits house_key = Raise e →
        configure_lights traits house_key w = (Raise e, w))
  ∧ (∀ params, light_params traits house_key = Ok params →
       let w' := (configure_lights traits house_key w).2 in
       set_lights (λ _, lights w) (set_materials (λ _, materials w) w') = w
       ∧ (∀ d, match lights w !! d, lights w' !! d with
               | Some l, Some l' =>
                   (light_data w "Light_Key" = Some d →
                    energy l' = (energy l * energy_mult params)%float)
                   ∧ (light_data w "Light_Key" ≠ Some d → energy l' = energy l)
                   ∧ (color l' = color l
                      ∨ ((light_data w "Light_Accent" = Some d
                          ∨ light_data w "Light_Fill" = Some d)
                         ∧ color l' = accent_color params))
               | None, None => True
               | _, _ => False
               end)
       ∧ (∀ k, match materials w !! k, materials w' !! k with
               | Some m, Some m' =>
                   material_related (only_type "EMISSION" (off_socket "Strength")) m m'
                   ∧ (¬ key_plane_slot w k → m' = m)
               | None, None => True
               | _, _ => False
               end)
       ∧ (∀ k m m' ns ns' i n n',
            materials w !! k = Some m → materials w' !! k = Some m' →
            node_tree m = Some ns → node_tree m' = Some ns' →
            ns !! i = Some n → ns' !! i = Some n' →
            inputs n' !! "Color" = inputs n !! "Color")
       ∧ ((configure_lights traits house_key w).1 = Ok tt →
          ∀ d l', light_data w "Light_Accent" = Some d
                  ∨ light_data w "Light_Fill" = Some d →
                  lights w' !! d = Some l' → color l' = accent_color params)
       ∧ (∀ o d k ns,
            objects w !! "Light_Key" = Some o → data o = ObMesh d →
            meshes w !! d = Some [Some k] →
            materials w !! k = Some (mk_material true (Some ns)) →
            (∀ n, n ∈ ns → n_type n = "EMISSION" →
                  ∃ x, inputs n !! "Strength" = Some (SFloat x)) →
            materials w' !! k
            = Some (mk_material true
                      (Some (scale_strength (energy_mult params) <$> ns))))).
Proof.
  split; [intros e; apply configure_lights_unresolved |].
  intros p Hp w'.
  destruct (adjust_key_light_frame p w) as (Hw1 & Hl1 & Hm1).
  pose proof (configure_lights_split traits house_key p w Hp) as Htint.
  fold w' in Htint.
  assert (Hok : ∀ wf, configure_lights traits house_key w = (Ok tt, wf) →
                tint_accent_lights p (adjust_key_light p w).2 = (Ok tt, wf)).
  { intros wf Hrun.
    destruct (configure_lights_ok_inv _ _ _ _ _ Hp Hrun) as (w1 & Hkey & Ht).
    by rewrite Hkey. }
  set (w1 := (adjust_key_light p w).2) in *.
  assert (Hobj1 : objects w1 = objects w).
  { transitivity
      (objects (set_lights (λ _, lights w) (set_materials (λ _, materials w) w1)));
      [by destruct w1 | by rewrite Hw1]. }
  pose proof Htint as [Hw' Hl'].
  assert (Hmat' : materials w' = materials w1).
  { transitivity (materials (set_lights (λ _, lights w1) w'));
      [by destruct w' | by rewrite Hw']. }
  assert (Hmats : ∀ k, match materials w !! k, materials w' !! k with
               | Some m, Some m' =>
                   material_related (only_type "EMISSION" (off_socket "Strength")) m m'
                   ∧ (¬ key_plane_slot w k → m' = m)
               | None, None => True
               | _, _ => False
               end).
  { intros k. rewrite Hmat'. apply Hm1. }
  split_and!.
  - clear -Hw1 Hw'. destruct w, w1, w'. unfold set_lights, set_materials in *.
    simpl in *. congruence.
  - intros d. specialize (Hl' d). unfold light_data in Hl'. rewrite Hobj1 in Hl'.
    fold (light_data w "Light_Accent") (light_data w "Light_Fill") in Hl'.
    rewrite Hl1 in Hl'.
    destruct (light_data w "Light_Key") as [dk|] eqn:Hkey.
    + rewrite lookup_alter in Hl'. case_decide as Hd.
      * subst dk. destruct (lights w !! d) as [l|]; simpl in Hl';
          destruct (lights w' !! d) as [l'|]; try done.
        destruct Hl' as [He Hc]. split_and!; [by intros _ | by intros ? | done].
      * destruct (lights w !! d) as [l|]; destruct (lights w' !! d) as [l'|];
          try done.
        destruct Hl' as [He Hc]. split_and!; [intros [= ?]; by subst | done | done].
    + destruct (lights w !! d) as [l|]; destruct (lights w' !! d) as [l'|];
        try done.
      destruct Hl' as [He Hc]. split_and!; [done | done | done].
  - exact Hmats.
  - intros k m m' ns ns' i n n' Hm Hm' Hns Hns' Hn Hn'.
    specialize (Hmats k). rewrite Hm, Hm' in Hmats.
    destruct Hmats as [[_ Hrel] _]. rewrite Hns, Hns' in Hrel.
    destruct (Forall2_lookup_lr _ _ _ _ _ _ Hrel Hn Hn') as [[_ Hoff] _].
    by apply Hoff.
  - intros Hres d l' Hd. apply (tint_accent_lights_ok p w1 w' d l').
    + apply Hok. unfold w'.
      destruct (configure_lights traits house_key w) as [r wf]. simpl in *.
      by subst r.
    + unfold light_data in *. by rewrite Hobj1.
  - intros o d k ns Ho Hd Hmesh Hmat Hsock.
    unfold w1 in Hmat'.
    rewrite (adjust_key_light_plane p w o d k ns Ho Hd Hmesh Hmat Hsock) in Hmat'.
    simpl in Hmat'. rewrite Hmat'. by rewrite lookup_insert_eq.
Qed.

(** C6. With no LightSignature key and house THUNDER the signature
    resolves to ["LightningFork"] through the house table, whose entry has
    energy multiplier 1.5; [configure_lights] then leaves the key light
    with 1.5 times its energy when it is a true light, and with 1.5 times
    the strength of each emission node when it is an emission plane with
    one node material. *)
Theorem thunder_defaults_to_lightning_fork (traits : gmap string string) (w : World) :
  traits !! "LightSignature" = None →
  resolve_light_signature traits (JStr "THUNDER") = Ok "LightningFork"
  ∧ light_params traits (JStr "THUNDER") = Ok (mk_signature 1.5 (0.7, 0.85, 1.0))%float
  ∧ (∀ d l, light_data w "Light_Key" = Some d → lights w !! d = Some l →
       ∃ l', lights (configure_lights traits (JStr "THUNDER") w).2 !! d = Some l'
             ∧ energy l' = (energy l * 1.5)%float)
  ∧ (∀ o d k ns,
       objects w !! "Light_Key" = Some o → data o = ObMesh d →
       meshes w !! d = Some [Some k] →
       materials w !! k = Some (mk_material true (Some ns)) →
       (∀ n, n ∈ ns → n_type n = "EMISSION" →
             ∃ x, inputs n !! "Strength" = Some (SFloat x)) →
       materials (configure_lights traits (JStr "THUNDER") w).2 !! k
       = Some (mk_material true (Some (scale_strength 1.5 <$> ns)))).
Proof.
  intros Habsent.
  assert (Hsig : resolve_light_signature traits (JStr "THUNDER") = Ok "LightningFork").
  { unfold resolve_light_signature. by rewrite Habsent. }
  assert (Hp : light_params traits (JStr "THUNDER")
               = Ok (mk_signature 1.5 (0.7, 0.85, 1.0))%float).
  { unfold light_params. by rewrite Hsig. }
  pose proof (configure_lights_split _ _ _ w Hp) as [Hw' Hl'].
  set (w' := (configure_lights traits (JStr "THUNDER") w).2) in *.
  split_and!; [done | done | |].
  - intros d l Hkey Hl.
    destruct (adjust_key_light_frame (mk_signature 1.5 (0.7, 0.85, 1.0))%float w)
      as (_ & Hl1 & _).
    specialize (Hl' d). rewrite Hl1, Hkey, lookup_alter in Hl'.
    rewrite decide_True in Hl' by done. rewrite Hl in Hl'. simpl in Hl'.
    destruct (lights w' !! d) as [l'|]; [| done].
    exists l'. split; [done |]. by destruct Hl' as [-> _].
  - intros o d k ns Ho Hd Hmesh Hmat Hsock.
    rewrite (adjust_key_light_plane _ w o d k ns Ho Hd Hmesh Hmat Hsock) in Hw'.
    apply (f_equal materials) in Hw'. simpl in Hw'.
    rewrite Hw'. by rewrite lookup_insert_eq.
Qed.
End Lights.

Lemma thunder_defaults_to_lightning_fork_witness :
  (∅ : gmap string string) !! "LightSignature" = None
  ∧ energy <$> lights (configure_lights (H := sample_host) ∅ (JStr "THUNDER")
                         sample_world_lamp).2 !! "Light_Key"
    = Some 1500%float
  ∧ materials (configure_lights (H := sample_host) ∅ (JStr "THUNDER") sample_world).2
      !! "MAT_Light_Key"
    = Some (plane_material (1, 0.98, 0.95)%float 18).
Proof.
  pose proof (thunder_defaults_to_lightning_fork (H := sample_host) ∅ sample_world_lamp
                eq_refl) as (_ & _ & Hlamp & _).
  pose proof (thunder_defaults_to_lightning_fork (H := sample_host) ∅ sample_world
                eq_refl) as (_ & _ & _ & Hplane).
  split_and!; [reflexivity | |].
  - destruct (Hlamp "Light_Key" (mk_light 1000 (1, 1, 1)%float) eq_refl eq_refl)
      as (l' & Hl & He).
    rewrite Hl. simpl. rewrite He. reflexivity.
  - rewrite (Hplane (mk_object (ObMesh "Light_Key") false false) "Light_Key"
               "MAT_Light_Key" [material_output; emission_node (1, 0.98, 0.95)%float 12]
               eq_refl eq_refl eq_refl eq_refl).
    + reflexivity.
    + intros n Hn Hty. exists 12%float.
      apply elem_of_cons in Hn as [-> | Hn]; [done |].
      apply list_elem_of_singleton in Hn as ->. reflexivity.
Defined.

Lemma configure_lights_frame_witness :
  light_params ∅ (JStr "THUNDER") = Ok (mk_signature 1.5 (0.7, 0.85, 1.0))%float
  ∧ (∀ i n n',
       [material_output; emission_node (0.9, 0.95, 1)%float 4] !! i = Some n →
       (default [] (mbind node_tree
          (materials (configure_lights (H := sample_host) ∅ (JStr "THUNDER")
                        sample_world).2 !! "MAT_Light_Fill"))) !! i = Some n' →
       inputs n' !! "Color" = inputs n !! "Color")
  ∧ (∀ l', lights (configure_lights (H := sample_host) ∅ (JStr "THUNDER")
                     sample_world).2 !! "Light_Accent" = Some l' →
           color l' = (0.7, 0.85, 1.0)%float).
Proof.
  pose proof (configure_lights_frame (H := sample_host) ∅ (JStr "THUNDER") sample_world)
    as [_ Hframe].
  destruct (Hframe (mk_signature 1.5 (0.7, 0.85, 1.0))%float eq_refl)
    as (_ & _ & _ & Hcolor & Haccent & _).
  split_and!; [reflexivity | |].
  - intros i n n' Hn Hn'.
    exact (Hcolor "MAT_Light_Fill" (plane_material (0.9, 0.95, 1)%float 4) _ _ _ i n n'
             eq_refl eq_refl eq_refl eq_refl Hn Hn').
  - intros l' Hl'. apply (Haccent eq_refl "Light_Accent" l'); [by left | exact Hl'].
Defined.

(** ** Materials *)

Lemma py_min_at_most (x : float) : (py_min 1 x <=? 1)%float = true.
Proof.
  unfold py_min. destruct (x <? 1)%float eqn:Hlt; [| reflexivity].
  rewrite ltb_spec in Hlt. rewrite leb_spec.
  unfold SFltb, SFleb in *. by destruct (SFcompare _ _) as [[]|].
Qed.

Lemma for_each_ok_inv {A} (body : M A unit) (xs xs' : list A) :
  for_each body xs = (Ok tt, xs') → Forall2 (λ x x', body x = (Ok tt, x')) xs xs'.
Proof.
  revert xs'. induction xs as [|x xs IH]; intros xs'; simpl.
  - intros [= <-]. constructor.
  - destruct (body x) as [[[]|e] x'] eqn:Hx; [| done].
    destruct (for_each body xs) as [r rest] eqn:Hrest.
    intros [= -> <-]. constructor; [done | by apply IH].
Qed.

Lemma paint_frame_run (params : frame_params) (n : node) :
  frame_ready n = true →
  is_principled
    (set_input "Base Color" (rgba (frame_color params)) ;;
     set_input "Metallic" (SFloat (frame_metallic params)) ;;
     set_input "Roughness" (SFloat (frame_roughness params))) n
  = (Ok tt, paint_frame params n).
Proof.
  unfold frame_ready, is_principled, when_type, paint_frame.
  case_bool_decide as Hty; [| done].
  destruct (inputs n !! "Base Color") as [[|r g b a]|] eqn:Hc; try done.
  destruct (inputs n !! "Metallic") as [[m|]|] eqn:Hm; try done.
  destruct (inputs n !! "Roughness") as [[x|]|] eqn:Hr; try done.
  intros _. unfold bind, set_input. rewrite Hc. destruct (frame_color params) as [[? ?] ?].
  simpl. rewrite lookup_insert_ne, Hm by done. simpl.
  rewrite !lookup_insert_ne, Hr by done. done.
Qed.

Lemma paint_core_run (params : core_params) (n : node) :
  core_ready n = true →
  is_principled
    (set_input "Base Color" (rgba (core_color params)) ;;
     set_input "Roughness" (SFloat (core_roughness params)) ;;
     set_input "Transmission Weight"
       (SFloat (default 0%float (core_transmission params))) ;;
     set_input "Metallic" (SFloat (default 0%float (core_metallic params))) ;;
     match emits params with
     | Some e =>
         set_input "Emission Strength" (SFloat e) ;;
         set_input "Emission Color" (rgba (core_color params))
     | None => ret tt
     end) n
  = (Ok tt, paint_core params n).
Proof.
  unfold core_ready, is_principled, when_type, paint_core.
  case_bool_decide as Hty; [| done].
  destruct (inputs n !! "Base Color") as [[|? ? ? ?]|] eqn:Hc; try done.
  destruct (inputs n !! "Roughness") as [[?|]|] eqn:Hr; try done.
  destruct (inputs n !! "Transmission Weight") as [[?|]|] eqn:Ht; try done.
  destruct (inputs n !! "Metallic") as [[?|]|] eqn:Hm; try done.
  destruct (inputs n !! "Emission Strength") as [[?|]|] eqn:Hes; try done.
  destruct (inputs n !! "Emission Color") as [[|? ? ? ?]|] eqn:Hec; try done.
  intros _. unfold bind, set_input. rewrite Hc.
  destruct (core_color params) as [[? ?] ?]. simpl.
  rewrite lookup_insert_ne, Hr by done. simpl.
  rewrite !lookup_insert_ne, Ht by done. simpl.
  rewrite !lookup_insert_ne, Hm by done. simpl.
  destruct (emits params) as [e|]; [| done]. cbn [inputs n_type].
  rewrite !lookup_insert_ne, Hes by done. simpl.
  rewrite !lookup_insert_ne, Hec by done. done.
Qed.

Lemma paint_frame_roughness (params : frame_params) (n : node) :
  n_type n = "BSDF_PRINCIPLED" →
  inputs (paint_frame params n) !! "Roughness" = Some (SFloat (frame_roughness params)).
Proof.
  intros Hty. unfold paint_frame. rewrite bool_decide_eq_true_2 by done.
  simpl. by rewrite lookup_insert_eq.
Qed.

Lemma paint_frame_type (params : frame_params) (n : node) :
  n_type (paint_frame params n) = n_type n.
Proof. unfold paint_frame. by case_bool_decide. Qed.

Lemma age_node_run (add : float) (n : node) :
  (n_type n = "BSDF_PRINCIPLED" → ∃ x, inputs n !! "Roughness" = Some (SFloat x)) →
  is_principled
    (let* current := get_input "Roughness" in
     let* current_roughness := as_float current in
     set_input "Roughness" (SFloat (py_min 1 (current_roughness + add)))) n
  = (Ok tt, age_node add n).
Proof.
  intros Hsock. unfold is_principled, when_type, age_node.
  case_bool_decide as Hty; [| done].
  destruct (Hsock Hty) as [x Hx].
  unfold bind, get_input, getitem, set_input. rewrite Hx. simpl. by rewrite Hx.
Qed.

(** Surface aging never leaves a Principled node rougher than 1: after a
    run that returns, on a node material, each Principled node carries a
    numeric roughness that compares at most 1. *)
Lemma apply_surface_aging_clamped (aging_type : string) (mat mat' : material)
    (ns' : list node) (n' : node) :
  apply_surface_aging aging_type mat = (Ok tt, mat') →
  use_nodes mat = true →
  node_tree mat' = Some ns' →
  n' ∈ ns' → n_type n' = "BSDF_PRINCIPLED" →
  ∃ x, inputs n' !! "Roughness" = Some (SFloat x) ∧ (x <=? 1)%float = true.
Proof.
  unfold apply_surface_aging, bind, lift, gets. simpl.
  destruct (get_or_entry aging_params aging_type "Pristine") as [a|e]; [| done].
  intros Hrun Huse. rewrite Huse in Hrun. unfold in_node_tree in Hrun.
  destruct (node_tree mat) as [ns|]; [| done].
  destruct (for_each _ ns) as [r ns0] eqn:Hloop.
  injection Hrun as -> <-. simpl. intros [= <-] Hin Hty.
  apply for_each_ok_inv in Hloop.
  apply list_elem_of_lookup in Hin as [i Hi].
  destruct (Forall2_lookup_r _ _ _ _ _ Hloop Hi) as (n & Hn & Hbody).
  unfold is_principled, when_type in Hbody.
  case_bool_decide as Hnty; [| injection Hbody as ->; done].
  unfold bind, get_input, getitem in Hbody.
  destruct (inputs n !! "Roughness") as [[x|]|] eqn:Hx; try done.
  simpl in Hbody. unfold set_input in Hbody. rewrite Hx in Hbody. simpl in Hbody.
  injection Hbody as <-. simpl. rewrite lookup_insert_eq.
  eexists. split; [done |]. apply py_min_at_most.
Qed.

Section Materials.
Context `{Host}.

Lemma in_material_run {A} (k : string) (body : M material A) (absent : M World A)
    (w : World) (mat mat' : material) (r : result A) :
  materials w !! k = Some mat → body mat = (r, mat') →
  in_material k body absent w = (r, set_materials (<[k := mat']>) w).
Proof. intros Hk Hb. unfold in_material. by rewrite Hk, Hb. Qed.

Lemma paint_material_run (params : frame_params) (nodes_on : bool) (ns : list node) :
  (∀ n, n ∈ ns → frame_ready n = true) →
  in_node_tree (for_each (is_principled (
    set_input "Base Color" (rgba (frame_color params)) ;;
    set_input "Metallic" (SFloat (frame_metallic params)) ;;
    set_input "Roughness" (SFloat (frame_roughness params)))))
    (mk_material nodes_on (Some ns))
  = (Ok tt, mk_material nodes_on (Some (paint_frame params <$> ns))).
Proof.
  intros Hready. unfold in_node_tree. simpl.
  rewrite (for_each_ok (paint_frame params)); [done |].
  intros n Hn. by apply paint_frame_run, Hready.
Qed.

Lemma age_material_run (aging_type : string) (a : aging) (ns : list node) :
  get_or_entry aging_params aging_type "Pristine" = Ok a →
  (∀ n, n ∈ ns → n_type n = "BSDF_PRINCIPLED" →
        ∃ x, inputs n !! "Roughness" = Some (SFloat x)) →
  apply_surface_aging aging_type (mk_material true (Some ns))
  = (Ok tt, mk_material true (Some (age_node (roughness_add a) <$> ns))).
Proof.
  intros Ha Hsock. unfold apply_surface_aging, bind, lift, gets. rewrite Ha. simpl.
  unfold in_node_tree. simpl.
  rewrite (for_each_ok (age_node (roughness_add a))); [done |].
  intros n Hn. by apply age_node_run, Hsock.
Qed.

Lemma assign_material_run (obj : object) (d mat_name : string)
    (slots : list (option string)) (w : World) :
  data obj = ObMesh d → meshes w !! d = Some slots →
  assign_material obj mat_name w
  = (Ok tt,
     set_meshes (<[d := match slots with
                        | [] => [Some mat_name]
                        | _ :: rest => Some mat_name :: rest
                        end]>) w).
Proof.
  intros Hd Hmesh. unfold assign_material, bind, gets, modify. rewrite Hd. simpl.
  rewrite Hmesh. by destruct slots.
Qed.

(** The frame step on a scene that has a [Frame] mesh and whose frame
    material is either missing (and then created with the host's default
    tree) or a node material: it returns, and the material ends up with
    every node painted and then aged. *)
Lemma configure_frame_material_run (traits : gmap string string) (w : World)
    (frame : object) (d : string) (slots : list (option string))
    (params : frame_params) (a : aging) (ns : list node) :
  let mat_name := "MAT_Frame_" +:+ get traits "FrameType" "BrushedSteel" in
  objects w !! "Frame" = Some frame → data frame = ObMesh d →
  meshes w !! d = Some slots →
  get_material_params (get traits "FrameType" "BrushedSteel") = Ok params →
  get_or_entry aging_params (get traits "SurfaceAging" "Pristine") "Pristine" = Ok a →
  (materials w !! mat_name = None ∧ ns = default_node_tree
   ∨ materials w !! mat_name = Some (mk_material true (Some ns))) →
  (∀ n, n ∈ ns → frame_ready n = true) →
  ∃ w', configure_frame_material traits w = (Ok tt, w')
        ∧ materials w' !! mat_name
          = Some (mk_material true
                    (Some (age_node (roughness_add a) <$> (paint_frame params <$> ns)))).
Proof.
  intros mat_name Hframe Hdata Hmesh Hparams Haging Hmat Hready.
  set (w0 := match materials w !! mat_name with
             | Some _ => w
             | None =>
                 set_materials (<[mat_name := mk_material true (Some default_node_tree)]>) w
             end).
  assert (Hnew : get_or_new_material mat_name w = (Ok tt, w0)).
  { unfold get_or_new_material, bind, gets, w0. simpl.
    by destruct (materials w !! mat_name). }
  assert (Hmat0 : materials w0 !! mat_name = Some (mk_material true (Some ns))).
  { unfold w0. destruct Hmat as [[Hnone ->] | Hsome].
    - rewrite Hnone. simpl. by rewrite lookup_insert_eq.
    - by rewrite Hsome. }
  assert (Hmesh0 : meshes w0 !! d = Some slots).
  { unfold w0. by destruct (materials w !! mat_name). }
  set (m1 := mk_material true (Some (paint_frame params <$> ns))).
  set (m2 := mk_material true
               (Some (age_node (roughness_add a) <$> (paint_frame params <$> ns)))).
  set (w1 := set_materials (<[mat_name := m1]>) w0).
  set (w2 := set_materials (<[mat_name := m2]>) w1).
  assert (Hpaint : ∀ body_absent,
    in_material mat_name
      (in_node_tree (for_each (is_principled (
         set_input "Base Color" (rgba (frame_color params)) ;;
         set_input "Metallic" (SFloat (frame_metallic params)) ;;
         set_input "Roughness" (SFloat (frame_roughness params))))))
      body_absent w0 = (Ok tt, w1)).
  { intros body_absent. eapply in_material_run; [exact Hmat0 |].
    by apply paint_material_run. }
  assert (Hage : ∀ body_absent,
    in_material mat_name
      (apply_surface_aging (get traits "SurfaceAging" "Pristine")) body_absent w1
    = (Ok tt, w2)).
  { intros body_absent. eapply in_material_run.
    - unfold w1. simpl. by rewrite lookup_insert_eq.
    - apply age_material_run; [done |].
      intros n' [n [-> Hn]]%list_elem_of_fmap Hty. eexists.
      apply paint_frame_roughness. by rewrite paint_frame_type in Hty. }
  eexists. split.
  - unfold configure_frame_material, bind at 1, gets. simpl. rewrite Hframe.
    unfold bind at 1, lift. rewrite Hparams.
    fold mat_name. unfold bind at 1. rewrite Hnew.
    unfold bind at 1. rewrite Hpaint.
    unfold bind at 1. rewrite Hage.
    apply (assign_material_run frame d mat_name slots w2 Hdata).
    unfold w2, w1. simpl. exact Hmesh0.
  - simpl. by rewrite lookup_insert_eq.
Qed.
(** The core step, under the like conditions. *)
Lemma configure_core_material_run (traits : gmap string string) (w : World)
    (core : object) (d : string) (slots : list (option string))
    (params : core_params) (ns : list node) :
  let mat_name := "MAT_Core_" +:+ get traits "CoreMaterial" "ClearCrystal" in
  objects w !! "Core" = Some core → data core = ObMesh d →
  meshes w !! d = Some slots →
  get_core_material_params (get traits "CoreMaterial" "ClearCrystal") = Ok params →
  (materials w !! mat_name = None ∧ ns = default_node_tree
   ∨ ∃ nodes_on, materials w !! mat_name = Some (mk_material nodes_on (Some ns))) →
  (∀ n, n ∈ ns → core_ready n = true) →
  ∃ w' nodes_on,
    configure_core_material traits w = (Ok tt, w')
    ∧ materials w' !! mat_name
      = Some (mk_material nodes_on (Some (paint_core params <$> ns))).
Proof.
  intros mat_name Hcore Hdata Hmesh Hparams Hmat Hready.
  set (w0 := match materials w !! mat_name with
             | Some _ => w
             | None =>
                 set_materials (<[mat_name := mk_material true (Some default_node_tree)]>) w
             end).
  assert (Hnew : get_or_new_material mat_name w = (Ok tt, w0)).
  { unfold get_or_new_material, bind, gets, w0. simpl.
    by destruct (materials w !! mat_name). }
  assert (Hmat0 : ∃ nodes_on,
            materials w0 !! mat_name = Some (mk_material nodes_on (Some ns))).
  { unfold w0. destruct Hmat as [[Hnone ->] | [nodes_on Hsome]].
    - rewrite Hnone. simpl. exists true. by rewrite lookup_insert_eq.
    - exists nodes_on. by rewrite Hsome. }
  destruct Hmat0 as [nodes_on Hmat0].
  assert (Hmesh0 : meshes w0 !! d = Some slots).
  { unfold w0. by destruct (materials w !! mat_name). }
  set (m1 := mk_material nodes_on (Some (paint_core params <$> ns))).
  set (w1 := set_materials (<[mat_name := m1]>) w0).
  assert (Hpaint : ∀ body_absent,
    in_material mat_name
      (in_node_tree (for_each (is_principled (
         set_input "Base Color" (rgba (core_color params)) ;;
         set_input "Roughness" (SFloat (core_roughness params)) ;;
         set_input "Transmission Weight"
           (SFloat (default 0%float (core_transmission params))) ;;
         set_input "Metallic" (SFloat (default 0%float (core_metallic params))) ;;
         match emits params with
         | Some e =>
             set_input "Emission Strength" (SFloat e) ;;
             set_input "Emission Color" (rgba (core_color params))
         | None => ret tt
         end))))
      body_absent w0 = (Ok tt, w1)).
  { intros body_absent. eapply in_material_run; [exact Hmat0 |].
    unfold in_node_tree. simpl.
    rewrite (for_each_ok (paint_core params)); [done |].
    intros n Hn. by apply paint_core_run, Hready. }
  exists (set_meshes (<[d := match slots with
                             | [] => [Some mat_name]
                             | _ :: rest => Some mat_name :: rest
                             end]>) w1), nodes_on.
  split.
  - unfold configure_core_material, bind at 1, gets. simpl. rewrite Hcore.
    unfold bind at 1, lift. rewrite Hparams.
    fold mat_name. unfold bind at 1. rewrite Hnew.
    unfold bind at 1. rewrite Hpaint.
    apply (assign_material_run core d mat_name slots w1 Hdata).
    unfold w1. simpl. exact Hmesh0.
  - simpl. by rewrite lookup_insert_eq.
Qed.
Lemma age_node_type (add : float) (n : node) : n_type (age_node add n) = n_type n.
Proof.
  unfold age_node. case_bool_decide; [| done].
  by destruct (inputs n !! "Roughness") as [[?|]|].
Qed.

Lemma aged_paint_roughness (params : frame_params) (add : float) (n : node) :
  n_type n = "BSDF_PRINCIPLED" →
  inputs (age_node add (paint_frame params n)) !! "Roughness"
  = Some (SFloat (py_min 1 (frame_roughness params + add))).
Proof.
  intros Hty. unfold age_node.
  rewrite paint_frame_type, bool_decide_eq_true_2 by done.
  rewrite paint_frame_roughness by done. simpl. by rewrite lookup_insert_eq.
Qed.

(** C3. With CoreMaterial FrozenPlasma, FrameType WhiteGold and
    SurfaceAging AncientRelic:
    - the core bundle resolves to transmission 0.3, roughness 0.1 and
      emission 2.0, the frame bundle to roughness 0.1 and the aging
      increment to 0.25, and [min(1.0, 0.1 + 0.25)] is 0.35 as a float;
    - on a scene with a [Frame] mesh whose frame material is missing or a
      node material with usable Principled nodes, the frame step returns
      and every Principled node of [MAT_Frame_WhiteGold] has roughness
      0.35;
    - likewise the core step leaves every Principled node of
      [MAT_Core_FrozenPlasma] with transmission weight 0.3, roughness 0.1
      and emission strength 2.0;
    - whatever the material and the aging level, aging that returns leaves
      each Principled node with a roughness that is at most 1.0. *)
Theorem frozen_plasma_white_gold_ancient_relic
    (traits : gmap string string) (w : World) :
  traits !! "CoreMaterial" = Some "FrozenPlasma" →
  traits !! "FrameType" = Some "WhiteGold" →
  traits !! "SurfaceAging" = Some "AncientRelic" →
  (get_core_material_params (get traits "CoreMaterial" "ClearCrystal")
   = Ok (mk_core (0.6, 0.8, 1.0) (Some 0.3) 0.1 None (Some 2.0))%float
   ∧ get_material_params (get traits "FrameType" "BrushedSteel")
     = Ok (mk_frame (0.9, 0.88, 0.8) 1.0 0.1)%float
   ∧ get_or_entry aging_params (get traits "SurfaceAging" "Pristine") "Pristine"
     = Ok (mk_aging 0.25%float)
   ∧ (py_min 1 (0.1 + 0.25) = 0.35)%float)
  ∧ (∀ frame d slots ns,
       objects w !! "Frame" = Some frame → data frame = ObMesh d →
       meshes w !! d = Some slots →
       (materials w !! "MAT_Frame_WhiteGold" = None ∧ ns = default_node_tree
        ∨ materials w !! "MAT_Frame_WhiteGold" = Some (mk_material true (Some ns))) →
       (∀ n, n ∈ ns → frame_ready n = true) →
       ∃ w' ns',
         configure_frame_material traits w = (Ok tt, w')
         ∧ materials w' !! "MAT_Frame_WhiteGold" = Some (mk_material true (Some ns'))
         ∧ ∀ n', n' ∈ ns' → n_type n' = "BSDF_PRINCIPLED" →
             inputs n' !! "Roughness" = Some (SFloat 0.35%float))
  ∧ (∀ core d slots ns,
       objects w !! "Core" = Some core → data core = ObMesh d →
       meshes w !! d = Some slots →
       (materials w !! "MAT_Core_FrozenPlasma" = None ∧ ns = default_node_tree
        ∨ ∃ nodes_on,
            materials w !! "MAT_Core_FrozenPlasma"
            = Some (mk_material nodes_on (Some ns))) →
       (∀ n, n ∈ ns → core_ready n = true) →
       ∃ w' nodes_on ns',
         configure_core_material traits w = (Ok tt, w')
         ∧ materials w' !! "MAT_Core_FrozenPlasma"
           = Some (mk_material nodes_on (Some ns'))
         ∧ ∀ n', n' ∈ ns' → n_type n' = "BSDF_PRINCIPLED" →
             inputs n' !! "Transmission Weight" = Some (SFloat 0.3%float)
             ∧ inputs n' !! "Roughness" = Some (SFloat 0.1%float)
             ∧ inputs n' !! "Emission Strength" = Some (SFloat 2.0%float))
  ∧ (∀ aging_type mat mat' ns' n',
       apply_surface_aging aging_type mat = (Ok tt, mat') →
       use_nodes mat = true → node_tree mat' = Some ns' →
       n' ∈ ns' → n_type n' = "BSDF_PRINCIPLED" →
       ∃ x, inputs n' !! "Roughness" = Some (SFloat x) ∧ (x <=? 1)%float = true).
Proof.
  intros Hcore_trait Hframe_trait Haging_trait.
  assert (Hct : get traits "CoreMaterial" "ClearCrystal" = "FrozenPlasma")
    by (unfold get; by rewrite Hcore_trait).
  assert (Hft : get traits "FrameType" "BrushedSteel" = "WhiteGold")
    by (unfold get; by rewrite Hframe_trait).
  assert (Hat : get traits "SurfaceAging" "Pristine" = "AncientRelic")
    by (unfold get; by rewrite Haging_trait).
  assert (Hcp : get_core_material_params (get traits "CoreMaterial" "ClearCrystal")
                = Ok (mk_core (0.6, 0.8, 1.0) (Some 0.3) 0.1 None (Some 2.0))%float)
    by (by rewrite Hct).
  assert (Hfp : get_material_params (get traits "FrameType" "BrushedSteel")
                = Ok (mk_frame (0.9, 0.88, 0.8) 1.0 0.1)%float)
    by (by rewrite Hft).
  assert (Hap : get_or_entry aging_params (get traits "SurfaceAging" "Pristine")
                  "Pristine" = Ok (mk_aging 0.25%float))
    by (by rewrite Hat).
  split_and!; [done | done | done | reflexivity | | |].
  - intros frame d slots ns Hframe Hdata Hmesh Hmat Hready.
    pose proof (configure_frame_material_run traits w frame d slots _ _ ns
                  Hframe Hdata Hmesh Hfp Hap) as Hrun.
    rewrite Hft in Hrun. simpl in Hrun.
    destruct (Hrun Hmat Hready) as (w' & Hw' & Hmat').
    exists w', (age_node 0.25%float
                  <$> (paint_frame (mk_frame (0.9, 0.88, 0.8) 1.0 0.1)%float <$> ns)).
    split_and!; [done | done |].
    intros n' Hn' Hty.
    apply list_elem_of_fmap in Hn' as (n1 & -> & Hn1).
    apply list_elem_of_fmap in Hn1 as (n & -> & Hn).
    rewrite age_node_type, paint_frame_type in Hty.
    by rewrite aged_paint_roughness.
  - intros core d slots ns Hcore Hdata Hmesh Hmat Hready.
    pose proof (configure_core_material_run traits w core d slots _ ns
                  Hcore Hdata Hmesh Hcp) as Hrun.
    rewrite Hct in Hrun. simpl in Hrun.
    destruct (Hrun Hmat Hready) as (w' & nodes_on & Hw' & Hmat').
    exists w', nodes_on,
      (paint_core (mk_core (0.6, 0.8, 1.0) (Some 0.3) 0.1 None (Some 2.0))%float <$> ns).
    split_and!; [done | done |].
    intros n' Hn' Hty.
    apply list_elem_of_fmap in Hn' as (n & -> & Hn).
    unfold paint_core in *. case_bool_decide as Hnty; [| done].
    cbn -[insert lookup]. rewrite !lookup_insert_ne by done.
    rewrite lookup_insert_eq, !lookup_insert_ne by done.
    rewrite lookup_insert_eq, !lookup_insert_ne by done.
    by rewrite lookup_insert_eq.
  - intros aging_type mat mat' ns' n'. apply apply_surface_aging_clamped.
Qed.
End Materials.

Lemma frozen_plasma_white_gold_ancient_relic_witness :
  let traits : gmap string string :=
    list_to_map [("CoreMaterial", "FrozenPlasma"); ("FrameType", "WhiteGold");
                 ("SurfaceAging", "AncientRelic")] in
  traits !! "CoreMaterial" = Some "FrozenPlasma"
  ∧ traits !! "FrameType" = Some "WhiteGold"
  ∧ traits !! "SurfaceAging" = Some "AncientRelic"
  ∧ ∃ w' ns',
      configure_frame_material (H := sample_host) traits sample_world = (Ok tt, w')
      ∧ materials w' !! "MAT_Frame_WhiteGold" = Some (mk_material true (Some ns'))
      ∧ ∀ n', n' ∈ ns' → n_type n' = "BSDF_PRINCIPLED" →
          inputs n' !! "Roughness" = Some (SFloat 0.35%float).
Proof.
  intros traits.
  split_and!; [reflexivity | reflexivity | reflexivity |].
  pose proof (frozen_plasma_white_gold_ancient_relic (H := sample_host)
                traits sample_world eq_refl eq_refl eq_refl) as (_ & Hframe & _).
  apply (Hframe (mk_object (ObMesh "Frame") false false) "Frame" []
           [principled_bsdf; material_output] eq_refl eq_refl eq_refl
           (or_introl (conj eq_refl eq_refl))).
  intros n Hn.
  apply elem_of_cons in Hn as [-> | Hn]; [reflexivity |].
  apply list_elem_of_singleton in Hn as ->. reflexivity.
Defined.

(** ** Determinism of the configuration phase *)

Section Determinism.
Context `{Host}.

Lemma same_scene_reset (r : RngState) (p : option cycles_prefs) (w : World) :
  same_scene w (reset r p w).
Proof. by destruct w. Qed.

Lemma same_scene_refl (w : World) : same_scene w w.
Proof. by destruct w. Qed.

Lemma same_scene_sym (w1 w2 : World) : same_scene w1 w2 → same_scene w2 w1.
Proof. unfold same_scene. intros <-. by destruct w1. Qed.

Lemma same_scene_trans (w1 w2 w3 : World) :
  same_scene w1 w2 → same_scene w2 w3 → same_scene w1 w3.
Proof. unfold same_scene. intros <- <-. by destruct w1. Qed.

Lemma scene_only_ret {A} (a : A) : scene_only (ret a).
Proof. done. Qed.

Lemma scene_only_raise {A} (e : exn) : scene_only (raise (A := A) e).
Proof. done. Qed.

Lemma scene_only_lift {A} (r : result A) : scene_only (lift r).
Proof. done. Qed.

Lemma scene_only_gets {A} (f : World → A) :
  (∀ r p w, f (reset r p w) = f w) → scene_only (gets f).
Proof. intros Hf r p w. unfold gets. by rewrite Hf. Qed.

Lemma scene_only_modify (f : World → World) :
  (∀ r p w, f (reset r p w) = reset r p (f w)) → scene_only (modify f).
Proof. intros Hf r p w. unfold modify. by rewrite Hf. Qed.

Lemma scene_only_bind {A B} (m : M World A) (k : A → M World B) :
  scene_only m → (∀ a, scene_only (k a)) → scene_only (bind m k).
Proof.
  intros Hm Hk r p w. unfold bind. rewrite Hm.
  destruct (m w) as [[a|e] w']; [apply Hk | done].
Qed.

Lemma scene_only_for_in {A} (xs : list A) (body : A → M World unit) :
  (∀ x, scene_only (body x)) → scene_only (for_in xs body).
Proof.
  intros Hbody. induction xs as [|x xs IH]; simpl; [done |].
  apply scene_only_bind; [apply Hbody | by intros _].
Qed.

Lemma scene_only_in_material {A} (k : string) (body : M material A)
    (absent : M World A) :
  scene_only absent → scene_only (in_material k body absent).
Proof.
  intros Habsent r p w. unfold in_material. simpl.
  destruct (materials w !! k) as [mat|]; [| apply Habsent].
  by destruct (body mat).
Qed.

Lemma scene_only_in_light {A} (d : string) (body : M light A) (absent : M World A) :
  scene_only absent → scene_only (in_light d body absent).
Proof.
  intros Habsent r p w. unfold in_light. simpl.
  destruct (lights w !! d) as [l|]; [| apply Habsent].
  by destruct (body l).
Qed.

Lemma scene_only_in_scene_nodes {A} (body : M (list comp_node) A) :
  scene_only (in_scene_nodes body).
Proof.
  intros r p w. unfold in_scene_nodes. simpl.
  destruct (scene_node_tree w) as [ns|]; [| done].
  by destruct (body ns).
Qed.

Lemma scene_only_oblivious {A} (m : M World A) : scene_only m → oblivious m.
Proof.
  intros Hm w1 w2 <-. rewrite Hm. destruct (m w1) as [res w']. simpl.
  split; [done | apply same_scene_reset].
Qed.

(** A scene-only computation leaves the generator state alone. *)
Lemma scene_only_rng {A} (m : M World A) (w : World) :
  scene_only m → rng (m w).2 = rng w.
Proof.
  intros Hm. specialize (Hm (rng w) (preferences w) w).
  assert (Hw : reset (rng w) (preferences w) w = w) by (by destruct w).
  rewrite Hw in Hm. destruct (m w) as [res w']. simpl.
  injection Hm as Hm. rewrite Hm at 1. by destruct w'.
Qed.

Lemma oblivious_bind {A B} (m : M World A) (k : A → M World B) :
  oblivious m → (∀ a, oblivious (k a)) → oblivious (bind m k).
Proof.
  intros Hm Hk w1 w2 Hw. unfold bind. destruct (Hm w1 w2 Hw) as [Hres Hscene].
  destruct (m w1) as [[a|e] w1'], (m w2) as [[a'|e'] w2']; simpl in *; try done.
  - injection Hres as <-. by apply Hk.
  - by injection Hres as <-.
Qed.

Lemma oblivious_configure_gpu : oblivious configure_gpu.
Proof.
  assert (Hgpu : ∀ w, (configure_gpu w).1 = Ok tt ∧ same_scene w (configure_gpu w).2).
  { intros w. unfold configure_gpu, refresh_devices, try_except, bind, gets, modify.
    simpl. destruct (preferences w) as [prefs|]; simpl; [| by destruct w].
    destruct (get_devices _); simpl; (split; [done | by destruct w]). }
  intros w1 w2 Hw.
  destruct (Hgpu w1) as [-> Hs1], (Hgpu w2) as [-> Hs2]. split; [done |].
  exact (same_scene_trans _ _ _ (same_scene_sym _ _ Hs1)
           (same_scene_trans _ _ _ Hw Hs2)).
Qed.
Ltac solve_scene_only :=
  repeat first
    [ progress intros
    | apply scene_only_ret
    | apply scene_only_raise
    | apply scene_only_lift
    | apply scene_only_gets; by intros
    | apply scene_only_modify; by intros
    | apply scene_only_in_scene_nodes
    | apply scene_only_in_material
    | apply scene_only_in_light
    | apply scene_only_for_in
    | apply scene_only_bind
    | case_match ].

Lemma scene_only_configure_traits (recipe : gmap string json) :
  scene_only (configure_traits recipe).
Proof.
  unfold configure_traits, configure_geometry, update_object,
    configure_frame_material, configure_core_material, get_or_new_material,
    assign_material, configure_lights, adjust_key_light, tint_accent_lights, tint_light,
    adjust_emission_plane_strength, on_emission_nodes, configure_atmosphere,
    configure_lens_bloom, apply_palette_temperature, no_attribute.
  solve_scene_only.
Qed.

Lemma scene_only_configure_output (output_settings : gmap string json)
    (output_path : string) :
  scene_only (configure_output output_settings output_path).
Proof. unfold configure_output. solve_scene_only. Qed.

Lemma oblivious_seed_random (seed_hex : string) : oblivious (seed_random seed_hex).
Proof.
  intros w1 w2 Hw. unfold seed_random, bind, lift, modify, ret.
  assert (Hset : ∀ r, same_scene (set_rng r w1) (set_rng r w2)).
  { intros r. unfold same_scene in *. rewrite <- Hw. by destruct w1. }
  destruct (String.prefix "0x" seed_hex), (py_int16 seed_hex); simpl; by auto.
Qed.

Lemma oblivious_configure_render_settings (render_settings : gmap string json) :
  oblivious (configure_render_settings render_settings).
Proof.
  unfold configure_render_settings.
  apply oblivious_bind; [apply scene_only_oblivious; solve_scene_only |].
  intros engine_name.
  apply oblivious_bind; [apply scene_only_oblivious; solve_scene_only |].
  intros _. case_match; [| apply scene_only_oblivious; solve_scene_only].
  apply oblivious_bind; [apply scene_only_oblivious; solve_scene_only |].
  intros _. apply oblivious_bind; [apply oblivious_configure_gpu |].
  intros _. apply scene_only_oblivious. solve_scene_only.
Qed.

Lemma oblivious_configure_scene (recipe : gmap string json) :
  oblivious (configure_scene recipe).
Proof.
  unfold configure_scene.
  do 3 (apply oblivious_bind;
        [apply scene_only_oblivious, scene_only_lift | intros ?]).
  apply oblivious_bind; [apply oblivious_seed_random |].
  intros _. apply scene_only_oblivious, scene_only_configure_traits.
Qed.

Lemma oblivious_render_token (recipe : gmap string json) (output_path : string) :
  oblivious (render_token recipe output_path).
Proof.
  unfold render_token, configure_render.
  apply oblivious_bind; [apply oblivious_configure_scene |]. intros _.
  apply oblivious_bind;
    [| intros _; apply scene_only_oblivious, scene_only_ret].
  do 2 (apply oblivious_bind;
        [apply scene_only_oblivious, scene_only_lift | intros ?]).
  apply oblivious_bind; [apply oblivious_configure_render_settings |]. intros _.
  do 2 (apply oblivious_bind;
        [apply scene_only_oblivious, scene_only_lift | intros ?]).
  apply scene_only_oblivious, scene_only_configure_output.
Qed.

(** Recipes that agree on the fields a phase reads are the same recipe to
    that phase. *)
Lemma configure_scene_agree (recipe1 recipe2 : gmap string json) (w : World) :
  recipe1 !! "houseKey" = recipe2 !! "houseKey" →
  recipe1 !! "traits" = recipe2 !! "traits" →
  recipe1 !! "seed" = recipe2 !! "seed" →
  (is_Some (recipe1 !! "tokenId") ↔ is_Some (recipe2 !! "tokenId")) →
  configure_scene recipe1 w = configure_scene recipe2 w.
Proof.
  intros Hhouse Htraits Hseed Htoken.
  unfold configure_scene, configure_traits, bind, lift, getitem.
  rewrite Hhouse, Htraits, Hseed.
  destruct (recipe1 !! "tokenId") as [t1|], (recipe2 !! "tokenId") as [t2|]; try done.
  - destruct Htoken as [Ht _]. destruct Ht as [? ?]; by eauto.
  - destruct Htoken as [_ Ht]. destruct Ht as [? ?]; by eauto.
Qed.

Lemma configure_render_agree (recipe1 recipe2 : gmap string json)
    (output_path : string) (w : World) :
  recipe1 !! "renderSettings" = recipe2 !! "renderSettings" →
  recipe1 !! "output" = recipe2 !! "output" →
  configure_render recipe1 output_path w = configure_render recipe2 output_path w.
Proof.
  intros Hrender Houtput. unfold configure_render, bind, lift, getitem.
  by rewrite Hrender, Houtput.
Qed.

(** C1. Two executions of the configuration phase, started on the same
    template scene with recipes that agree on houseKey, traits and seed,
    the trait values being strings as a recipe has them (the token id may
    differ, and so may the generator state and the add-on preferences the
    interpreter happens to start with): the seeding and the seven scene
    steps end alike -- same return or same exception, same scene -- and
    with the generator in the state seeded from the recipe; if the
    recipes also agree on renderSettings and output, the whole of
    [render_token] up to the renderer call ends alike. *)
Theorem render_token_deterministic
    (recipe1 recipe2 : gmap string json) (output_path : string) (w1 w2 : World) :
  string_traits recipe1 = true →
  recipe1 !! "houseKey" = recipe2 !! "houseKey" →
  recipe1 !! "traits" = recipe2 !! "traits" →
  recipe1 !! "seed" = recipe2 !! "seed" →
  (is_Some (recipe1 !! "tokenId") ↔ is_Some (recipe2 !! "tokenId")) →
  same_scene w1 w2 →
  ((configure_scene recipe1 w1).1 = (configure_scene recipe2 w2).1
   ∧ same_scene (configure_scene recipe1 w1).2 (configure_scene recipe2 w2).2)
  ∧ (∀ seed_hex n,
       is_Some (recipe1 !! "tokenId") →
       recipe1 !! "seed" = Some (JStr seed_hex) → py_int16 seed_hex = Ok n →
       rng (configure_scene recipe1 w1).2 = random_seed (n mod 2 ^ 32)
       ∧ rng (configure_scene recipe2 w2).2 = random_seed (n mod 2 ^ 32))
  ∧ (recipe1 !! "renderSettings" = recipe2 !! "renderSettings" →
     recipe1 !! "output" = recipe2 !! "output" →
     (render_token recipe1 output_path w1).1 = (render_token recipe2 output_path w2).1
     ∧ same_scene (render_token recipe1 output_path w1).2
         (render_token recipe2 output_path w2).2).
Proof.
  intros _ Hhouse Htraits Hseed Htoken Hw.
  pose proof (configure_scene_agree recipe1 recipe2 w2 Hhouse Htraits Hseed Htoken)
    as Hagree.
  split; [| split].
  - rewrite <- Hagree. by apply oblivious_configure_scene.
  - assert (Hrng : ∀ recipe w seed_hex n,
              is_Some (recipe !! "tokenId") →
              recipe !! "seed" = Some (JStr seed_hex) → py_int16 seed_hex = Ok n →
              rng (configure_scene recipe w).2 = random_seed (n mod 2 ^ 32)).
    { intros recipe w seed_hex n [t Ht] Hs Hn.
      unfold configure_scene, bind at 1, lift, getitem. rewrite Ht.
      unfold bind at 1. rewrite Hs. unfold bind at 1. simpl.
      unfold bind. rewrite (seed_random_run _ _ _ Hn).
      by rewrite (scene_only_rng _ _ (scene_only_configure_traits recipe)). }
    intros seed_hex n Ht Hs Hn. split; [by eapply Hrng |].
    eapply Hrng; [by apply Htoken | by rewrite <- Hseed | done].
  - intros Hrender Houtput.
    assert (Hsame : render_token recipe2 output_path w2
                    = render_token recipe1 output_path w2).
    { unfold render_token, bind. rewrite <- Hagree.
      destruct (configure_scene recipe1 w2) as [[[]|e] w']; [| done].
      by rewrite (configure_render_agree recipe1 recipe2). }
    rewrite Hsame. by apply oblivious_render_token.
Qed.
End Determinism.

Lemma render_token_deterministic_witness :
  string_traits sample_recipe = true
  ∧ sample_recipe !! "houseKey" = sample_recipe_18 !! "houseKey"
  ∧ sample_recipe !! "traits" = sample_recipe_18 !! "traits"
  ∧ sample_recipe !! "seed" = sample_recipe_18 !! "seed"
  ∧ same_scene (H := sample_host) sample_world sample_world_gpu
  ∧ (render_token (H := sample_host) sample_recipe "out.png" sample_world).1
    = (render_token (H := sample_host) sample_recipe_18 "out.png" sample_world_gpu).1
  ∧ (render_token (H := sample_host) sample_recipe "out.png" sample_world).1 = Ok true
  ∧ rng (configure_scene (H := sample_host) sample_recipe_18 sample_world_gpu).2 = 161.
Proof.
  assert (Htoken : is_Some (sample_recipe !! "tokenId")
                   ↔ is_Some (sample_recipe_18 !! "tokenId")).
  { split; intros _; by eexists. }
  pose proof (render_token_deterministic (H := sample_host)
                sample_recipe sample_recipe_18 "out.png" sample_world sample_world_gpu
                eq_refl eq_refl eq_refl eq_refl Htoken eq_refl) as (_ & Hrng & Hrender).
  split_and!; [reflexivity | reflexivity | reflexivity | reflexivity | reflexivity | | | ].
  - apply (Hrender eq_refl eq_refl).
  - vm_compute. reflexivity.
  - apply (Hrng "0xA1" 161); [by eexists | reflexivity | reflexivity].
Defined.

(** * Further properties of the script *)

(** ** Loading and the command line *)

Lemma check_fields_first (fields : list string) (recipe : gmap string json) (f : string) :
  check_fields fields recipe = Raise (missing_field f) →
  ∃ before after, fields = (before ++ f :: after)%list
                  ∧ (∀ g, g ∈ before → is_Some (recipe !! g))
                  ∧ recipe !! f = None.
Proof.
  induction fields as [|g fields IH]; simpl; [done |].
  destruct (recipe !! g) as [v|] eqn:Hg.
  - intros (before & after & -> & Hbefore & Hf)%IH.
    exists (g :: before), after. split_and!; [done | | done].
    intros h [->|Hh]%elem_of_cons; [by rewrite Hg | by apply Hbefore].
  - intros Hraise. assert (missing_field g = missing_field f) as Hgf by congruence.
    apply missing_field_inj in Hgf as ->.
    exists [], fields. split_and!; [done | | done].
    intros h Hh. by apply elem_of_nil in Hh.
Qed.

Lemma check_fields_presence (fields : list string) (recipe1 recipe2 : gmap string json) :
  (∀ f, f ∈ fields → (is_Some (recipe1 !! f) ↔ is_Some (recipe2 !! f))) →
  check_fields fields recipe1 = check_fields fields recipe2.
Proof.
  induction fields as [|g fields IH]; intros Hsame; simpl; [done |].
  assert (Hg : is_Some (recipe1 !! g) ↔ is_Some (recipe2 !! g))
    by (apply Hsame; by left).
  destruct (recipe1 !! g) as [v1|], (recipe2 !! g) as [v2|].
  - apply IH. intros f Hf. apply Hsame. by right.
  - destruct Hg as [Hg _]. by destruct Hg.
  - destruct Hg as [_ Hg]. by destruct Hg.
  - done.
Qed.

(** X1. The field that [load_recipe] names is the first one missing in
    the order tokenId, houseKey, seed, traits, output, renderSettings:
    every required field listed before it is present.  Validation looks
    at presence only: two recipes with the same required fields present
    are both accepted or both rejected with the same message, whatever
    the values and whatever else they hold. *)
Theorem load_recipe_first_missing
    (fs : gmap string file) (recipe_path : string) (recipe : gmap string json) :
  fs !! recipe_path = Some (Document recipe) →
  (∀ f, load_recipe fs recipe_path = Raise (missing_field f) →
     ∃ before after, required_fields = (before ++ f :: after)%list
                     ∧ (∀ g, g ∈ before → is_Some (recipe !! g))
                     ∧ recipe !! f = None)
  ∧ (∀ fs' path' recipe',
       fs' !! path' = Some (Document recipe') →
       (∀ f, f ∈ required_fields →
             (is_Some (recipe !! f) ↔ is_Some (recipe' !! f))) →
       match load_recipe fs recipe_path, load_recipe fs' path' with
       | Ok r, Ok r' => r = recipe ∧ r' = recipe'
       | Raise e, Raise e' => e = e'
       | _, _ => False
       end).
Proof.
  intros Hfile. split.
  - intros f. unfold load_recipe. rewrite Hfile.
    destruct (check_fields required_fields recipe) as [[]|e] eqn:Hc; [done |].
    intros [= ->]. by apply check_fields_first.
  - intros fs' path' recipe' Hfile' Hsame. unfold load_recipe.
    rewrite Hfile, Hfile'.
    rewrite <- (check_fields_presence _ _ _ Hsame).
    by destruct (check_fields required_fields recipe) as [[]|e].
Qed.

Lemma load_recipe_first_missing_witness :
  let recipe := delete "output" (delete "seed" sample_recipe) in
  let fs : gmap string file := {[ "recipe.json" := Document recipe ]} in
  fs !! "recipe.json" = Some (Document recipe)
  ∧ load_recipe fs "recipe.json" = Raise (missing_field "seed")
  ∧ ∃ before after, required_fields = (before ++ "seed" :: after)%list
                    ∧ (∀ g, g ∈ before → is_Some (recipe !! g)).
Proof.
  intros recipe fs.
  split_and!; [reflexivity | reflexivity |].
  destruct (proj1 (load_recipe_first_missing fs "recipe.json" recipe eq_refl)
              "seed" eq_refl) as (before & after & Heq & Hbefore & _).
  by exists before, after.
Defined.

Lemma after_dashes_some (argv rest : list string) :
  after_dashes argv = Some rest ↔
  ∃ pre, argv = (pre ++ "--" :: rest)%list ∧ "--" ∉ pre.
Proof.
  induction argv as [|arg argv IH]; simpl.
  - split; [done |]. intros (pre & Heq & _). by destruct pre.
  - destruct (String.eqb arg "--") eqn:Harg.
    + apply String.eqb_eq in Harg as ->. split.
      * intros [= ->]. exists []. split; [done | apply not_elem_of_nil].
      * intros (pre & Heq & Hpre). destruct pre as [|p pre]; simpl in Heq.
        -- by injection Heq as ->.
        -- injection Heq as <- _. exfalso. apply Hpre. by left.
    + apply String.eqb_neq in Harg. rewrite IH. split.
      * intros (pre & -> & Hpre). exists (arg :: pre). split; [done |].
        intros [Heq|?]%elem_of_cons; [by subst | done].
      * intros (pre & Heq & Hpre). destruct pre as [|p pre]; simpl in Heq.
        -- by injection Heq as ->.
        -- injection Heq as -> ->. exists pre. split; [done |].
           intros Hin. apply Hpre. by right.
Qed.

Lemma after_dashes_none (argv : list string) :
  after_dashes argv = None ↔ "--" ∉ argv.
Proof.
  induction argv as [|arg argv IH]; simpl.
  - split; [intros _; apply not_elem_of_nil | done].
  - destruct (String.eqb arg "--") eqn:Harg.
    + apply String.eqb_eq in Harg as ->. split; [done |].
      intros Hnot. exfalso. apply Hnot. by left.
    + apply String.eqb_neq in Harg. rewrite IH. split.
      * intros Hnot [Heq|?]%elem_of_cons; [by subst | done].
      * intros Hnot Hin. apply Hnot. by right.
Qed.

Section CommandLine.
Context `{Host}.

(** X2. [main] takes its two arguments from behind the first ["--"]:
    without a ["--"], or with fewer than two arguments behind the first
    one, it exits with status 1 and the world untouched, whatever the
    files; what stands before the ["--"] and behind the second argument
    is ignored. *)
Theorem main_arguments
    (argv : list string) (fs : gmap string file) (w : World) :
  ("--" ∉ argv → main argv fs w = (Raise (SystemExit 1), w))
  ∧ (∀ pre rest, argv = (pre ++ "--" :: rest)%list → "--" ∉ pre →
       (length rest < 2)%nat → main argv fs w = (Raise (SystemExit 1), w))
  ∧ (∀ pre recipe_path output_path extra,
       argv = (pre ++ "--" :: recipe_path :: output_path :: extra)%list →
       "--" ∉ pre →
       main argv fs w = main ["--"; recipe_path; output_path] fs w).
Proof.
  split_and!.
  - intros Hnone%after_dashes_none. unfold main. by rewrite Hnone.
  - intros pre rest Hargv Hpre Hlen.
    assert (Hsome : after_dashes argv = Some rest)
      by (apply after_dashes_some; by exists pre).
    unfold main. rewrite Hsome.
    destruct rest as [|a [|b rest]]; simpl in Hlen; [done | done | lia].
  - intros pre recipe_path output_path extra Hargv Hpre.
    assert (Hsome : after_dashes argv = Some (recipe_path :: output_path :: extra))
      by (apply after_dashes_some; by exists pre).
    unfold main. rewrite Hsome. done.
Qed.

Lemma render_token_returns_true (recipe : gmap string json) (output_path : string)
    (w w' : World) (success : bool) :
  render_token recipe output_path w = (Ok success, w') → success = true.
Proof.
  unfold render_token, bind, ret.
  destruct (configure_scene recipe w) as [[[]|e] w1]; [| done].
  destruct (configure_render recipe output_path w1) as [[[]|e] w2]; [| done].
  by intros [= <- _].
Qed.

(** X3. Once the arguments are in place and the recipe has loaded, [main]
    is [render_token]: it returns when that returns and otherwise passes
    its exception on, each time with the world [render_token] left; the
    exit with status 1 that guards a false result is never taken. *)
Theorem main_follows_render_token
    (argv pre extra : list string) (recipe_path output_path : string)
    (fs : gmap string file) (recipe : gmap string json) (w : World) :
  argv = (pre ++ "--" :: recipe_path :: output_path :: extra)%list →
  "--" ∉ pre →
  load_recipe fs recipe_path = Ok recipe →
  main argv fs w
  = match render_token recipe output_path w with
    | (Ok _, w') => (Ok tt, w')
    | (Raise e, w') => (Raise e, w')
    end.
Proof.
  intros Hargv Hpre Hload.
  assert (Hsome : after_dashes argv = Some (recipe_path :: output_path :: extra))
    by (apply after_dashes_some; by exists pre).
  unfold main. rewrite Hsome. unfold bind at 1, lift. rewrite Hload.
  unfold bind.
  destruct (render_token recipe output_path w) as [[success|e] w'] eqn:Hrun; [| done].
  by rewrite (render_token_returns_true _ _ _ _ _ Hrun).
Qed.
End CommandLine.

Ltac not_in_list :=
  let Hin := fresh "Hin" in
  intros Hin;
  repeat (apply elem_of_cons in Hin as [Hin | Hin]; [discriminate Hin |]);
  by apply elem_of_nil in Hin.

Lemma main_arguments_witness :
  let fs : gmap string file := {[ "recipe.json" := Document sample_recipe ]} in
  ("--" ∉ ["blender"; "-b"; "recipe.json"; "out.png"])
  ∧ main (H := sample_host) ["blender"; "-b"; "recipe.json"; "out.png"] fs sample_world
    = (Raise (SystemExit 1), sample_world)
  ∧ main (H := sample_host) ["blender"; "--"; "recipe.json"] fs sample_world
    = (Raise (SystemExit 1), sample_world)
  ∧ main (H := sample_host) ["blender"; "--"; "recipe.json"; "out.png"; "more"] fs
      sample_world
    = main (H := sample_host) ["--"; "recipe.json"; "out.png"] fs sample_world.
Proof.
  intros fs.
  assert (Hnone : "--" ∉ ["blender"; "-b"; "recipe.json"; "out.png"]) by not_in_list.
  assert (Hpre : "--" ∉ ["blender"]) by not_in_list.
  split_and!; [exact Hnone | | |].
  - exact (proj1 (main_arguments (H := sample_host) _ fs sample_world) Hnone).
  - exact (proj1 (proj2 (main_arguments (H := sample_host) _ fs sample_world))
             ["blender"] ["recipe.json"] eq_refl Hpre (le_n 2)).
  - exact (proj2 (proj2 (main_arguments (H := sample_host) _ fs sample_world))
             ["blender"] "recipe.json" "out.png" ["more"] eq_refl Hpre).
Defined.

Lemma main_follows_render_token_witness :
  let fs : gmap string file := {[ "recipe.json" := Document sample_recipe ]} in
  load_recipe fs "recipe.json" = Ok sample_recipe
  ∧ (main (H := sample_host) ["blender"; "--"; "recipe.json"; "out.png"] fs
       sample_world).1 = Ok tt.
Proof.
  intros fs. split; [reflexivity |].
  assert (Hpre : "--" ∉ ["blender"]) by not_in_list.
  pose proof (main_follows_render_token (H := sample_host)
                ["blender"; "--"; "recipe.json"; "out.png"] ["blender"] []
                "recipe.json" "out.png" fs sample_recipe sample_world
                eq_refl Hpre eq_refl) as Hmain.
  rewrite Hmain. vm_compute. reflexivity.
Defined.

(** ** Seeds *)

Lemma hex_digit_plain (c : ascii) :
  is_Some (hex_digit c) →
  is_space c = false ∧ Ascii.eqb c "+" = false ∧ Ascii.eqb c "-" = false
  ∧ Ascii.eqb c "_" = false ∧ Ascii.eqb c "x" = false ∧ Ascii.eqb c "X" = false.
Proof.
  destruct c as [[] [] [] [] [] [] [] []]; vm_compute; intros [d Hd];
    first [discriminate Hd | done].
Qed.

Lemma scan_hex_digits (s : string) (acc : Z) (seen : bool) :
  hex_digits s = true →
  scan_digits s acc seen false
  = Some (hex_value s acc, seen || negb (String.eqb s ""), "").
Proof.
  revert acc seen. induction s as [|c rest IH]; intros acc seen; simpl.
  - intros _. by rewrite orb_false_r.
  - destruct (hex_digit c) as [d|] eqn:Hd; [| done]. intros Hrest.
    destruct (hex_digit_plain c) as (_ & _ & _ & -> & _); [by rewrite Hd |].
    rewrite IH by done. simpl. by rewrite orb_true_r.
Qed.

Lemma parse_hex_digits (digits : string) :
  digits ≠ "" → hex_digits digits = true →
  parse_hex digits = Some (hex_value digits 0)
  ∧ parse_hex ("0x" +:+ digits) = Some (hex_value digits 0).
Proof.
  intros Hne Hd. destruct digits as [|c rest]; [done |].
  pose proof Hd as Hc. simpl in Hc.
  destruct (hex_digit c) as [dv|] eqn:Hdig; [| done].
  destruct (hex_digit_plain c) as (Hsp & Hplus & Hminus & Hus & Hx & HX);
    [by rewrite Hdig |].
  assert (Hstrip : strip_0x (String c rest) = String c rest).
  { destruct rest as [|c1 rest1]; [done |]. simpl in Hc.
    destruct (hex_digit c1) eqn:H1; [| done].
    destruct (hex_digit_plain c1) as (_ & _ & _ & _ & Hx1 & HX1); [by rewrite H1 |].
    simpl. rewrite Hx1, HX1. by rewrite andb_false_r. }
  pose proof (scan_hex_digits (String c rest) 0 false Hd) as Hscan.
  split.
  - unfold parse_hex. cbn [skip_space]. rewrite Hsp.
    unfold strip_sign. rewrite Hplus, Hminus. rewrite Hstrip, Hus, Hscan. done.
  - assert (Hpre : strip_0x (String "0" (String "x" (String c rest))) = String c rest).
    { cbn. by rewrite Hus. }
    change ("0x" +:+ String c rest) with (String "0" (String "x" (String c rest))).
    unfold parse_hex.
    change (skip_space (String "0" (String "x" (String c rest))))
      with (String "0" (String "x" (String c rest))).
    change (strip_sign (String "0" (String "x" (String c rest))))
      with (false, String "0" (String "x" (String c rest))).
    cbv beta iota zeta. rewrite Hpre, Hus, Hscan. done.
Qed.

Section SeedingOutcomes.
Context `{Host}.

(** X4. [seed_random] either parses the seed or fails before it touches
    anything: on a seed that [int(s, 16)] rejects it raises the
    [ValueError] and the world, generator included, is as before; on a
    seed of value [n] it returns [n] itself, and installs the generator
    state of the key [n mod 2^32], which lies in [0, 2^32) also for a
    negative seed; nothing but the generator is written. *)
Theorem seed_random_outcomes (seed_hex : string) (w : World) :
  match parse_hex seed_hex with
  | Some n =>
      seed_random seed_hex w = (Ok n, set_rng (random_seed (n mod 2 ^ 32)) w)
      ∧ 0 <= n mod 2 ^ 32 < 2 ^ 32
  | None =>
      seed_random seed_hex w
      = (Raise (ValueError ("invalid literal for int() with base 16: " +:+ seed_hex)), w)
  end.
Proof.
  unfold seed_random, bind, lift, modify, ret, py_int16.
  destruct (parse_hex seed_hex) as [n|].
  - split; [by destruct (String.prefix "0x" seed_hex) | by apply Z.mod_pos_bound].
  - by destruct (String.prefix "0x" seed_hex).
Qed.

(** X5. The ["0x"] prefix of a seed is optional: for a non-empty string
    of hexadecimal digits, seeding with the digits and seeding with
    ["0x"] in front of them do the same, and both return the number the
    digits spell. *)
Theorem seed_prefix_optional (digits : string) (w : World) :
  digits ≠ "" → hex_digits digits = true →
  seed_random ("0x" +:+ digits) w = seed_random digits w
  ∧ (seed_random digits w).1 = Ok (hex_value digits 0).
Proof.
  intros Hne Hd. destruct (parse_hex_digits digits Hne Hd) as [Hplain Hprefixed].
  assert (Hrun : ∀ s, parse_hex s = Some (hex_value digits 0) →
            seed_random s w
            = (Ok (hex_value digits 0),
               set_rng (random_seed (hex_value digits 0 mod 2 ^ 32)) w)).
  { intros s Hs. apply seed_random_run. unfold py_int16. by rewrite Hs. }
  rewrite (Hrun _ Hplain), (Hrun _ Hprefixed). done.
Qed.
End SeedingOutcomes.

Lemma seed_prefix_optional_witness :
  "A1" ≠ "" ∧ hex_digits "A1" = true
  ∧ seed_random (H := sample_host) "0xA1" sample_world
    = seed_random (H := sample_host) "A1" sample_world
  ∧ (seed_random (H := sample_host) "A1" sample_world).1 = Ok 161.
Proof.
  assert (Hne : "A1" ≠ "") by done.
  pose proof (seed_prefix_optional (H := sample_host) "A1" sample_world Hne eq_refl)
    as [Hsame Hvalue].
  split_and!; [exact Hne | reflexivity | exact Hsame | exact Hvalue].
Defined.

(** ** Table lookups *)

Lemma clear_crystal_entry :
  core_materials !! "ClearCrystal"
  = Some (mk_core (0.98, 0.99, 1.0) (Some 0.95) 0.02 None None)%float.
Proof. reflexivity. Qed.

Lemma sunbeam_entry :
  signatures !! "Sunbeam" = Some (mk_signature 1.2 (1.0, 0.95, 0.85))%float.
Proof. reflexivity. Qed.

Lemma pristine_entry : aging_params !! "Pristine" = Some (mk_aging 0).
Proof. reflexivity. Qed.

Lemma core_materials_transmission (k : string) (p : core_params) :
  core_materials !! k = Some p → is_Some (core_transmission p).
Proof.
  intros Hk. apply elem_of_list_to_map_2 in Hk.
  repeat (apply elem_of_cons in Hk as [[= -> ->] | Hk]; [by eexists |]).
  by apply elem_of_nil in Hk.
Qed.

(** X6. The core, signature and aging lookups never raise, and a name
    that is not a key resolves to the entry of ClearCrystal, Sunbeam and
    Pristine respectively; every core bundle the lookup can return
    carries a transmission, so the 0.0 the core step would put in its
    place is never used. *)
Theorem core_and_signature_fallbacks (name : string) :
  (core_materials !! name = None →
   get_core_material_params name
   = Ok (mk_core (0.98, 0.99, 1.0) (Some 0.95) 0.02 None None)%float)
  ∧ (signatures !! name = None →
     get_light_signature_params name = Ok (mk_signature 1.2 (1.0, 0.95, 0.85))%float)
  ∧ (aging_params !! name = None →
     get_or_entry aging_params name "Pristine" = Ok (mk_aging 0))
  ∧ (∃ p, get_core_material_params name = Ok p ∧ is_Some (core_transmission p))
  ∧ (∃ p, get_light_signature_params name = Ok p)
  ∧ (∃ a, get_or_entry aging_params name "Pristine" = Ok a).
Proof.
  split_and!.
  - intros Hnone. by apply get_or_entry_unknown; [apply clear_crystal_entry |].
  - intros Hnone. by apply get_or_entry_unknown; [apply sunbeam_entry |].
  - intros Hnone. by apply get_or_entry_unknown; [apply pristine_entry |].
  - unfold get_core_material_params.
    rewrite (get_or_entry_ok _ _ _ _ clear_crystal_entry). eexists. split; [done |].
    unfold get. destruct (core_materials !! name) as [p|] eqn:Hp; simpl.
    + by eapply core_materials_transmission.
    + by eexists.
  - apply get_or_entry_total. rewrite sunbeam_entry. by eexists.
  - apply get_or_entry_total. rewrite pristine_entry. by eexists.
Qed.

Lemma core_and_signature_fallbacks_witness :
  core_materials !! "Unobtainium" = None
  ∧ signatures !! "Moonbeam" = None
  ∧ aging_params !! "Rusted" = None
  ∧ get_core_material_params "Unobtainium" = get_core_material_params "ClearCrystal"
  ∧ get_light_signature_params "Moonbeam" = get_light_signature_params "Sunbeam"
  ∧ get_or_entry aging_params "Rusted" "Pristine"
    = get_or_entry aging_params "Pristine" "Pristine".
Proof.
  pose proof (core_and_signature_fallbacks "Unobtainium") as (Hcore & _).
  pose proof (core_and_signature_fallbacks "Moonbeam") as (_ & Hsig & _).
  pose proof (core_and_signature_fallbacks "Rusted") as (_ & _ & Haging & _).
  split_and!; [reflexivity | reflexivity | reflexivity | | |].
  - rewrite (Hcore eq_refl). reflexivity.
  - rewrite (Hsig eq_refl). reflexivity.
  - rewrite (Haging eq_refl). reflexivity.
Defined.

Lemma house_defaults_in_signatures (k sig : string) :
  house_defaults !! k = Some sig → is_Some (signatures !! sig).
Proof.
  intros Hk. apply elem_of_list_to_map_2 in Hk.
  repeat (apply elem_of_cons in Hk as [[= -> ->] | Hk]; [by eexists |]).
  by apply elem_of_nil in Hk.
Qed.

(** X7. How [configure_lights] picks the signature: a non-empty
    LightSignature trait is taken as it is and the house key is not
    looked at (it may even be unhashable); an absent or empty trait
    defers to the house table; a house that is not in the table gets
    Sunbeam; every signature the house table names is a key of the
    signature table; and with a house key that is not a list or an
    object the parameters always resolve. *)
Theorem resolve_light_signature_precedence
    (traits : gmap string string) (house_key : json) :
  (∀ sig, traits !! "LightSignature" = Some sig → sig ≠ "" →
     resolve_light_signature traits house_key = Ok sig)
  ∧ (traits !! "LightSignature" = None ∨ traits !! "LightSignature" = Some "" →
     resolve_light_signature traits house_key = house_default house_key)
  ∧ (∀ k, house_defaults !! k = None → house_default (JStr k) = Ok "Sunbeam")
  ∧ (∀ k sig, house_defaults !! k = Some sig →
       house_default (JStr k) = Ok sig ∧ is_Some (signatures !! sig))
  ∧ ((∀ items, house_key ≠ JArr items) → (∀ fields, house_key ≠ JObj fields) →
     ∃ params, light_params traits house_key = Ok params).
Proof.
  split_and!.
  - intros sig Hsig Hne. unfold resolve_light_signature. rewrite Hsig.
    apply String.eqb_neq in Hne. by rewrite Hne.
  - intros [Hnone | Hempty]; unfold resolve_light_signature.
    + by rewrite Hnone.
    + by rewrite Hempty.
  - intros k Hk. unfold house_default, get. by rewrite Hk.
  - intros k sig Hk. split; [| by eapply house_defaults_in_signatures].
    unfold house_default, get. by rewrite Hk.
  - intros Harr Hobj. unfold light_params.
    assert (Hhouse : ∃ sig, house_default house_key = Ok sig).
    { destruct house_key; simpl; try (by eexists).
      - by destruct (Harr items).
      - by destruct (Hobj fields). }
    assert (Hsig : ∃ sig, resolve_light_signature traits house_key = Ok sig).
    { unfold resolve_light_signature.
      destruct (traits !! "LightSignature") as [sig|]; [| done].
      destruct (String.eqb sig ""); [done | by eexists]. }
    destruct Hsig as [sig ->]. apply get_or_entry_total.
    rewrite sunbeam_entry. by eexists.
Qed.

Lemma resolve_light_signature_precedence_witness :
  let named : gmap string string := {[ "LightSignature" := "RingRim" ]} in
  let blank : gmap string string := {[ "LightSignature" := "" ]} in
  named !! "LightSignature" = Some "RingRim"
  ∧ "RingRim" ≠ ""
  ∧ blank !! "LightSignature" = Some ""
  ∧ house_defaults !! "ATLANTIS" = None
  ∧ house_defaults !! "FROST" = Some "PolarGlow"
  ∧ resolve_light_signature named (JArr []) = Ok "RingRim"
  ∧ resolve_light_signature blank (JStr "FROST") = Ok "PolarGlow"
  ∧ resolve_light_signature blank (JStr "ATLANTIS") = Ok "Sunbeam"
  ∧ ∃ params, light_params blank JNull = Ok params.
Proof.
  intros named blank.
  assert (Hne : "RingRim" ≠ "") by done.
  pose proof (resolve_light_signature_precedence named (JArr []))
    as (Hnamed & _).
  pose proof (resolve_light_signature_precedence blank (JStr "FROST"))
    as (_ & Hfrost & _ & Hknown & _).
  pose proof (resolve_light_signature_precedence blank (JStr "ATLANTIS"))
    as (_ & Hblank & Hunknown & _).
  pose proof (resolve_light_signature_precedence blank JNull)
    as (_ & _ & _ & _ & Hnull).
  split_and!; [reflexivity | exact Hne | reflexivity | reflexivity | reflexivity | | | |].
  - exact (Hnamed "RingRim" eq_refl Hne).
  - rewrite (Hfrost (or_intror eq_refl)).
    exact (proj1 (Hknown "FROST" "PolarGlow" eq_refl)).
  - rewrite (Hblank (or_intror eq_refl)). exact (Hunknown "ATLANTIS" eq_refl).
  - apply Hnull; intros; discriminate.
Defined.

Section LightsAgain.
Context `{Host}.

(** The energy of a true key light after [configure_lights], and the
    objects, which the step does not write. *)
Lemma configure_lights_key_energy
    (traits : gmap string string) (house_key : json) (params : signature)
    (w : World) (d : string) (l : light) :
  light_params traits house_key = Ok params →
  light_data w "Light_Key" = Some d → lights w !! d = Some l →
  objects (configure_lights traits house_key w).2 = objects w
  ∧ ∃ l', lights (configure_lights traits house_key w).2 !! d = Some l'
          ∧ energy l' = (energy l * energy_mult params)%float.
Proof.
  intros Hp Hkey Hl.
  pose proof (configure_lights_split _ _ _ w Hp) as Htint.
  destruct (adjust_key_light_frame params w) as (Hw1 & Hl1 & _).
  set (w1 := (adjust_key_light params w).2) in *.
  set (w' := (configure_lights traits house_key w).2) in *.
  assert (Hobj1 : objects w1 = objects w).
  { transitivity
      (objects (set_lights (λ _, lights w) (set_materials (λ _, materials w) w1)));
      [by destruct w1 | by rewrite Hw1]. }
  split; [by rewrite (recolored_objects _ _ _ Htint) |].
  destruct Htint as [_ Hl']. specialize (Hl' d).
  rewrite Hl1, Hkey, lookup_alter in Hl'.
  rewrite decide_True in Hl' by done. rewrite Hl in Hl'. simpl in Hl'.
  destruct (lights w' !! d) as [l'|]; [| done].
  exists l'. split; [done |]. by destruct Hl' as [-> _].
Qed.

(** X8. [configure_lights] scales the key light relative to what it
    finds, so it compounds: run twice on a scene whose key light is a
    true light, it leaves the energy multiplied by the signature's
    factor twice. *)
Theorem configure_lights_compounds
    (traits : gmap string string) (house_key : json) (params : signature)
    (w : World) (d : string) (l : light) :
  light_params traits house_key = Ok params →
  light_data w "Light_Key" = Some d → lights w !! d = Some l →
  ∃ l2,
    lights (configure_lights traits house_key
              (configure_lights traits house_key w).2).2 !! d = Some l2
    ∧ energy l2 = (energy l * energy_mult params * energy_mult params)%float.
Proof.
  intros Hp Hkey Hl.
  destruct (configure_lights_key_energy _ _ _ w d l Hp Hkey Hl)
    as (Hobj & l1 & Hl1 & He1).
  set (w1 := (configure_lights traits house_key w).2) in *.
  assert (Hkey1 : light_data w1 "Light_Key" = Some d).
  { unfold light_data in *. by rewrite Hobj. }
  destruct (configure_lights_key_energy _ _ _ w1 d l1 Hp Hkey1 Hl1)
    as (_ & l2 & Hl2 & He2).
  exists l2. split; [done |]. by rewrite He2, He1.
Qed.
End LightsAgain.

Lemma configure_lights_compounds_witness :
  light_params ∅ (JStr "THUNDER") = Ok (mk_signature 1.5 (0.7, 0.85, 1.0))%float
  ∧ light_data (H := sample_host) sample_world_lamp "Light_Key" = Some "Light_Key"
  ∧ energy <$> lights (configure_lights (H := sample_host) ∅ (JStr "THUNDER")
                         (configure_lights (H := sample_host) ∅ (JStr "THUNDER")
                            sample_world_lamp).2).2 !! "Light_Key"
    = Some 2250%float.
Proof.
  assert (Hp : light_params ∅ (JStr "THUNDER")
               = Ok (mk_signature 1.5 (0.7, 0.85, 1.0))%float) by reflexivity.
  assert (Hkey : light_data (H := sample_host) sample_world_lamp "Light_Key"
                 = Some "Light_Key") by reflexivity.
  assert (Hl : lights sample_world_lamp !! "Light_Key"
               = Some (mk_light 1000 (1, 1, 1)%float)) by reflexivity.
  split_and!; [exact Hp | exact Hkey |].
  destruct (configure_lights_compounds (H := sample_host) ∅ (JStr "THUNDER") _
              sample_world_lamp "Light_Key" _ Hp Hkey Hl) as (l2 & Hl2 & He2).
  rewrite Hl2. simpl. rewrite He2. reflexivity.
Defined.

(** ** Geometry, run after run *)

Section GeometryAgain.
Context `{Host}.

Lemma set_objects_compose (f g : gmap string object → gmap string object) (w : World) :
  set_objects f (set_objects g w) = set_objects (λ m, f (g m)) w.
Proof. done. Qed.

Lemma set_objects_ext (f g : gmap string object → gmap string object) (w : World) :
  f (objects w) = g (objects w) → set_objects f w = set_objects g w.
Proof. intros Hfg. unfold set_objects. by rewrite Hfg. Qed.

Lemma configure_geometry_run (traits : gmap string string) (w : World) :
  configure_geometry traits w
  = (Ok tt,
     set_objects
       (λ m, alter show ("Geo_" +:+ get traits "DioramaGeometry" "Sphere")
               (foldl (λ m n, alter hide n m) m geometry_objects)) w).
Proof.
  unfold configure_geometry, bind.
  by rewrite for_in_update_object, update_object_run, set_objects_compose.
Qed.

Lemma lookup_selected (target name : string) (m : gmap string object) :
  alter show target (foldl (λ m n, alter hide n m) m geometry_objects) !! name
  = if decide (name = target) then show <$> m !! name
    else if decide (name ∈ geometry_objects) then hide <$> m !! name
    else m !! name.
Proof.
  rewrite lookup_alter, !lookup_foldl_alter by done.
  destruct (decide (target = name)) as [->|Hne].
  - rewrite (decide_True (P := name = name)) by done.
    case_decide; [| done]. by destruct (m !! name).
  - by rewrite (decide_False (P := name = target)) by done.
Qed.

(** X9. [configure_geometry] always returns; it writes objects only, it
    never changes which data block an object has nor creates or removes
    an object, and an object that is neither one of the six variants nor
    the selected one is exactly as before. *)
Theorem configure_geometry_frame (traits : gmap string string) (w : World) :
  (configure_geometry traits w).1 = Ok tt
  ∧ set_objects (λ _, objects w) (configure_geometry traits w).2 = w
  ∧ (∀ name, data <$> objects (configure_geometry traits w).2 !! name
             = data <$> objects w !! name)
  ∧ (∀ name, name ∉ geometry_objects →
       name ≠ "Geo_" +:+ get traits "DioramaGeometry" "Sphere" →
       objects (configure_geometry traits w).2 !! name = objects w !! name).
Proof.
  rewrite configure_geometry_run. cbn [fst snd]. split_and!.
  - done.
  - by destruct w.
  - intros name. cbn [set_objects objects]. rewrite lookup_selected.
    repeat case_decide; by destruct (objects w !! name).
  - intros name Hgeo Htarget. cbn [set_objects objects]. rewrite lookup_selected.
    by rewrite decide_False, decide_False.
Qed.

(** X10. Running [configure_geometry] again with the same traits changes
    nothing, and of two runs the later one decides: when the variant the
    first run selected is one of the six names, or does not exist, the
    second run leaves the world it would have left without the first. *)
Theorem configure_geometry_last_wins (traits1 traits2 : gmap string string) (w : World) :
  configure_geometry traits1 (configure_geometry traits1 w).2
  = configure_geometry traits1 w
  ∧ ("Geo_" +:+ get traits1 "DioramaGeometry" "Sphere" ∈ geometry_objects
     ∨ objects w !! ("Geo_" +:+ get traits1 "DioramaGeometry" "Sphere") = None →
     configure_geometry traits2 (configure_geometry traits1 w).2
     = configure_geometry traits2 w).
Proof.
  rewrite !configure_geometry_run. cbn [snd].
  set (t1 := "Geo_" +:+ get traits1 "DioramaGeometry" "Sphere").
  set (t2 := "Geo_" +:+ get traits2 "DioramaGeometry" "Sphere").
  split.
  - rewrite set_objects_compose. f_equal. apply set_objects_ext.
    apply map_eq. intros name. rewrite !lookup_selected.
    repeat case_decide; by destruct (objects w !! name).
  - intros Hfirst. rewrite set_objects_compose. f_equal. apply set_objects_ext.
    apply map_eq. intros name. rewrite !lookup_selected.
    destruct (decide (name = t2)) as [->|Hne2].
    + repeat case_decide; by destruct (objects w !! t2).
    + destruct (decide (name ∈ geometry_objects)) as [Hin|Hnin].
      * repeat case_decide; by destruct (objects w !! name).
      * case_decide as H1; [| done]. subst name.
        destruct Hfirst as [Hin | Hnone]; [done | by rewrite Hnone].
Qed.

(** X11. The hiding loop knows six names only.  A variant object outside
    them that one run has shown stays shown when a later run selects
    another variant: two variants are then visible together. *)
Theorem configure_geometry_unlisted_stays_shown
    (traits1 traits2 : gmap string string) (w : World) (o : object) :
  "Geo_" +:+ get traits1 "DioramaGeometry" "Sphere" ∉ geometry_objects →
  get traits1 "DioramaGeometry" "Sphere" ≠ get traits2 "DioramaGeometry" "Sphere" →
  objects w !! ("Geo_" +:+ get traits1 "DioramaGeometry" "Sphere") = Some o →
  objects (configure_geometry traits2 (configure_geometry traits1 w).2).2
    !! ("Geo_" +:+ get traits1 "DioramaGeometry" "Sphere") = Some (show o).
Proof.
  intros Hnin Hne Ho. rewrite !configure_geometry_run. cbn [snd set_objects objects].
  rewrite !lookup_selected.
  rewrite (decide_False (P := _ = "Geo_" +:+ get traits2 _ _)).
  - rewrite decide_False by done. rewrite decide_True by done. by rewrite Ho.
  - intros Heq. apply Hne. by simplify_eq.
Qed.
End GeometryAgain.

Lemma configure_geometry_last_wins_witness :
  let cube : gmap string string := {[ "DioramaGeometry" := "Cube" ]} in
  let prism : gmap string string := {[ "DioramaGeometry" := "Prism" ]} in
  ("Geo_" +:+ get cube "DioramaGeometry" "Sphere" ∈ geometry_objects)
  ∧ configure_geometry (H := sample_host) prism
      (configure_geometry (H := sample_host) cube sample_world).2
    = configure_geometry (H := sample_host) prism sample_world
  ∧ visible_geometry
      (configure_geometry (H := sample_host) prism
         (configure_geometry (H := sample_host) cube sample_world).2).2
    = ["Geo_Prism"].
Proof.
  intros cube prism.
  assert (Hin : "Geo_" +:+ get cube "DioramaGeometry" "Sphere" ∈ geometry_objects).
  { change ("Geo_Cube" ∈ geometry_objects). unfold geometry_objects.
    apply elem_of_cons; right. apply elem_of_cons; right. apply elem_of_cons; by left. }
  pose proof (proj2 (configure_geometry_last_wins (H := sample_host) cube prism
                       sample_world) (or_introl Hin)) as Hlast.
  split_and!; [exact Hin | exact Hlast |].
  rewrite Hlast. reflexivity.
Defined.

Lemma configure_geometry_unlisted_stays_shown_witness :
  let torus : gmap string string := {[ "DioramaGeometry" := "Torus" ]} in
  let cube : gmap string string := {[ "DioramaGeometry" := "Cube" ]} in
  ("Geo_Torus" ∉ geometry_objects)
  ∧ objects sample_world_torus !! "Geo_Torus"
    = Some (mk_object (ObMesh "Geo_Torus") true true)
  ∧ objects (configure_geometry (H := sample_host) cube
               (configure_geometry (H := sample_host) torus sample_world_torus).2).2
      !! "Geo_Torus" = Some (mk_object (ObMesh "Geo_Torus") false false)
  ∧ visible_geometry
      (configure_geometry (H := sample_host) cube
         (configure_geometry (H := sample_host) torus sample_world_torus).2).2
    = ["Geo_Cube"].
Proof.
  intros torus cube.
  assert (Hnin : "Geo_" +:+ get torus "DioramaGeometry" "Sphere" ∉ geometry_objects).
  { change ("Geo_Torus" ∉ geometry_objects). unfold geometry_objects. not_in_list. }
  assert (Hne : get torus "DioramaGeometry" "Sphere"
                ≠ get cube "DioramaGeometry" "Sphere") by done.
  split_and!; [exact Hnin | reflexivity | | reflexivity].
  exact (configure_geometry_unlisted_stays_shown (H := sample_host) torus cube
           sample_world_torus _ Hnin Hne eq_refl).
Defined.

Lemma configure_geometry_frame_witness :
  ("Frame" ∉ geometry_objects)
  ∧ "Frame" ≠ "Geo_" +:+ get (∅ : gmap string string) "DioramaGeometry" "Sphere"
  ∧ objects (configure_geometry (H := sample_host) ∅ sample_world).2 !! "Frame"
    = objects sample_world !! "Frame".
Proof.
  assert (Hnin : "Frame" ∉ geometry_objects) by (unfold geometry_objects; not_in_list).
  assert (Hne : "Frame"
                ≠ "Geo_" +:+ get (∅ : gmap string string) "DioramaGeometry" "Sphere")
    by done.
  split_and!; [exact Hnin | exact Hne |].
  exact (proj2 (proj2 (proj2 (configure_geometry_frame (H := sample_host) ∅
                                sample_world))) "Frame" Hnin Hne).
Defined.

(** ** What a step writes *)

Section Writes.
Context `{Host} (R : World → World → Prop).
Hypothesis R_refl : ∀ w, R w w.

Lemma writes_modify (f : World → World) :
  (∀ w, R w (f w)) → preserves R (modify f).
Proof. intros Hf w. apply Hf. Qed.

Lemma writes_in_material {A} (k : string) (body : M material A) (absent : M World A) :
  (∀ w f, R w (set_materials f w)) → preserves R absent →
  preserves R (in_material k body absent).
Proof.
  intros Hset Habsent w. unfold in_material.
  destruct (materials w !! k) as [mat|]; [| apply Habsent].
  destruct (body mat) as [r mat']. apply Hset.
Qed.

Lemma writes_in_light {A} (d : string) (body : M light A) (absent : M World A) :
  (∀ w f, R w (set_lights f w)) → preserves R absent →
  preserves R (in_light d body absent).
Proof.
  intros Hset Habsent w. unfold in_light.
  destruct (lights w !! d) as [l|]; [| apply Habsent].
  destruct (body l) as [r l']. apply Hset.
Qed.

Lemma writes_in_scene_nodes {A} (body : M (list comp_node) A) :
  (∀ w t, R w (set_scene_node_tree t w)) → preserves R (in_scene_nodes body).
Proof.
  intros Hset w. unfold in_scene_nodes.
  destruct (scene_node_tree w) as [ns|]; [| apply R_refl].
  destruct (body ns) as [r ns']. apply Hset.
Qed.
End Writes.

Section MaterialsAgain.
Context `{Host}.

Lemma materials_and_meshes_refl (w : World) : materials_and_meshes w w.
Proof. by destruct w. Qed.

Lemma materials_and_meshes_trans (w1 w2 w3 : World) :
  materials_and_meshes w1 w2 → materials_and_meshes w2 w3 → materials_and_meshes w1 w3.
Proof.
  unfold materials_and_meshes, set_materials, set_meshes.
  destruct w1, w2, w3. simpl. congruence.
Qed.

Lemma materials_and_meshes_objects (w w' : World) :
  materials_and_meshes w w' → objects w' = objects w.
Proof. intros <-. by destruct w'. Qed.

Lemma materials_and_meshes_set_materials
    (f : gmap string material → gmap string material) (w : World) :
  materials_and_meshes w (set_materials f w).
Proof. by destruct w. Qed.

Lemma materials_and_meshes_set_meshes
    (f : gmap string (list (option string)) → gmap string (list (option string)))
    (w : World) :
  materials_and_meshes w (set_meshes f w).
Proof. by destruct w. Qed.

Ltac solve_material_writes :=
  repeat first
    [ progress intros
    | apply materials_and_meshes_refl
    | apply preserves_ret; apply materials_and_meshes_refl
    | apply preserves_raise; apply materials_and_meshes_refl
    | apply preserves_lift; apply materials_and_meshes_refl
    | apply preserves_gets; apply materials_and_meshes_refl
    | apply writes_modify; intros;
      first [apply materials_and_meshes_set_materials
            | apply materials_and_meshes_set_meshes]
    | apply writes_in_material; [intros; apply materials_and_meshes_set_materials |]
    | apply preserves_bind; [apply materials_and_meshes_trans | |]
    | case_match ].

Lemma writes_configure_frame_material (traits : gmap string string) :
  preserves materials_and_meshes (configure_frame_material traits).
Proof.
  unfold configure_frame_material, get_or_new_material, assign_material, no_attribute.
  solve_material_writes.
Qed.

Lemma writes_configure_core_material (traits : gmap string string) :
  preserves materials_and_meshes (configure_core_material traits).
Proof.
  unfold configure_core_material, get_or_new_material, assign_material, no_attribute.
  solve_material_writes.
Qed.

Lemma paint_frame_absorbs (params : frame_params) (add : float) (n : node) :
  paint_frame params (age_node add (paint_frame params n)) = paint_frame params n.
Proof.
  destruct (decide (n_type n = "BSDF_PRINCIPLED")) as [Hty|Hty].
  - unfold age_node. rewrite paint_frame_type, bool_decide_eq_true_2 by done.
    rewrite paint_frame_roughness by done.
    unfold paint_frame. cbn [n_type inputs]. rewrite !bool_decide_eq_true_2 by done.
    cbn [n_type inputs]. f_equal. apply map_eq. intros j.
    rewrite !lookup_insert. repeat case_decide; by simplify_eq.
  - assert (Hp : paint_frame params n = n)
      by (unfold paint_frame; by rewrite bool_decide_eq_false_2).
    assert (Ha : age_node add n = n)
      by (unfold age_node; by rewrite bool_decide_eq_false_2).
    by rewrite Hp, Ha, Hp.
Qed.

Lemma frame_ready_aged_paint (params : frame_params) (add : float) (n : node) :
  frame_ready (age_node add (paint_frame params n)) = true.
Proof.
  destruct (decide (n_type n = "BSDF_PRINCIPLED")) as [Hty|Hty].
  - unfold frame_ready. rewrite age_node_type, paint_frame_type.
    rewrite bool_decide_eq_true_2 by done.
    unfold age_node. rewrite paint_frame_type, bool_decide_eq_true_2 by done.
    rewrite paint_frame_roughness by done.
    unfold paint_frame. rewrite bool_decide_eq_true_2 by done. cbn [inputs n_type].
    rewrite !lookup_insert_ne, !lookup_insert_eq by done.
    rewrite !lookup_insert_ne, !lookup_insert_eq by done.
    by destruct (frame_color params) as [[? ?] ?].
  - unfold frame_ready. rewrite age_node_type, paint_frame_type.
    by rewrite bool_decide_eq_false_2 by done.
Qed.

(** The frame step up to the slot assignment. *)
Lemma configure_frame_material_painted (traits : gmap string string) (w : World)
    (frame : object) (params : frame_params) (a : aging) (ns : list node) :
  let mat_name := "MAT_Frame_" +:+ get traits "FrameType" "BrushedSteel" in
  objects w !! "Frame" = Some frame →
  get_material_params (get traits "FrameType" "BrushedSteel") = Ok params →
  get_or_entry aging_params (get traits "SurfaceAging" "Pristine") "Pristine" = Ok a →
  (materials w !! mat_name = None ∧ ns = default_node_tree
   ∨ materials w !! mat_name = Some (mk_material true (Some ns))) →
  (∀ n, n ∈ ns → frame_ready n = true) →
  configure_frame_material traits w
  = assign_material frame mat_name
      (set_materials
         (<[mat_name := mk_material true
              (Some (age_node (roughness_add a) <$> (paint_frame params <$> ns)))]>) w).
Proof.
  intros mat_name Hframe Hparams Haging Hmat Hready.
  set (m0 := mk_material true (Some ns)).
  set (m1 := mk_material true (Some (paint_frame params <$> ns))).
  set (m2 := mk_material true
               (Some (age_node (roughness_add a) <$> (paint_frame params <$> ns)))).
  assert (Hnew : get_or_new_material mat_name w
                 = (Ok tt, set_materials (<[mat_name := m0]>) w)).
  { unfold get_or_new_material, bind, gets, modify, ret. simpl.
    destruct Hmat as [[Hnone ->] | Hsome].
    - by rewrite Hnone.
    - rewrite Hsome. f_equal. unfold set_materials.
      rewrite (insert_id _ _ _ Hsome). by destruct w. }
  assert (Hpaint : ∀ body_absent,
    in_material mat_name
      (in_node_tree (for_each (is_principled (
         set_input "Base Color" (rgba (frame_color params)) ;;
         set_input "Metallic" (SFloat (frame_metallic params)) ;;
         set_input "Roughness" (SFloat (frame_roughness params))))))
      body_absent (set_materials (<[mat_name := m0]>) w)
    = (Ok tt, set_materials (<[mat_name := m1]>) w)).
  { intros body_absent.
    rewrite (in_material_run _ _ _ _ m0 m1 (Ok tt)).
    - unfold set_materials. simpl. by rewrite insert_insert_eq.
    - simpl. by rewrite lookup_insert_eq.
    - by apply paint_material_run. }
  assert (Hage : ∀ body_absent,
    in_material mat_name
      (apply_surface_aging (get traits "SurfaceAging" "Pristine")) body_absent
      (set_materials (<[mat_name := m1]>) w)
    = (Ok tt, set_materials (<[mat_name := m2]>) w)).
  { intros body_absent.
    rewrite (in_material_run _ _ _ _ m1 m2 (Ok tt)).
    - unfold set_materials. simpl. by rewrite insert_insert_eq.
    - simpl. by rewrite lookup_insert_eq.
    - apply age_material_run; [done |].
      intros n' [n [-> Hn]]%list_elem_of_fmap Hty. eexists.
      apply paint_frame_roughness. by rewrite paint_frame_type in Hty. }
  unfold configure_frame_material, bind at 1, gets. simpl. rewrite Hframe.
  unfold bind at 1, lift. rewrite Hparams.
  fold mat_name. unfold bind at 1. rewrite Hnew.
  unfold bind at 1. rewrite Hpaint.
  unfold bind at 1. rewrite Hage. done.
Qed.

Lemma configure_frame_material_world (traits : gmap string string) (w : World)
    (frame : object) (d : string) (slots : list (option string))
    (params : frame_params) (a : aging) (ns : list node) :
  let mat_name := "MAT_Frame_" +:+ get traits "FrameType" "BrushedSteel" in
  objects w !! "Frame" = Some frame → data frame = ObMesh d →
  meshes w !! d = Some slots →
  get_material_params (get traits "FrameType" "BrushedSteel") = Ok params →
  get_or_entry aging_params (get traits "SurfaceAging" "Pristine") "Pristine" = Ok a →
  (materials w !! mat_name = None ∧ ns = default_node_tree
   ∨ materials w !! mat_name = Some (mk_material true (Some ns))) →
  (∀ n, n ∈ ns → frame_ready n = true) →
  configure_frame_material traits w
  = (Ok tt,
     set_meshes (<[d := first_slot mat_name slots]>)
       (set_materials
          (<[mat_name := mk_material true
               (Some (age_node (roughness_add a) <$> (paint_frame params <$> ns)))]>) w)).
Proof.
  intros mat_name Hframe Hdata Hmesh Hparams Haging Hmat Hready.
  rewrite (configure_frame_material_painted traits w frame params a ns
             Hframe Hparams Haging Hmat Hready).
  by apply assign_material_run.
Qed.

(** X12. The frame step is idempotent.  On a scene with a [Frame] mesh
    whose frame material is missing or a node material with usable
    Principled nodes, the step returns, and run again on the world it
    left it returns that very world: painting resets the roughness that
    aging raised, so the aging increment is applied once, not once per
    run. *)
Theorem configure_frame_material_idempotent (traits : gmap string string) (w : World)
    (frame : object) (d : string) (slots : list (option string))
    (params : frame_params) (a : aging) (ns : list node) :
  objects w !! "Frame" = Some frame → data frame = ObMesh d →
  meshes w !! d = Some slots →
  get_material_params (get traits "FrameType" "BrushedSteel") = Ok params →
  get_or_entry aging_params (get traits "SurfaceAging" "Pristine") "Pristine" = Ok a →
  (materials w !! ("MAT_Frame_" +:+ get traits "FrameType" "BrushedSteel") = None
   ∧ ns = default_node_tree
   ∨ materials w !! ("MAT_Frame_" +:+ get traits "FrameType" "BrushedSteel")
     = Some (mk_material true (Some ns))) →
  (∀ n, n ∈ ns → frame_ready n = true) →
  ∃ w', configure_frame_material traits w = (Ok tt, w')
        ∧ configure_frame_material traits w' = (Ok tt, w').
Proof.
  intros Hframe Hdata Hmesh Hparams Haging Hmat Hready.
  set (mat_name := "MAT_Frame_" +:+ get traits "FrameType" "BrushedSteel") in *.
  set (ns' := age_node (roughness_add a) <$> (paint_frame params <$> ns)).
  eexists. split.
  - by apply (configure_frame_material_world traits w frame d slots params a ns).
  - fold mat_name. fold ns'.
    rewrite (configure_frame_material_world traits _ frame d
               (first_slot mat_name slots) params a ns').
    + f_equal. fold mat_name.
      assert (Hslots : first_slot mat_name (first_slot mat_name slots)
                       = first_slot mat_name slots) by (by destruct slots).
      assert (Hns : age_node (roughness_add a) <$> (paint_frame params <$> ns') = ns').
      { unfold ns'. rewrite <- !list_fmap_compose. apply list_fmap_ext.
        intros i n _. simpl. by rewrite paint_frame_absorbs. }
      rewrite Hslots, Hns. unfold set_meshes, set_materials. simpl.
      by rewrite !insert_insert_eq.
    + done.
    + done.
    + simpl. by rewrite lookup_insert_eq.
    + done.
    + done.
    + right. simpl. fold mat_name. by rewrite lookup_insert_eq.
    + intros n' Hn'. unfold ns' in Hn'.
      apply list_elem_of_fmap in Hn' as (n1 & -> & Hn1).
      apply list_elem_of_fmap in Hn1 as (n & -> & Hn).
      apply frame_ready_aged_paint.
Qed.

(** X13. When the [Frame] object is no mesh -- an empty, or a light --
    the frame step fails at the slot assignment, after the material has
    been made: it raises [AttributeError] and leaves behind the freshly
    created, painted and aged material, and nothing else. *)
Theorem configure_frame_material_not_mesh (traits : gmap string string) (w : World)
    (frame : object) (params : frame_params) (a : aging) :
  objects w !! "Frame" = Some frame →
  (data frame = ObEmpty ∨ ∃ d, data frame = ObLight d) →
  get_material_params (get traits "FrameType" "BrushedSteel") = Ok params →
  get_or_entry aging_params (get traits "SurfaceAging" "Pristine") "Pristine" = Ok a →
  materials w !! ("MAT_Frame_" +:+ get traits "FrameType" "BrushedSteel") = None →
  (∀ n, n ∈ default_node_tree → frame_ready n = true) →
  configure_frame_material traits w
  = (Raise (AttributeError "materials"),
     set_materials
       (<["MAT_Frame_" +:+ get traits "FrameType" "BrushedSteel" :=
          mk_material true
            (Some (age_node (roughness_add a)
                     <$> (paint_frame params <$> default_node_tree)))]>) w).
Proof.
  intros Hframe Hdata Hparams Haging Hnone Hready.
  rewrite (configure_frame_material_painted traits w frame params a default_node_tree
             Hframe Hparams Haging (or_introl (conj Hnone eq_refl)) Hready).
  unfold assign_material. by destruct Hdata as [-> | [d ->]].
Qed.

Lemma assign_material_ok_inv (obj : object) (mat_name : string) (w w' : World) :
  assign_material obj mat_name w = (Ok tt, w') →
  ∃ d slots, data obj = ObMesh d ∧ meshes w !! d = Some slots
             ∧ w' = set_meshes (<[d := first_slot mat_name slots]>) w.
Proof.
  unfold assign_material, bind, gets, modify, no_attribute, raise.
  destruct (data obj) as [|d| |]; try done. simpl.
  destruct (meshes w !! d) as [slots|] eqn:Hmesh; [| done].
  intros Hrun. exists d, slots. split_and!; [done | done |].
  destruct slots; simpl in Hrun; by injection Hrun as <-.
Qed.

Lemma in_material_meshes {A} (k what : string) (body : M material A) (w : World) :
  meshes (in_material k body (no_attribute what) w).2 = meshes w.
Proof.
  apply (writes_in_material (λ w w', meshes w' = meshes w)); [done |].
  by intros w0.
Qed.

Lemma get_or_new_material_meshes (k : string) (w : World) :
  meshes (get_or_new_material k w).2 = meshes w.
Proof.
  unfold get_or_new_material, bind, gets. simpl. by destruct (materials w !! k).
Qed.

(** When a material step returns, it has put its material into slot 0 of
    the mesh of its object and kept the other slots and the objects. *)
Lemma configure_frame_material_slot (traits : gmap string string) (w w' : World)
    (frame : object) (d : string) :
  objects w !! "Frame" = Some frame → data frame = ObMesh d →
  configure_frame_material traits w = (Ok tt, w') →
  objects w' = objects w
  ∧ ∃ slots, meshes w !! d = Some slots
             ∧ meshes w'
               = <[d := first_slot ("MAT_Frame_" +:+ get traits "FrameType" "BrushedSteel")
                          slots]> (meshes w).
Proof.
  intros Hframe Hdata Hrun.
  pose proof (writes_configure_frame_material traits w) as Hw.
  rewrite Hrun in Hw. simpl in Hw.
  split; [by apply materials_and_meshes_objects |].
  revert Hrun. unfold configure_frame_material, bind at 1, gets. simpl. rewrite Hframe.
  unfold bind at 1, lift.
  destruct (get_material_params _) as [params|e]; [| done].
  set (mat_name := "MAT_Frame_" +:+ get traits "FrameType" "BrushedSteel").
  unfold bind at 1.
  pose proof (get_or_new_material_meshes mat_name w) as H0.
  destruct (get_or_new_material mat_name w) as [[[]|e] w0]; [| done].
  unfold bind at 1.
  match goal with
  | |- context [in_material mat_name ?body (no_attribute ?what) w0] =>
      pose proof (in_material_meshes mat_name what body w0) as H1;
      destruct (in_material mat_name body (no_attribute what) w0) as [[[]|e] w1];
      [| done]
  end.
  unfold bind at 1.
  match goal with
  | |- context [in_material mat_name ?body (no_attribute ?what) w1] =>
      pose proof (in_material_meshes mat_name what body w1) as H2;
      destruct (in_material mat_name body (no_attribute what) w1) as [[[]|e] w2];
      [| done]
  end.
  simpl in H0, H1, H2.
  intros (d' & slots & Hd' & Hmesh & ->)%assign_material_ok_inv.
  assert (d' = d) as -> by congruence.
  exists slots. split; [congruence |]. simpl. congruence.
Qed.

Lemma configure_core_material_slot (traits : gmap string string) (w w' : World)
    (core : object) (d : string) :
  objects w !! "Core" = Some core → data core = ObMesh d →
  configure_core_material traits w = (Ok tt, w') →
  objects w' = objects w
  ∧ ∃ slots, meshes w !! d = Some slots
             ∧ meshes w'
               = <[d := first_slot
                          ("MAT_Core_" +:+ get traits "CoreMaterial" "ClearCrystal")
                          slots]> (meshes w).
Proof.
  intros Hcore Hdata Hrun.
  pose proof (writes_configure_core_material traits w) as Hw.
  rewrite Hrun in Hw. simpl in Hw.
  split; [by apply materials_and_meshes_objects |].
  revert Hrun. unfold configure_core_material, bind at 1, gets. simpl. rewrite Hcore.
  unfold bind at 1, lift.
  destruct (get_core_material_params _) as [params|e]; [| done].
  set (mat_name := "MAT_Core_" +:+ get traits "CoreMaterial" "ClearCrystal").
  unfold bind at 1.
  pose proof (get_or_new_material_meshes mat_name w) as H0.
  destruct (get_or_new_material mat_name w) as [[[]|e] w0]; [| done].
  unfold bind at 1.
  match goal with
  | |- context [in_material mat_name ?body (no_attribute ?what) w0] =>
      pose proof (in_material_meshes mat_name what body w0) as H1;
      destruct (in_material mat_name body (no_attribute what) w0) as [[[]|e] w1];
      [| done]
  end.
  simpl in H0, H1.
  intros (d' & slots & Hd' & Hmesh & ->)%assign_material_ok_inv.
  assert (d' = d) as -> by congruence.
  exists slots. split; [congruence |]. simpl. congruence.
Qed.

(** X14. Slot 0 belongs to whoever assigned last.  When the [Frame] and
    [Core] objects share one mesh and both material steps return, the
    frame step has put the frame material into slot 0 and the core step
    has then replaced it: the shared mesh, and with it the frame, ends
    up with the core material, the other slots being as they were. *)
Theorem shared_mesh_takes_core_material (traits : gmap string string)
    (w w1 w2 : World) (frame core : object) (d : string) :
  objects w !! "Frame" = Some frame → objects w !! "Core" = Some core →
  data frame = ObMesh d → data core = ObMesh d →
  configure_frame_material traits w = (Ok tt, w1) →
  configure_core_material traits w1 = (Ok tt, w2) →
  ∃ slots,
    meshes w !! d = Some slots
    ∧ meshes w1 !! d
      = Some (first_slot ("MAT_Frame_" +:+ get traits "FrameType" "BrushedSteel") slots)
    ∧ meshes w2 !! d
      = Some (first_slot ("MAT_Core_" +:+ get traits "CoreMaterial" "ClearCrystal") slots).
Proof.
  intros Hframe Hcore Hfd Hcd Hrun1 Hrun2.
  destruct (configure_frame_material_slot traits w w1 frame d Hframe Hfd Hrun1)
    as (Hobj1 & slots & Hslots & Hmesh1).
  assert (Hcore1 : objects w1 !! "Core" = Some core) by (by rewrite Hobj1).
  destruct (configure_core_material_slot traits w1 w2 core d Hcore1 Hcd Hrun2)
    as (_ & slots1 & Hslots1 & Hmesh2).
  exists slots. rewrite Hmesh1, lookup_insert_eq in Hslots1.
  injection Hslots1 as <-.
  split_and!; [done | by rewrite Hmesh1, lookup_insert_eq |].
  rewrite Hmesh2, lookup_insert_eq. by destruct slots.
Qed.

Lemma emitting_cores (k : string) (p : core_params) :
  core_materials !! k = Some p →
  is_Some (emits p) ↔ k ∈ ["MoltenAmber"; "FrozenPlasma"; "StormEssence"; "EclipseCore"].
Proof.
  intros Hk. apply elem_of_list_to_map_2 in Hk.
  repeat (apply elem_of_cons in Hk as [[= -> ->] | Hk];
          [first [ split; [intros _; rewrite !elem_of_cons; by auto 10 | by eexists]
                 | split; [by intros [? ?] | not_in_list] ] |]).
  by apply elem_of_nil in Hk.
Qed.

Lemma paint_core_emission (params : core_params) (n : node) (k : string) :
  emits params = None → k = "Emission Strength" ∨ k = "Emission Color" →
  inputs (paint_core params n) !! k = inputs n !! k.
Proof.
  intros Hemits Hk. unfold paint_core. case_bool_decide; [| done].
  rewrite Hemits. cbn [inputs].
  destruct Hk as [-> | ->]; by rewrite !lookup_insert_ne by done.
Qed.

(** X15. Only four core types emit: MoltenAmber, FrozenPlasma,
    StormEssence and EclipseCore.  For any other type -- an unknown one
    included -- the core step writes neither emission socket, so a core
    material that glowed before keeps its emission strength and colour
    while its colour, roughness, transmission and metallic are
    replaced. *)
Theorem core_emission_kept (traits : gmap string string) (w : World) :
  (∀ k p, core_materials !! k = Some p →
     is_Some (emits p)
     ↔ k ∈ ["MoltenAmber"; "FrozenPlasma"; "StormEssence"; "EclipseCore"])
  ∧ (∀ params, core_materials !! get traits "CoreMaterial" "ClearCrystal" = None →
       get_core_material_params (get traits "CoreMaterial" "ClearCrystal") = Ok params →
       emits params = None)
  ∧ (∀ core d slots params ns,
       objects w !! "Core" = Some core → data core = ObMesh d →
       meshes w !! d = Some slots →
       get_core_material_params (get traits "CoreMaterial" "ClearCrystal") = Ok params →
       emits params = None →
       (∃ nodes_on,
          materials w !! ("MAT_Core_" +:+ get traits "CoreMaterial" "ClearCrystal")
          = Some (mk_material nodes_on (Some ns))) →
       (∀ n, n ∈ ns → core_ready n = true) →
       ∃ w' nodes_on ns',
         configure_core_material traits w = (Ok tt, w')
         ∧ materials w' !! ("MAT_Core_" +:+ get traits "CoreMaterial" "ClearCrystal")
           = Some (mk_material nodes_on (Some ns'))
         ∧ Forall2 (λ n n',
              inputs n' !! "Emission Strength" = inputs n !! "Emission Strength"
              ∧ inputs n' !! "Emission Color" = inputs n !! "Emission Color") ns ns').
Proof.
  split_and!.
  - apply emitting_cores.
  - intros params Hnone Hparams. unfold get_core_material_params in Hparams.
    rewrite (get_or_entry_unknown _ _ _ _ clear_crystal_entry Hnone) in Hparams.
    by injection Hparams as <-.
  - intros core d slots params ns Hcore Hdata Hmesh Hparams Hemits Hmat Hready.
    destruct (configure_core_material_run traits w core d slots params ns
                Hcore Hdata Hmesh Hparams (or_intror Hmat) Hready)
      as (w' & nodes_on & Hrun & Hmat').
    exists w', nodes_on, (paint_core params <$> ns). split_and!; [done | done |].
    apply Forall2_fmap_r, Forall_Forall2_diag, Forall_forall. intros n _.
    split; apply paint_core_emission; auto.
Qed.

Lemma preserves_age_body (add : float) :
  preserves (off_socket "Roughness")
    (let* current := get_input "Roughness" in
     let* current_roughness := as_float current in
     set_input "Roughness" (SFloat (py_min 1 (current_roughness + add)))).
Proof.
  apply preserves_bind.
  - apply off_socket_trans.
  - apply preserves_pure; [apply off_socket_refl | done].
  - intros v. apply preserves_bind.
    + apply off_socket_trans.
    + apply preserves_pure; [apply off_socket_refl | by destruct v].
    + intros current. apply preserves_set_input.
Qed.

Lemma age_node_roughness (add x : float) (n : node) :
  n_type n = "BSDF_PRINCIPLED" → inputs n !! "Roughness" = Some (SFloat x) →
  inputs (age_node add n) !! "Roughness" = Some (SFloat (py_min 1 (x + add))).
Proof.
  intros Hty Hx. unfold age_node. rewrite bool_decide_eq_true_2 by done.
  rewrite Hx. simpl. by rewrite lookup_insert_eq.
Qed.

(** X16. Surface aging on its own: a material that does not use nodes
    is handed back untouched, whatever the aging level; in every case,
    return or raise, nothing but the ["Roughness"] socket of Principled
    nodes can change; and unlike the frame step, aging accumulates --
    applied twice to a node material it raises each roughness twice,
    clamping at 1.0 each time. *)
Theorem apply_surface_aging_frame (aging_type : string) (mat : material) :
  (use_nodes mat = false → apply_surface_aging aging_type mat = (Ok tt, mat))
  ∧ material_related (only_type "BSDF_PRINCIPLED" (off_socket "Roughness"))
      mat (apply_surface_aging aging_type mat).2
  ∧ (∀ a ns,
       use_nodes mat = true → node_tree mat = Some ns →
       get_or_entry aging_params aging_type "Pristine" = Ok a →
       (∀ n, n ∈ ns → n_type n = "BSDF_PRINCIPLED" →
             ∃ x, inputs n !! "Roughness" = Some (SFloat x)) →
       ∃ mat1 ns2,
         apply_surface_aging aging_type mat = (Ok tt, mat1)
         ∧ apply_surface_aging aging_type mat1 = (Ok tt, mk_material true (Some ns2))
         ∧ Forall2 (λ n n2, ∀ x,
              n_type n = "BSDF_PRINCIPLED" →
              inputs n !! "Roughness" = Some (SFloat x) →
              inputs n2 !! "Roughness"
              = Some (SFloat (py_min 1 (py_min 1 (x + roughness_add a)
                                        + roughness_add a)))) ns ns2).
Proof.
  split_and!.
  - intros Hoff. unfold apply_surface_aging, bind, lift, gets.
    rewrite (get_or_entry_ok _ _ _ _ pristine_entry). simpl. by rewrite Hoff.
  - unfold apply_surface_aging, bind, lift, gets.
    assert (Hrefl : ∀ n, only_type "BSDF_PRINCIPLED" (off_socket "Roughness") n n)
      by (intros n; apply only_type_refl, off_socket_refl).
    destruct (get_or_entry aging_params aging_type "Pristine") as [a|e]; simpl;
      [| by apply material_related_refl].
    destruct (use_nodes mat); [| by apply material_related_refl].
    apply preserves_in_node_tree; [done |].
    intros ns. apply for_each_related; [done |].
    apply preserves_when_type; [apply off_socket_refl | apply preserves_age_body].
  - intros a ns Hon Htree Ha Hsock. destruct mat as [on tree]. simpl in *. subst.
    exists (mk_material true (Some (age_node (roughness_add a) <$> ns))),
      (age_node (roughness_add a) <$> (age_node (roughness_add a) <$> ns)).
    split_and!.
    + by apply age_material_run.
    + apply age_material_run; [done |].
      intros n' [n [-> Hn]]%list_elem_of_fmap Hty. rewrite age_node_type in Hty.
      destruct (Hsock n Hn Hty) as [x Hx]. eexists. by apply age_node_roughness.
    + apply Forall2_fmap_r, Forall2_fmap_r, Forall_Forall2_diag, Forall_forall.
      intros n _ x Hty Hx. apply age_node_roughness; [by rewrite age_node_type |].
      by apply age_node_roughness.
Qed.
End MaterialsAgain.

Lemma configure_frame_material_idempotent_witness :
  let traits : gmap string string := {[ "SurfaceAging" := "AncientRelic" ]} in
  objects sample_world !! "Frame" = Some (mk_object (ObMesh "Frame") false false)
  ∧ materials sample_world !! "MAT_Frame_BrushedSteel" = None
  ∧ ∃ w', configure_frame_material (H := sample_host) traits sample_world = (Ok tt, w')
          ∧ configure_frame_material (H := sample_host) traits w' = (Ok tt, w').
Proof.
  intros traits.
  assert (Hframe : objects sample_world !! "Frame"
                   = Some (mk_object (ObMesh "Frame") false false)) by reflexivity.
  assert (Hmesh : meshes sample_world !! "Frame" = Some []) by reflexivity.
  assert (Hparams : get_material_params (get traits "FrameType" "BrushedSteel")
                    = Ok (mk_frame (0.6, 0.6, 0.62) 1 0.35)%float) by reflexivity.
  assert (Haging : get_or_entry aging_params (get traits "SurfaceAging" "Pristine")
                     "Pristine" = Ok (mk_aging 0.25)) by reflexivity.
  assert (Hnone : materials sample_world
                    !! ("MAT_Frame_" +:+ get traits "FrameType" "BrushedSteel") = None)
    by reflexivity.
  split_and!; [exact Hframe | exact Hnone |].
  apply (configure_frame_material_idempotent (H := sample_host) traits sample_world
           _ "Frame" [] _ _ [principled_bsdf; material_output]
           Hframe eq_refl Hmesh Hparams Haging (or_introl (conj Hnone eq_refl))).
  intros n Hn.
  apply elem_of_cons in Hn as [-> | Hn]; [reflexivity |].
  apply list_elem_of_singleton in Hn as ->. reflexivity.
Defined.

Lemma configure_frame_material_not_mesh_witness :
  objects sample_world_empty_frame !! "Frame" = Some (mk_object ObEmpty false false)
  ∧ materials sample_world_empty_frame !! "MAT_Frame_BrushedSteel" = None
  ∧ (configure_frame_material (H := sample_host) ∅ sample_world_empty_frame).1
    = Raise (AttributeError "materials")
  ∧ is_Some (materials
               (configure_frame_material (H := sample_host) ∅ sample_world_empty_frame).2
             !! "MAT_Frame_BrushedSteel").
Proof.
  assert (Hframe : objects sample_world_empty_frame !! "Frame"
                   = Some (mk_object ObEmpty false false)) by reflexivity.
  assert (Hparams : get_material_params (get (∅ : gmap string string)
                                           "FrameType" "BrushedSteel")
                    = Ok (mk_frame (0.6, 0.6, 0.62) 1 0.35)%float) by reflexivity.
  assert (Haging : get_or_entry aging_params
                     (get (∅ : gmap string string) "SurfaceAging" "Pristine")
                     "Pristine" = Ok (mk_aging 0)) by reflexivity.
  assert (Hnone : materials sample_world_empty_frame
                    !! ("MAT_Frame_" +:+ get (∅ : gmap string string)
                                           "FrameType" "BrushedSteel") = None)
    by reflexivity.
  assert (Hready : ∀ n, n ∈ default_node_tree (Host := sample_host) →
                        frame_ready n = true).
  { intros n Hn.
    apply elem_of_cons in Hn as [-> | Hn]; [reflexivity |].
    apply list_elem_of_singleton in Hn as ->. reflexivity. }
  pose proof (configure_frame_material_not_mesh (H := sample_host) ∅
                sample_world_empty_frame _ _ _ Hframe (or_introl eq_refl)
                Hparams Haging Hnone Hready) as Hrun.
  split_and!; [exact Hframe | exact Hnone | |].
  - by rewrite Hrun.
  - rewrite Hrun. simpl. rewrite lookup_insert_eq. by eexists.
Defined.

Lemma shared_mesh_takes_core_material_witness :
  let w1 := (configure_frame_material (H := sample_host) ∅ sample_world_shared).2 in
  let w2 := (configure_core_material (H := sample_host) ∅ w1).2 in
  data <$> objects sample_world_shared !! "Frame" = Some (ObMesh "Frame")
  ∧ data <$> objects sample_world_shared !! "Core" = Some (ObMesh "Frame")
  ∧ configure_frame_material (H := sample_host) ∅ sample_world_shared = (Ok tt, w1)
  ∧ configure_core_material (H := sample_host) ∅ w1 = (Ok tt, w2)
  ∧ meshes w1 !! "Frame" = Some [Some "MAT_Frame_BrushedSteel"]
  ∧ meshes w2 !! "Frame" = Some [Some "MAT_Core_ClearCrystal"].
Proof.
  intros w1 w2.
  assert (Hrun1 : configure_frame_material (H := sample_host) ∅ sample_world_shared
                  = (Ok tt, w1)) by (vm_compute; reflexivity).
  assert (Hrun2 : configure_core_material (H := sample_host) ∅ w1 = (Ok tt, w2))
    by (vm_compute; reflexivity).
  assert (Hframe : objects sample_world_shared !! "Frame"
                   = Some (mk_object (ObMesh "Frame") false false)) by reflexivity.
  assert (Hcore : objects sample_world_shared !! "Core"
                  = Some (mk_object (ObMesh "Frame") false false)) by reflexivity.
  destruct (shared_mesh_takes_core_material (H := sample_host) ∅ sample_world_shared
              w1 w2 _ _ "Frame" Hframe Hcore eq_refl eq_refl Hrun1 Hrun2)
    as (slots & Hslots & Hmesh1 & Hmesh2).
  assert (slots = []) as -> by (vm_compute in Hslots; congruence).
  split_and!; [reflexivity | reflexivity | exact Hrun1 | exact Hrun2
              | exact Hmesh1 | exact Hmesh2].
Defined.

Lemma core_emission_kept_witness :
  let traits : gmap string string := {[ "CoreMaterial" := "Unobtainium" ]} in
  core_materials !! "ClearCrystal"
  = Some (mk_core (0.98, 0.99, 1.0) (Some 0.95) 0.02 None None)%float
  ∧ core_materials !! get traits "CoreMaterial" "ClearCrystal" = None
  ∧ ¬ is_Some (emits (mk_core (0.98, 0.99, 1.0) (Some 0.95) 0.02 None None)%float)
  ∧ ∃ w' nodes_on ns',
      configure_core_material (H := sample_host) ∅ sample_world_glow = (Ok tt, w')
      ∧ materials w' !! "MAT_Core_ClearCrystal" = Some (mk_material nodes_on (Some ns'))
      ∧ Forall2 (λ n n',
           inputs n' !! "Emission Strength" = inputs n !! "Emission Strength"
           ∧ inputs n' !! "Emission Color" = inputs n !! "Emission Color")
          [glowing_bsdf; material_output] ns'.
Proof.
  intros traits.
  pose proof (core_emission_kept (H := sample_host) traits sample_world_glow)
    as (Htable & Hunknown & _).
  pose proof (core_emission_kept (H := sample_host) ∅ sample_world_glow)
    as (_ & _ & Hkept).
  assert (Hclear : core_materials !! "ClearCrystal"
                   = Some (mk_core (0.98, 0.99, 1.0) (Some 0.95) 0.02 None None)%float)
    by reflexivity.
  assert (Hnone : core_materials !! get traits "CoreMaterial" "ClearCrystal" = None)
    by reflexivity.
  assert (Hparams : get_core_material_params (get traits "CoreMaterial" "ClearCrystal")
                    = Ok (mk_core (0.98, 0.99, 1.0) (Some 0.95) 0.02 None None)%float)
    by reflexivity.
  split_and!; [exact Hclear | exact Hnone | |].
  - rewrite (Htable "ClearCrystal" _ Hclear). not_in_list.
  - assert (Hcore : objects sample_world_glow !! "Core"
                    = Some (mk_object (ObMesh "Core") false false)) by reflexivity.
    assert (Hmesh : meshes sample_world_glow !! "Core" = Some []) by reflexivity.
    assert (Hp : get_core_material_params
                   (get (∅ : gmap string string) "CoreMaterial" "ClearCrystal")
                 = Ok (mk_core (0.98, 0.99, 1.0) (Some 0.95) 0.02 None None)%float)
      by reflexivity.
    assert (Hmat : ∃ nodes_on,
              materials sample_world_glow
                !! ("MAT_Core_" +:+ get (∅ : gmap string string)
                                      "CoreMaterial" "ClearCrystal")
              = Some (mk_material nodes_on (Some [glowing_bsdf; material_output])))
      by (by exists true).
    apply (Hkept _ "Core" [] _ [glowing_bsdf; material_output] Hcore eq_refl Hmesh Hp
             (Hunknown _ Hnone Hparams) Hmat).
    intros n Hn.
    apply elem_of_cons in Hn as [-> | Hn]; [reflexivity |].
    apply list_elem_of_singleton in Hn as ->. reflexivity.
Defined.

Lemma apply_surface_aging_frame_witness :
  let flat := mk_material false (Some [principled_bsdf]) in
  let mat := mk_material true (Some [principled_bsdf; material_output]) in
  use_nodes flat = false
  ∧ apply_surface_aging "AncientRelic" flat = (Ok tt, flat)
  ∧ get_or_entry aging_params "AncientRelic" "Pristine" = Ok (mk_aging 0.25)
  ∧ ∃ mat1 ns2,
      apply_surface_aging "AncientRelic" mat = (Ok tt, mat1)
      ∧ apply_surface_aging "AncientRelic" mat1 = (Ok tt, mk_material true (Some ns2))
      ∧ ∀ n2, ns2 !! 0%nat = Some n2 → inputs n2 !! "Roughness" = Some (SFloat 1).
Proof.
  intros flat mat.
  assert (Ha : get_or_entry aging_params "AncientRelic" "Pristine"
               = Ok (mk_aging 0.25)) by reflexivity.
  split_and!; [reflexivity | | exact Ha |].
  - exact (proj1 (apply_surface_aging_frame "AncientRelic" flat) eq_refl).
  - destruct (proj2 (proj2 (apply_surface_aging_frame "AncientRelic" mat))
                (mk_aging 0.25) [principled_bsdf; material_output] eq_refl eq_refl Ha)
      as (mat1 & ns2 & Hrun1 & Hrun2 & Hrough).
    + intros n Hn Hty. exists 0.5%float.
      apply elem_of_cons in Hn as [-> | Hn]; [reflexivity |].
      apply list_elem_of_singleton in Hn as ->. discriminate Hty.
    + exists mat1, ns2. split_and!; [exact Hrun1 | exact Hrun2 |].
      intros n2 Hn2.
      destruct (Forall2_lookup_r _ _ _ _ _ Hrough Hn2) as (n & Hn & Hx).
      injection Hn as <-. rewrite (Hx 0.5%float eq_refl eq_refl). reflexivity.
Defined.

(** ** Render settings *)

Lemma py_min_int_min (a b : Z) : py_min_int a b = Z.min a b.
Proof. unfold py_min_int. destruct (Z.ltb_spec b a); lia. Qed.

Section Settings.
Context `{Host}.

Lemma configure_gpu_run (w : World) :
  configure_gpu w
  = (Ok tt,
     set_preferences
       (match preferences w with
        | Some prefs =>
            Some (mk_prefs "OPTIX"
                    match get_devices (mk_prefs "OPTIX" (devices prefs)) with
                    | Some found => enable_gpu <$> found
                    | None => devices prefs
                    end)
        | None => None
        end) w).
Proof.
  unfold configure_gpu, refresh_devices, try_except, bind, gets, modify, raise, ret.
  simpl. destruct (preferences w) as [prefs|] eqn:Hp; simpl.
  - by destruct (get_devices _).
  - f_equal. destruct w. simpl in *. by subst.
Qed.

(** X17. The GPU block never fails and writes the add-on preferences
    only.  Without the Cycles add-on nothing changes.  With it the
    backend becomes OPTIX and the device collection is the one the device
    query returns for that backend, in its order, each device enabled
    exactly when its type is OPTIX, CUDA or OPENCL -- so a CPU device that
    was enabled is switched off; when the query raises, the handler
    swallows that too, the backend stays OPTIX and the devices are as
    they were. *)
Theorem configure_gpu_outcome (w : World) :
  (configure_gpu w).1 = Ok tt
  ∧ set_preferences (preferences w) (configure_gpu w).2 = w
  ∧ match preferences w, preferences (configure_gpu w).2 with
    | None, None => True
    | Some prefs, Some prefs' =>
        compute_device_type prefs' = "OPTIX"
        ∧ match get_devices (mk_prefs "OPTIX" (devices prefs)) with
          | Some found =>
              (devices prefs').*1 = found.*1
              ∧ ∀ ty use, (ty, use) ∈ devices prefs' →
                  (use = true ↔ ty ∈ ["OPTIX"; "CUDA"; "OPENCL"])
          | None => devices prefs' = devices prefs
          end
    | _, _ => False
    end.
Proof.
  rewrite !configure_gpu_run. cbn [fst snd]. split_and!.
  - done.
  - by destruct w.
  - destruct (preferences w) as [prefs|] eqn:Hp; simpl; [| done].
    split; [done |].
    destruct (get_devices (mk_prefs "OPTIX" (devices prefs))) as [found|]; [| done].
    split.
    + rewrite <- list_fmap_compose. by apply list_fmap_ext.
    + intros ty use [dev [[= -> ->] _]]%list_elem_of_fmap.
      apply bool_decide_eq_true.
Qed.

(** X18. With any engine but CYCLES the render-settings step writes the
    engine name and stops: samples, denoising, bounces and the GPU
    preferences are not looked at, so ill-typed values for them go
    unnoticed and the Cycles settings of the template stay. *)
Theorem configure_render_settings_other_engine
    (render_settings : gmap string json) (engine : string) (w : World) :
  render_settings !! "engine" = Some (JStr engine) → engine ≠ "CYCLES" →
  configure_render_settings render_settings w
  = (Ok tt, set_render (<["engine" := JStr engine]>) w).
Proof.
  intros Hengine Hne. unfold configure_render_settings, get. rewrite Hengine.
  unfold bind, lift, modify, ret. simpl.
  apply String.eqb_neq in Hne. by rewrite Hne.
Qed.

Ltac lookup_props :=
  unfold set_prop; cbn [fst snd cycles render set_cycles set_render set_preferences];
  repeat first [rewrite lookup_insert_eq | rewrite lookup_insert_ne by done].

(** X19. A Cycles run of the render-settings step that returns has set
    the device to GPU, the samples to the requested number (96 when none
    is given) and the five bounce limits from one number [mb] (6 when
    none is given): the overall limit is [mb] and the diffuse, glossy,
    transmission and volume limits are [mb] capped at 2, 3, 6 and 2. *)
Theorem configure_render_settings_cycles
    (render_settings : gmap string json) (w w' : World) :
  as_str (get render_settings "engine" (JStr "CYCLES")) = Ok "CYCLES" →
  configure_render_settings render_settings w = (Ok tt, w') →
  ∃ samples mb,
    as_int (get render_settings "samples" (JInt 96)) = Ok samples
    ∧ as_int (get render_settings "maxBounces" (JInt 6)) = Ok mb
    ∧ render w' !! "engine" = Some (JStr "CYCLES")
    ∧ cycles w' !! "device" = Some (JStr "GPU")
    ∧ cycles w' !! "samples" = Some (JInt samples)
    ∧ cycles w' !! "max_bounces" = Some (JInt mb)
    ∧ cycles w' !! "diffuse_bounces" = Some (JInt (Z.min 2 mb))
    ∧ cycles w' !! "glossy_bounces" = Some (JInt (Z.min 3 mb))
    ∧ cycles w' !! "transmission_bounces" = Some (JInt (Z.min 6 mb))
    ∧ cycles w' !! "volume_bounces" = Some (JInt (Z.min 2 mb)).
Proof.
  intros Hengine. unfold configure_render_settings. rewrite Hengine.
  unfold bind, lift, modify, ret. simpl. rewrite configure_gpu_run.
  destruct (as_int (get render_settings "samples" (JInt 96))) as [samples|e]; [| done].
  destruct (truthy (get render_settings "denoise" (JBool true)));
    destruct (truthy (get render_settings "adaptiveSampling" (JBool true)));
    (destruct (as_int (get render_settings "maxBounces" (JInt 6))) as [mb|e];
     [| done]);
    intros [= <-]; exists samples, mb; rewrite <- !py_min_int_min;
    (split_and!; [done | done | ..]); by lookup_props.
Qed.

(** X20. Denoising and adaptive sampling are only ever switched on.
    Whatever the settings and however the step ends, each of the two
    flags is afterwards what it was or [True]; and when the recipe asks
    for a flag to be off, the flag and its companion setting are left as
    the template had them. *)
Theorem configure_render_settings_flags
    (render_settings : gmap string json) (w : World) :
  let w' := (configure_render_settings render_settings w).2 in
  (∀ k, k = "use_denoising" ∨ k = "use_adaptive_sampling" →
     cycles w' !! k = cycles w !! k ∨ cycles w' !! k = Some (JBool true))
  ∧ (truthy (get render_settings "denoise" (JBool true)) = false →
     cycles w' !! "use_denoising" = cycles w !! "use_denoising"
     ∧ cycles w' !! "denoiser" = cycles w !! "denoiser")
  ∧ (truthy (get render_settings "adaptiveSampling" (JBool true)) = false →
     cycles w' !! "use_adaptive_sampling" = cycles w !! "use_adaptive_sampling"
     ∧ cycles w' !! "adaptive_threshold" = cycles w !! "adaptive_threshold").
Proof.
  unfold configure_render_settings, bind, lift, modify, ret.
  destruct (as_str (get render_settings "engine" (JStr "CYCLES"))) as [engine|e];
    simpl; [| by auto].
  destruct (String.eqb engine "CYCLES"); [| by auto].
  rewrite configure_gpu_run.
  destruct (as_int (get render_settings "samples" (JInt 96))) as [samples|e];
    [| split; [| split];
       [intros k [-> | ->]; left | intros _; split | intros _; split];
       by lookup_props].
  destruct (truthy (get render_settings "denoise" (JBool true)));
    destruct (truthy (get render_settings "adaptiveSampling" (JBool true)));
    destruct (as_int (get render_settings "maxBounces" (JInt 6))) as [mb|e];
    (split; [| split];
     [ intros k [-> | ->]; first [left; by lookup_props | right; by lookup_props]
     | first [done | intros _; split; by lookup_props]
     | first [done | intros _; split; by lookup_props] ]).
Qed.

(** X21. What [configure_output] leaves when it returns: nothing but
    [scene.render] is written; the resolution percentage is 100, the
    file path is the output path and the file format is the requested
    one (WEBP when none is given); a WEBP output takes the requested
    quality (90 when none is given) and leaves the compression alone, a
    PNG output gets compression 15 and its quality setting is not even
    read, and any other format gets neither. *)
Theorem configure_output_format
    (output_settings : gmap string json) (output_path : string) (w w' : World) :
  configure_output output_settings output_path w = (Ok tt, w') →
  ∃ format_type,
    as_str (get output_settings "format" (JStr "WEBP")) = Ok format_type
    ∧ set_render (λ _, render w) w' = w
    ∧ render w' !! "file_format" = Some (JStr format_type)
    ∧ render w' !! "resolution_percentage" = Some (JInt 100)
    ∧ render w' !! "filepath" = Some (JStr output_path)
    ∧ (format_type = "WEBP" →
       ∃ quality,
         as_int (get output_settings "quality" (JInt 90)) = Ok quality
         ∧ render w' !! "quality" = Some (JInt quality)
         ∧ render w' !! "compression" = render w !! "compression")
    ∧ (format_type = "PNG" →
       render w' !! "compression" = Some (JInt 15)
       ∧ render w' !! "quality" = render w !! "quality")
    ∧ (format_type ≠ "WEBP" → format_type ≠ "PNG" →
       render w' !! "compression" = render w !! "compression"
       ∧ render w' !! "quality" = render w !! "quality").
Proof.
  unfold configure_output, bind, lift, modify, ret.
  destruct (as_int (get output_settings "width" (JInt 1024))) as [width|e]; [| done].
  destruct (as_int (get output_settings "height" (JInt 1024))) as [height|e]; [| done].
  destruct (as_str (get output_settings "format" (JStr "WEBP"))) as [format_type|e];
    [| done].
  cbn [fst snd].
  destruct (String.eqb format_type "WEBP") eqn:Hwebp.
  - apply String.eqb_eq in Hwebp as ->.
    destruct (as_int (get output_settings "quality" (JInt 90))) as [quality|e]; [| done].
    destruct (as_bool (get output_settings "transparentBackground" (JBool false)))
      as [transparent|e]; [| done].
    intros [= <-]. exists "WEBP".
    split_and!; try done; try (by lookup_props); try (by destruct w).
    all: intros _; exists quality; split_and!; [done | by lookup_props | by lookup_props].
  - apply String.eqb_neq in Hwebp.
    destruct (String.eqb format_type "PNG") eqn:Hpng.
    + apply String.eqb_eq in Hpng as ->.
      destruct (as_bool (get output_settings "transparentBackground" (JBool false)))
        as [transparent|e]; [| done].
      intros [= <-]. exists "PNG".
      split_and!; try done; try (by lookup_props); by destruct w.
    + apply String.eqb_neq in Hpng.
      destruct (as_bool (get output_settings "transparentBackground" (JBool false)))
        as [transparent|e]; [| done].
      intros [= <-]. exists format_type.
      split_and!; try done; try (by lookup_props); by destruct w.
Qed.

Lemma neutral_entry :
  temp_settings !! "Neutral" = Some (mk_palette 0 (1, 1, 1))%float.
Proof. reflexivity. Qed.

(** X22. [apply_palette_temperature] never fails and writes the view
    exposure only: 0.1 for Warm, 0.05 for HighContrast and 0.0 for every
    other value of the trait, known or unknown or absent.  The gamma
    triples of the table are not used, so Cool, Neutral and Desaturated
    give the same scene. *)
Theorem apply_palette_temperature_exposure (traits : gmap string string) (w : World) :
  apply_palette_temperature traits w
  = (Ok tt,
     set_exposure
       (if String.eqb (get traits "PaletteTemperature" "Neutral") "Warm" then 0.1
        else if String.eqb (get traits "PaletteTemperature" "Neutral") "HighContrast"
             then 0.05
             else 0)%float w).
Proof.
  unfold apply_palette_temperature, bind, lift, modify.
  rewrite (get_or_entry_ok _ _ _ _ neutral_entry).
  set (temp := get traits "PaletteTemperature" "Neutral").
  do 2 f_equal. unfold get.
  destruct (temp_settings !! temp) as [p|] eqn:Hk; simpl.
  - apply elem_of_list_to_map_2 in Hk.
    repeat (apply elem_of_cons in Hk as [[= -> ->] | Hk]; [reflexivity |]).
    by apply elem_of_nil in Hk.
  - destruct (String.eqb temp "Warm") eqn:Hwarm.
    { apply String.eqb_eq in Hwarm. rewrite Hwarm in Hk. discriminate Hk. }
    destruct (String.eqb temp "HighContrast") eqn:Hhigh; [| done].
    apply String.eqb_eq in Hhigh. rewrite Hhigh in Hk. discriminate Hk.
Qed.
End Settings.

Lemma configure_gpu_outcome_witness :
  preferences sample_world_gpu
  = Some (mk_prefs "NONE" [("CPU", true); ("OPTIX", false)])
  ∧ preferences (configure_gpu (H := sample_host) sample_world_gpu).2
    = Some (mk_prefs "OPTIX" [("CPU", false); ("OPTIX", true)])
  ∧ preferences sample_world_no_devices = Some (mk_prefs "NONE" [])
  ∧ preferences (configure_gpu (H := sample_host) sample_world_no_devices).2
    = Some (mk_prefs "OPTIX" [("CPU", false); ("OPTIX", true)])
  ∧ ("CPU" ∉ ["OPTIX"; "CUDA"; "OPENCL"]).
Proof.
  pose proof (configure_gpu_outcome (H := sample_host) sample_world_no_devices)
    as (_ & _ & Hprefs).
  assert (Hafter : preferences (configure_gpu (H := sample_host)
                                  sample_world_no_devices).2
                   = Some (mk_prefs "OPTIX" [("CPU", false); ("OPTIX", true)]))
    by reflexivity.
  assert (Hin : ("CPU", false) ∈ [("CPU", false); ("OPTIX", true)])
    by (apply elem_of_cons; by left).
  rewrite Hafter in Hprefs. simpl in Hprefs. destruct Hprefs as (_ & _ & Huse).
  split_and!; [reflexivity | reflexivity | reflexivity | exact Hafter |].
  intros Hgpu. by apply (Huse "CPU" false Hin) in Hgpu.
Defined.

Lemma configure_render_settings_other_engine_witness :
  let settings : gmap string json :=
    list_to_map [("engine", JStr "BLENDER_EEVEE"); ("samples", JStr "many")] in
  settings !! "engine" = Some (JStr "BLENDER_EEVEE")
  ∧ "BLENDER_EEVEE" ≠ "CYCLES"
  ∧ configure_render_settings (H := sample_host) settings sample_world
    = (Ok tt, set_render (H := sample_host) (<["engine" := JStr "BLENDER_EEVEE"]>)
                sample_world).
Proof.
  intros settings.
  assert (Hne : "BLENDER_EEVEE" ≠ "CYCLES") by done.
  split_and!; [reflexivity | exact Hne |].
  exact (configure_render_settings_other_engine (H := sample_host) settings
           "BLENDER_EEVEE" sample_world eq_refl Hne).
Defined.

Lemma configure_render_settings_cycles_witness :
  let settings : gmap string json := {[ "maxBounces" := JInt 4 ]} in
  let w' := (configure_render_settings (H := sample_host) settings sample_world).2 in
  as_str (get settings "engine" (JStr "CYCLES")) = Ok "CYCLES"
  ∧ configure_render_settings (H := sample_host) settings sample_world = (Ok tt, w')
  ∧ (λ k, cycles w' !! k)
      <$> ["samples"; "max_bounces"; "diffuse_bounces"; "glossy_bounces";
           "transmission_bounces"; "volume_bounces"]
    = (λ z, Some (JInt z)) <$> [96; 4; 2; 3; 4; 2].
Proof.
  intros settings w'.
  assert (Hengine : as_str (get settings "engine" (JStr "CYCLES")) = Ok "CYCLES")
    by reflexivity.
  assert (Hrun : configure_render_settings (H := sample_host) settings sample_world
                 = (Ok tt, w')) by (vm_compute; reflexivity).
  destruct (configure_render_settings_cycles (H := sample_host) settings sample_world w'
              Hengine Hrun)
    as (samples & mb & Hs & Hmb & _ & _ & Hsamples & Hmax & Hd & Hg & Ht & Hv).
  injection Hs as <-. injection Hmb as <-.
  split_and!; [exact Hengine | exact Hrun |].
  cbn [fmap list_fmap]. rewrite Hsamples, Hmax, Hd, Hg, Ht, Hv. reflexivity.
Defined.

Lemma configure_render_settings_flags_witness :
  let settings : gmap string json := {[ "denoise" := JBool false ]} in
  let template := set_cycles (H := sample_host)
                    (<["use_denoising" := JBool true]>) sample_world in
  let w' := (configure_render_settings (H := sample_host) settings template).2 in
  truthy (get settings "denoise" (JBool true)) = false
  ∧ cycles w' !! "use_denoising" = Some (JBool true)
  ∧ cycles w' !! "denoiser" = None
  ∧ cycles w' !! "use_adaptive_sampling" = Some (JBool true).
Proof.
  intros settings template w'.
  pose proof (configure_render_settings_flags (H := sample_host) settings template)
    as (_ & Hoff & _).
  destruct (Hoff eq_refl) as [Hflag Hdenoiser].
  split_and!; [reflexivity | | | reflexivity].
  - unfold w'. rewrite Hflag. reflexivity.
  - unfold w'. rewrite Hdenoiser. reflexivity.
Defined.

Lemma configure_output_format_witness :
  let settings : gmap string json :=
    list_to_map [("format", JStr "PNG"); ("quality", JStr "best")] in
  let w' := (configure_output (H := sample_host) settings "out.png" sample_world).2 in
  configure_output (H := sample_host) settings "out.png" sample_world = (Ok tt, w')
  ∧ render w' !! "compression" = Some (JInt 15)
  ∧ render w' !! "quality" = None
  ∧ render w' !! "filepath" = Some (JStr "out.png").
Proof.
  intros settings w'.
  assert (Hrun : configure_output (H := sample_host) settings "out.png" sample_world
                 = (Ok tt, w')) by (vm_compute; reflexivity).
  destruct (configure_output_format (H := sample_host) settings "out.png" sample_world
              w' Hrun)
    as (format_type & Hformat & _ & _ & _ & Hpath & _ & Hpng & _).
  injection Hformat as <-. destruct (Hpng eq_refl) as [Hcompression Hquality].
  split_and!; [exact Hrun | exact Hcompression | | exact Hpath].
  rewrite Hquality. reflexivity.
Defined.

(** ** The phases of [render_token] *)

Lemma bind_ext {S A B} (m m' : M S A) (k k' : A → M S B) (s : S) :
  m s = m' s → (∀ a s', k a s' = k' a s') → bind m k s = bind m' k' s.
Proof.
  intros Hm Hk. unfold bind. rewrite Hm. destruct (m' s) as [[a|e] s']; [apply Hk | done].
Qed.

Lemma as_traits_strings (traits : gmap string string) :
  as_traits (JObj (JStr <$> traits)) = Ok traits.
Proof.
  unfold as_traits. rewrite bool_decide_eq_true_2.
  - f_equal. apply map_eq. intros k. rewrite lookup_omap, lookup_fmap.
    by destruct (traits !! k).
  - intros k v. rewrite lookup_fmap. destruct (traits !! k); intros [= <-]. by eexists.
Qed.

Section Phases.
Context `{Host}.

Lemma scene_part_refl (w : World) : scene_part w w.
Proof. by repeat split. Qed.

Lemma scene_part_trans (w1 w2 w3 : World) :
  scene_part w1 w2 → scene_part w2 w3 → scene_part w1 w3.
Proof.
  intros (? & ? & ? & ? & ? & ?) (? & ? & ? & ? & ? & ?).
  repeat split; congruence.
Qed.

Lemma settings_part_refl (w : World) : settings_part w w.
Proof. by destruct w. Qed.

Lemma settings_part_trans (w1 w2 w3 : World) :
  settings_part w1 w2 → settings_part w2 w3 → settings_part w1 w3.
Proof.
  unfold settings_part, set_render, set_cycles, set_preferences.
  destruct w1, w2, w3. simpl. congruence.
Qed.

Ltac solve_scene_part :=
  repeat first
    [ progress intros
    | apply scene_part_refl
    | apply preserves_ret; apply scene_part_refl
    | apply preserves_raise; apply scene_part_refl
    | apply preserves_lift; apply scene_part_refl
    | apply preserves_gets; apply scene_part_refl
    | apply writes_modify; intros; by repeat split
    | apply writes_in_material; [intros; by repeat split |]
    | apply writes_in_light; [intros; by repeat split |]
    | apply writes_in_scene_nodes; [apply scene_part_refl | intros; by repeat split]
    | apply preserves_for_in; [apply scene_part_refl | apply scene_part_trans |]
    | apply preserves_bind; [apply scene_part_trans | |]
    | case_match ].

Lemma writes_configure_traits (recipe : gmap string json) :
  preserves scene_part (configure_traits recipe).
Proof.
  unfold configure_traits, configure_geometry, update_object,
    configure_frame_material, configure_core_material, get_or_new_material,
    assign_material, configure_lights, adjust_key_light, tint_accent_lights, tint_light,
    adjust_emission_plane_strength, on_emission_nodes, configure_atmosphere,
    configure_lens_bloom, apply_palette_temperature, no_attribute.
  solve_scene_part.
Qed.

Ltac solve_settings_part :=
  repeat first
    [ progress intros
    | apply settings_part_refl
    | apply preserves_ret; apply settings_part_refl
    | apply preserves_raise; apply settings_part_refl
    | apply preserves_lift; apply settings_part_refl
    | apply writes_modify; intros w0; by destruct w0
    | apply preserves_bind; [apply settings_part_trans | |]
    | case_match ].

Lemma writes_configure_gpu : preserves settings_part configure_gpu.
Proof. intros w. rewrite configure_gpu_run. by destruct w. Qed.

Lemma writes_configure_render (recipe : gmap string json) (output_path : string) :
  preserves settings_part (configure_render recipe output_path).
Proof.
  unfold configure_render, configure_render_settings, configure_output.
  repeat first [ apply writes_configure_gpu | progress solve_settings_part ].
Qed.

(** X23. The three phases of [render_token] write disjoint parts of the
    store, however they end, for a recipe whose trait values are
    strings: seeding writes the generator only; the seven scene steps
    leave the render settings, the Cycles settings, the add-on
    preferences and the generator alone; the settings phase writes
    nothing but those settings and preferences, so the scene it is given
    is the scene that is rendered. *)
Theorem render_token_phases_write_apart
    (recipe : gmap string json) (seed_hex output_path : string) (w : World) :
  string_traits recipe = true →
  set_rng (rng w) (seed_random seed_hex w).2 = w
  ∧ scene_part w (configure_traits recipe w).2
  ∧ settings_part w (configure_render recipe output_path w).2.
Proof.
  intros _. split_and!.
  - unfold seed_random, bind, lift, modify, ret.
    destruct (String.prefix "0x" seed_hex), (py_int16 seed_hex); by destruct w.
  - apply writes_configure_traits.
  - apply writes_configure_render.
Qed.

Lemma configure_atmosphere_run (traits : gmap string string) (w : World) :
  configure_atmosphere traits w = (Ok tt, w).
Proof.
  unfold configure_atmosphere, bind, gets, lift, ret.
  destruct (has_world w); simpl; [| done].
  by rewrite (get_or_entry_ok _ _ _ _ clear_entry).
Qed.

Lemma configure_traits_run (recipe : gmap string json) (traits : gmap string string)
    (house_key : json) (w : World) :
  recipe !! "traits" = Some (JObj (JStr <$> traits)) →
  recipe !! "houseKey" = Some house_key →
  configure_traits recipe w
  = (configure_geometry traits ;;
     configure_frame_material traits ;;
     configure_core_material traits ;;
     configure_lights traits house_key ;;
     configure_atmosphere traits ;;
     configure_lens_bloom traits ;;
     apply_palette_temperature traits) w.
Proof.
  intros Ht Hh. unfold configure_traits, getitem, bind at 1 2 3, lift.
  by rewrite Ht, Hh, as_traits_strings.
Qed.

(** X24. Of the traits mapping the scene steps read seven keys --
    DioramaGeometry, FrameType, SurfaceAging, CoreMaterial,
    LightSignature, LensBloom, PaletteTemperature -- and nothing else:
    two recipes with the same house key whose traits agree on these keys
    configure any scene alike.  The Atmosphere trait is not among them:
    it is looked up and dropped, so it has no effect on the scene. *)
Theorem configure_traits_reads_seven_keys
    (recipe1 recipe2 : gmap string json) (traits1 traits2 : gmap string string)
    (w : World) :
  recipe1 !! "traits" = Some (JObj (JStr <$> traits1)) →
  recipe2 !! "traits" = Some (JObj (JStr <$> traits2)) →
  recipe1 !! "houseKey" = recipe2 !! "houseKey" →
  (∀ k, k ∈ trait_keys → traits1 !! k = traits2 !! k) →
  configure_traits recipe1 w = configure_traits recipe2 w.
Proof.
  intros Ht1 Ht2 Hhouse Hkeys.
  assert (Hkey : ∀ k dflt, k ∈ trait_keys → get traits1 k dflt = get traits2 k dflt).
  { intros k dflt Hk. unfold get. by rewrite (Hkeys k Hk). }
  destruct (recipe2 !! "houseKey") as [house_key|] eqn:Hhouse2.
  2:{ unfold configure_traits, getitem, bind, lift. by rewrite Ht1, Ht2, Hhouse, Hhouse2. }
  rewrite (configure_traits_run recipe1 traits1 house_key w Ht1 Hhouse).
  rewrite (configure_traits_run recipe2 traits2 house_key w Ht2 Hhouse2).
  apply bind_ext.
  { unfold configure_geometry. rewrite (Hkey "DioramaGeometry"); [done |].
    unfold trait_keys. rewrite !elem_of_cons. by auto 10. }
  intros _ w3. apply bind_ext.
  { unfold configure_frame_material.
    rewrite (Hkey "FrameType"), (Hkey "SurfaceAging"); [done | |];
      unfold trait_keys; rewrite !elem_of_cons; by auto 10. }
  intros _ w4. apply bind_ext.
  { unfold configure_core_material. rewrite (Hkey "CoreMaterial"); [done |].
    unfold trait_keys. rewrite !elem_of_cons. by auto 10. }
  intros _ w5. apply bind_ext.
  { unfold configure_lights, resolve_light_signature.
    rewrite (Hkeys "LightSignature"); [done |].
    unfold trait_keys. rewrite !elem_of_cons. by auto 10. }
  intros _ w6. apply bind_ext; [by rewrite !configure_atmosphere_run |].
  intros _ w7. apply bind_ext.
  { unfold configure_lens_bloom. rewrite (Hkey "LensBloom"); [done |].
    unfold trait_keys. rewrite !elem_of_cons. by auto 10. }
  intros _ w8. unfold apply_palette_temperature.
  rewrite (Hkey "PaletteTemperature"); [done |].
  unfold trait_keys. rewrite !elem_of_cons. by auto 10.
Qed.

(** X25. Where [render_token] can fail early.  A seed that is no
    hexadecimal literal stops it with the [ValueError] before anything
    is written.  With a good seed but traits that are no JSON object it
    stops with an [AttributeError] at the first scene step: by then the
    generator has been seeded, and that is the only change. *)
Theorem render_token_early_failures
    (recipe : gmap string json) (output_path seed_hex : string) (w : World) :
  is_Some (recipe !! "tokenId") →
  recipe !! "seed" = Some (JStr seed_hex) →
  (parse_hex seed_hex = None →
   ∃ msg, render_token recipe output_path w = (Raise (ValueError msg), w))
  ∧ (∀ n traits,
       parse_hex seed_hex = Some n →
       recipe !! "traits" = Some traits → is_Some (recipe !! "houseKey") →
       (∀ fields, traits ≠ JObj fields) →
       render_token recipe output_path w
       = (Raise (AttributeError "get"), set_rng (random_seed (n mod 2 ^ 32)) w)).
Proof.
  intros [token Htoken] Hseed. split.
  - intros Hbad. eexists.
    unfold render_token, configure_scene, bind at 1 2 3, lift, getitem.
    rewrite Htoken, Hseed. cbn [as_seed]. unfold bind at 1 2.
    unfold seed_random, bind, lift, py_int16. rewrite Hbad.
    by destruct (String.prefix "0x" seed_hex).
  - intros n traits Hgood Htraits [house Hhouse] Hobj.
    unfold render_token, configure_scene, bind at 1 2 3, lift, getitem.
    rewrite Htoken, Hseed. cbn [as_seed]. unfold bind at 1 2.
    rewrite (seed_random_run seed_hex n w) by (unfold py_int16; by rewrite Hgood).
    unfold configure_traits, bind, lift, getitem. rewrite Htraits, Hhouse.
    destruct traits; try done. by destruct (Hobj fields).
Qed.
End Phases.

Lemma render_token_phases_write_apart_witness :
  let w' := (configure_traits (H := sample_host) sample_recipe sample_world).2 in
  string_traits sample_recipe = true
  ∧ (configure_traits (H := sample_host) sample_recipe sample_world).1 = Ok tt
  ∧ meshes w' !! "Frame" = Some [Some "MAT_Frame_WhiteGold"]
  ∧ render w' = render sample_world ∧ cycles w' = cycles sample_world
  ∧ preferences w' = preferences sample_world ∧ rng w' = rng sample_world.
Proof.
  intros w'.
  destruct (render_token_phases_write_apart (H := sample_host) sample_recipe
              "0xA1" "out.png" sample_world eq_refl)
    as (_ & (_ & _ & Hrender & Hcycles & Hprefs & Hrng) & _).
  split_and!; [reflexivity | vm_compute; reflexivity | reflexivity
              | exact Hrender | exact Hcycles | exact Hprefs | exact Hrng].
Defined.

Lemma configure_traits_reads_seven_keys_witness :
  let traits1 : gmap string string :=
    list_to_map [("FrameType", "RoseGold"); ("Atmosphere", "DustStorm")] in
  let traits2 : gmap string string :=
    list_to_map [("FrameType", "RoseGold"); ("Atmosphere", "Clear");
                 ("Mood", "Serene")] in
  let recipe1 : gmap string json :=
    <["traits" := JObj (JStr <$> traits1)]> sample_recipe in
  let recipe2 : gmap string json :=
    <["traits" := JObj (JStr <$> traits2)]> sample_recipe in
  recipe1 !! "houseKey" = recipe2 !! "houseKey"
  ∧ traits1 !! "Atmosphere" ≠ traits2 !! "Atmosphere"
  ∧ configure_traits (H := sample_host) recipe1 sample_world
    = configure_traits (H := sample_host) recipe2 sample_world.
Proof.
  intros traits1 traits2 recipe1 recipe2.
  split_and!; [reflexivity | discriminate |].
  apply (configure_traits_reads_seven_keys (H := sample_host) recipe1 recipe2
           traits1 traits2 sample_world eq_refl eq_refl eq_refl).
  intros k Hk. unfold trait_keys in Hk.
  repeat (apply elem_of_cons in Hk as [-> | Hk]; [reflexivity |]).
  by apply elem_of_nil in Hk.
Defined.

Lemma render_token_early_failures_witness :
  let bad_seed : gmap string json := <["seed" := JStr "0xZZ"]> sample_recipe in
  let bad_traits : gmap string json := <["traits" := JArr []]> sample_recipe in
  parse_hex "0xZZ" = None
  ∧ parse_hex "0xA1" = Some 161
  ∧ (render_token (H := sample_host) bad_seed "out.png" sample_world).2 = sample_world
  ∧ render_token (H := sample_host) bad_traits "out.png" sample_world
    = (Raise (AttributeError "get"), set_rng (H := sample_host) 161 sample_world).
Proof.
  intros bad_seed bad_traits.
  assert (Htoken : ∀ r : gmap string json,
            r !! "tokenId" = Some (JStr "17") → is_Some (r !! "tokenId"))
    by (intros r Hr; by eexists).
  pose proof (render_token_early_failures (H := sample_host) bad_seed "out.png" "0xZZ"
                sample_world (Htoken bad_seed eq_refl) eq_refl) as [Hbad _].
  pose proof (render_token_early_failures (H := sample_host) bad_traits "out.png" "0xA1"
                sample_world (Htoken bad_traits eq_refl) eq_refl) as [_ Hgood].
  split_and!; [reflexivity | reflexivity | |].
  - destruct (Hbad eq_refl) as [msg ->]. reflexivity.
  - apply (Hgood 161 (JArr []) eq_refl eq_refl); [by eexists | discriminate].
Defined.

(** ** Emission planes *)

Lemma scale_strength_type (multiplier : float) (n : node) :
  n_type (scale_strength multiplier n) = n_type n.
Proof.
  unfold scale_strength. case_bool_decide; [| done].
  by destruct (inputs n !! "Strength") as [[?|]|].
Qed.

Lemma scale_strength_sockets (multiplier : float) (ns : list node) :
  (∀ n, n ∈ ns → n_type n = "EMISSION" →
        ∃ x, inputs n !! "Strength" = Some (SFloat x)) →
  ∀ n, n ∈ scale_strength multiplier <$> ns → n_type n = "EMISSION" →
       ∃ x, inputs n !! "Strength" = Some (SFloat x).
Proof.
  intros Hsock n' [n [-> Hn]]%list_elem_of_fmap Hty.
  rewrite scale_strength_type in Hty. destruct (Hsock n Hn Hty) as [x Hx].
  unfold scale_strength. rewrite bool_decide_eq_true_2, Hx by done.
  eexists. simpl. by rewrite lookup_insert_eq.
Qed.

Section EmissionPlanes.
Context `{Host}.

Lemma set_materials_insert_id (k : string) (mat : material) (w : World) :
  materials w !! k = Some mat → set_materials (<[k := mat]>) w = w.
Proof.
  intros Hk. unfold set_materials. rewrite (insert_id _ _ _ Hk). by destruct w.
Qed.

(** The strength body on one node material. *)
Lemma scale_material_run (k : string) (multiplier : float) (ns : list node)
    (w : World) :
  materials w !! k = Some (mk_material true (Some ns)) →
  (∀ n, n ∈ ns → n_type n = "EMISSION" →
        ∃ x, inputs n !! "Strength" = Some (SFloat x)) →
  in_material k
    (let* nodes_on := gets use_nodes in
     if nodes_on : bool
     then in_node_tree (for_each (is_emission (
            let* v := get_input "Strength" in
            let* current := as_float v in
            set_input "Strength" (SFloat (current * multiplier)))))
     else ret tt)
    (ret tt) w
  = (Ok tt,
     set_materials
       (<[k := mk_material true (Some (scale_strength multiplier <$> ns))]>) w).
Proof.
  intros Hmat Hsock. unfold in_material. rewrite Hmat.
  unfold bind at 1, gets. simpl. unfold in_node_tree. simpl.
  rewrite (for_each_ok (scale_strength multiplier)); [done |].
  intros n Hn. unfold is_emission, when_type, scale_strength.
  case_bool_decide as Hty; [| done].
  destruct (Hsock n Hn Hty) as [x Hx].
  unfold bind, get_input, getitem, set_input. rewrite Hx. simpl. by rewrite Hx.
Qed.

Lemma scale_slots_run (k : string) (multiplier : float)
    (slots : list (option string)) (ns : list node) (w : World) :
  (∀ slot, slot ∈ slots → slot = None ∨ slot = Some k) →
  materials w !! k = Some (mk_material true (Some ns)) →
  (∀ n, n ∈ ns → n_type n = "EMISSION" →
        ∃ x, inputs n !! "Strength" = Some (SFloat x)) →
  for_in slots (λ slot,
    match slot with
    | None => ret tt
    | Some k =>
        in_material k
          (let* nodes_on := gets use_nodes in
           if nodes_on : bool
           then in_node_tree (for_each (is_emission (
                  let* v := get_input "Strength" in
                  let* current := as_float v in
                  set_input "Strength" (SFloat (current * multiplier)))))
           else ret tt)
          (ret tt)
    end) w
  = (Ok tt,
     set_materials
       (<[k := mk_material true
            (Some (Nat.iter (List.length (omap id slots))
                     (fmap (scale_strength multiplier)) ns))]>) w).
Proof.
  revert ns w. induction slots as [|slot slots IH]; intros ns w Hslots Hmat Hsock.
  - simpl. unfold ret. by rewrite (set_materials_insert_id _ _ _ Hmat).
  - cbn [for_in]. unfold bind at 1.
    assert (Hrest : ∀ s, s ∈ slots → s = None ∨ s = Some k)
      by (intros s Hs; apply Hslots; by right).
    destruct (Hslots slot) as [-> | ->]; [by left | |].
    + unfold ret at 1. by rewrite (IH ns w Hrest Hmat Hsock).
    + rewrite (scale_material_run k multiplier ns w Hmat Hsock).
      rewrite (IH (scale_strength multiplier <$> ns)).
      * cbn [omap list_omap id List.length]. rewrite Nat.iter_succ_r.
        unfold set_materials. simpl. by rewrite insert_insert_eq.
      * done.
      * simpl. by rewrite lookup_insert_eq.
      * by apply scale_strength_sockets.
Qed.

(** X26. The strength helper works slot by slot, not material by
    material.  On a plane all of whose filled slots hold one node
    material, the emission strengths of that material are multiplied
    once for every slot that holds it: a material that sits in two slots
    is scaled twice. *)
Theorem emission_strength_scaled_per_slot
    (obj : object) (d k : string) (multiplier : float)
    (slots : list (option string)) (ns : list node) (w : World) :
  data obj = ObMesh d → meshes w !! d = Some slots →
  (∀ slot, slot ∈ slots → slot = None ∨ slot = Some k) →
  materials w !! k = Some (mk_material true (Some ns)) →
  (∀ n, n ∈ ns → n_type n = "EMISSION" →
        ∃ x, inputs n !! "Strength" = Some (SFloat x)) →
  adjust_emission_plane_strength obj multiplier w
  = (Ok tt,
     set_materials
       (<[k := mk_material true
            (Some (Nat.iter (List.length (omap id slots))
                     (fmap (scale_strength multiplier)) ns))]>) w).
Proof.
  intros Hdata Hmesh Hslots Hmat Hsock.
  unfold adjust_emission_plane_strength, on_emission_nodes. rewrite Hdata.
  unfold bind at 1, gets. simpl. rewrite Hmesh.
  destruct slots as [|slot slots].
  - unfold ret. simpl. by rewrite (set_materials_insert_id _ _ _ Hmat).
  - by apply scale_slots_run.
Qed.

Lemma recolor_material_run (k : string) (c : rgb) (ns : list node) (w : World) :
  materials w !! k = Some (mk_material true (Some ns)) →
  (∀ n, n ∈ ns → n_type n = "EMISSION" →
        ∃ r g b a, inputs n !! "Color" = Some (SColor r g b a)) →
  in_material k
    (let* nodes_on := gets use_nodes in
     if nodes_on : bool
     then in_node_tree (for_each (is_emission (set_input "Color" (rgba c))))
     else ret tt)
    (ret tt) w
  = (Ok tt,
     set_materials (<[k := mk_material true (Some (recolor_emission c <$> ns))]>) w).
Proof.
  intros Hmat Hsock. unfold in_material. rewrite Hmat.
  unfold bind at 1, gets. simpl. unfold in_node_tree. simpl.
  rewrite (for_each_ok (recolor_emission c)); [done |].
  intros n Hn. unfold is_emission, when_type, recolor_emission.
  case_bool_decide as Hty; [| done].
  destruct (Hsock n Hn Hty) as (r & g & b & a & Hx).
  unfold set_input. rewrite Hx. by destruct c as [[? ?] ?].
Qed.

(** X27. The colour helper for emission planes.  Whatever the object and
    however the call ends, it writes materials only: a material outside
    the slots of the object's mesh is the same, and inside only the
    ["Color"] socket of emission nodes can differ -- strengths are not
    touched.  An object without data is passed over.  On a plane with
    one node material whose emission nodes carry a colour, every emission
    node ends up with the given colour at alpha 1.0. *)
Theorem adjust_emission_plane_color_outcome (obj : object) (c : rgb) (w : World) :
  materials_related (only_type "EMISSION" (off_socket "Color"))
    (λ k, ∃ d slots, data obj = ObMesh d ∧ meshes w !! d = Some slots ∧ Some k ∈ slots)
    w (adjust_emission_plane_color obj c w).2
  ∧ (data obj = ObEmpty → adjust_emission_plane_color obj c w = (Ok tt, w))
  ∧ (∀ d k ns,
       data obj = ObMesh d → meshes w !! d = Some [Some k] →
       materials w !! k = Some (mk_material true (Some ns)) →
       (∀ n, n ∈ ns → n_type n = "EMISSION" →
             ∃ r g b a, inputs n !! "Color" = Some (SColor r g b a)) →
       adjust_emission_plane_color obj c w
       = (Ok tt,
          set_materials
            (<[k := mk_material true (Some (recolor_emission c <$> ns))]>) w)).
Proof.
  split_and!.
  - apply on_emission_nodes_frame.
    + apply off_socket_refl.
    + apply off_socket_trans.
    + by intros a b [? _].
    + apply preserves_set_input.
  - intros Hdata. unfold adjust_emission_plane_color, on_emission_nodes.
    by rewrite Hdata.
  - intros d k ns Hdata Hmesh Hmat Hsock.
    unfold adjust_emission_plane_color, on_emission_nodes. rewrite Hdata.
    unfold bind at 1, gets at 1. cbn beta iota. rewrite Hmesh. cbn [for_in].
    unfold bind at 1. by rewrite (recolor_material_run k c ns w Hmat Hsock).
Qed.
End EmissionPlanes.

Lemma emission_strength_scaled_per_slot_witness :
  meshes sample_world_two_slots !! "Light_Key"
  = Some [Some "MAT_Light_Key"; None; Some "MAT_Light_Key"]
  ∧ materials sample_world_two_slots !! "MAT_Light_Key"
    = Some (plane_material (1, 0.98, 0.95)%float 12)
  ∧ materials
      (adjust_emission_plane_strength (H := sample_host)
         (mk_object (ObMesh "Light_Key") false false) 1.5 sample_world_two_slots).2
      !! "MAT_Light_Key"
    = Some (plane_material (1, 0.98, 0.95)%float 27).
Proof.
  assert (Hmesh : meshes sample_world_two_slots !! "Light_Key"
                  = Some [Some "MAT_Light_Key"; None; Some "MAT_Light_Key"])
    by reflexivity.
  assert (Hmat : materials sample_world_two_slots !! "MAT_Light_Key"
                 = Some (mk_material true
                           (Some [material_output;
                                  emission_node (1, 0.98, 0.95)%float 12])))
    by reflexivity.
  assert (Hslots : ∀ slot,
            slot ∈ [Some "MAT_Light_Key"; None; Some "MAT_Light_Key"] →
            slot = None ∨ slot = Some "MAT_Light_Key").
  { intros slot Hslot.
    repeat (apply elem_of_cons in Hslot as [-> | Hslot]; [by auto |]).
    by apply elem_of_nil in Hslot. }
  assert (Hsock : ∀ n,
            n ∈ [material_output; emission_node (1, 0.98, 0.95)%float 12] →
            n_type n = "EMISSION" → ∃ x, inputs n !! "Strength" = Some (SFloat x)).
  { intros n Hn Hty. exists 12%float.
    apply elem_of_cons in Hn as [-> | Hn]; [done |].
    apply list_elem_of_singleton in Hn as ->. reflexivity. }
  split_and!; [exact Hmesh | exact Hmat |].
  rewrite (emission_strength_scaled_per_slot (H := sample_host)
             (mk_object (ObMesh "Light_Key") false false) "Light_Key" "MAT_Light_Key"
             1.5 _ _ sample_world_two_slots eq_refl Hmesh Hslots Hmat Hsock).
  reflexivity.
Defined.

Lemma adjust_emission_plane_color_outcome_witness :
  let fill := mk_object (ObMesh "Light_Fill") false false in
  data fill = ObMesh "Light_Fill"
  ∧ meshes sample_world !! "Light_Fill" = Some [Some "MAT_Light_Fill"]
  ∧ materials
      (adjust_emission_plane_color (H := sample_host) fill (0.4, 0.9, 1)%float
         sample_world).2 !! "MAT_Light_Fill"
    = Some (plane_material (0.4, 0.9, 1)%float 4)
  ∧ adjust_emission_plane_color (H := sample_host) (mk_object ObEmpty false false)
      (0.4, 0.9, 1)%float sample_world = (Ok tt, sample_world).
Proof.
  intros fill.
  assert (Hmesh : meshes sample_world !! "Light_Fill" = Some [Some "MAT_Light_Fill"])
    by reflexivity.
  assert (Hmat : materials sample_world !! "MAT_Light_Fill"
                 = Some (mk_material true
                           (Some [material_output;
                                  emission_node (0.9, 0.95, 1)%float 4])))
    by reflexivity.
  pose proof (adjust_emission_plane_color_outcome (H := sample_host) fill
                (0.4, 0.9, 1)%float sample_world) as (_ & _ & Hplane).
  pose proof (adjust_emission_plane_color_outcome (H := sample_host)
                (mk_object ObEmpty false false) (0.4, 0.9, 1)%float sample_world)
    as (_ & Hempty & _).
  assert (Hsock : ∀ n,
            n ∈ [material_output; emission_node (0.9, 0.95, 1)%float 4] →
            n_type n = "EMISSION" →
            ∃ r g b a, inputs n !! "Color" = Some (SColor r g b a)).
  { intros n Hn Hty.
    apply elem_of_cons in Hn as [-> | Hn]; [done |].
    apply list_elem_of_singleton in Hn as ->. by eexists _, _, _, _. }
  split_and!; [reflexivity | exact Hmesh | | exact (Hempty eq_refl)].
  rewrite (Hplane "Light_Fill" "MAT_Light_Fill" _ eq_refl Hmesh Hmat Hsock).
  reflexivity.
Defined.
